(** * createCssVarsProvider: a shallow embedding

    Source: packages/mui-system/src/cssVars/createCssVarsProvider.js

    The module builds a React provider that turns a theme object into CSS
    custom properties, keeps a color scheme in sync with the document root
    and hands the merged theme and the scheme state to descendants.

    Modelling decisions, in one place:
    - JavaScript values are the inductive [value]; an object is the list of
      its own enumerable string-keyed properties in enumeration order
      (what [Object.entries] returns).  The one read with a computed
      key, in the validation of the default scheme, goes through the
      built-in prototypes ([Js.has_truthy]); every other read is of a
      key that no built-in prototype defines.  The integer-keys-first
      ordering rule is outside the model.
    - Objects are held by value wherever only their content matters.  The
      one place where the program writes to an object that others may
      hold, the two assignments through [theme.palette], is also
      embedded over a store of objects with references ([Heap]), which
      is where statements about the identity of objects live.
    - A thrown exception is the [Throw] case of [result].
    - [console.error] is a writer: functions that log return the lines.
    - The document, its root element, its head and the timer queue are the
      record [Browser]; every DOM call also leaves an entry in a call log.
    - React is modelled by what it does to this component: which effect
      bodies and cleanups run at mount, update and unmount, and in which
      order.
    - Functions imported from files that are not part of this development
      ([cssVarsParser], [deepmerge], [useCurrentColorScheme],
      [createGetCssVar], the two constants of [getInitColorSchemeScript])
      are Section variables; the theorems hold for every instance. *)

From Stdlib Require Import ZArith String Ascii List Bool Lia.
From stdpp Require Import base option list strings gmap pretty.
Import ListNotations.

Set Warnings "-register-all".

(** ** JavaScript values *)

(** [VNum n] is the integer-valued number [n], standing for the double
    nearest to it.  [VObj props] is a plain object (its prototype is
    [Object.prototype]) with the own properties [props].  [VFun label
    props] is a function without formal parameters and without a name,
    whose source text is [label], carrying the own properties [props]. *)
Inductive value : Type :=
| VUndefined
| VNull
| VBool (b : bool)
| VNum (n : Z)
| VStr (s : string)
| VFun (label : string) (props : list (string * value))
| VObj (props : list (string * value)).

(** Own properties, in enumeration order. *)
Definition obj : Type := list (string * value).

Inductive error : Type :=
| TypeError (msg : string)
| MuiError (msg : string).

Inductive result (A : Type) : Type :=
| Ok (a : A)
| Throw (e : error).
Arguments Ok {A} a.
Arguments Throw {A} e.

Definition bind {A B : Type} (r : result A) (k : A -> result B) : result B :=
  match r with
  | Ok a => k a
  | Throw e => Throw e
  end.

Notation "'let*' x ':=' r 'in' k" := (bind r (fun x => k))
  (at level 10, x pattern, r at level 100, k at level 200).

(** The double quote character, as a one-character string. *)
Definition dquote : string := String (Ascii.ascii_of_nat 34) EmptyString.

Module Js.

(** ToBoolean. *)
Definition truthy (v : value) : bool :=
  match v with
  | VUndefined | VNull => false
  | VBool b => b
  | VNum n => negb (Z.eqb n 0)
  | VStr s => negb (String.eqb s EmptyString)
  | VFun _ _ | VObj _ => true
  end.

Inductive type_tag : Type :=
| TUndefined | TObject | TBoolean | TNumber | TString | TFunction.

(** The [typeof] operator ([typeof null] is ["object"]). *)
Definition typeof (v : value) : type_tag :=
  match v with
  | VUndefined => TUndefined
  | VNull => TObject
  | VBool _ => TBoolean
  | VNum _ => TNumber
  | VStr _ => TString
  | VFun _ _ => TFunction
  | VObj _ => TObject
  end.

Definition is_string (v : value) : bool :=
  match v with VStr _ => true | _ => false end.

Definition is_object_tag (v : value) : bool :=
  match v with VNull | VObj _ => true | _ => false end.

(** The double nearest to a positive integer (ties go to the even
    significand). *)
Definition nearest_double (n : Z) : Z :=
  let b := Z.log2 n in
  if (b <=? 52)%Z then n
  else
    let s := (b - 52)%Z in
    let q := Z.shiftr n s in
    let r := (n - Z.shiftl q s)%Z in
    let half := Z.shiftl 1 (s - 1) in
    let q' := if (half <? r)%Z || ((r =? half)%Z && Z.odd q) then (q + 1)%Z else q in
    Z.shiftl q' s.

Definition digits (n : Z) : nat := String.length (pretty n).

(** Among the decimals with [k] significant digits, the one closest to
    the double [x] that reads back as [x], if there is one. *)
Definition shortest_at (x : Z) (k : nat) : option Z :=
  let p := (10 ^ Z.of_nat (digits x - k))%Z in
  let lo := (x / p * p)%Z in
  let hi := (lo + p)%Z in
  match Z.eqb (nearest_double lo) x, Z.eqb (nearest_double hi) x with
  | true, true =>
      if (x - lo <? hi - x)%Z then Some lo
      else if (hi - x <? x - lo)%Z then Some hi
      else if Z.even (lo / p) then Some lo else Some hi
  | true, false => Some lo
  | false, true => Some hi
  | false, false => None
  end.

Fixpoint shortest_from (x : Z) (k fuel : nat) : Z :=
  match fuel with
  | O => x
  | S fuel' =>
      match shortest_at x k with
      | Some c => c
      | None => shortest_from x (S k) fuel'
      end
  end.

Fixpoint strip_zeros (rev_digits : list ascii) : list ascii :=
  match rev_digits with
  | c :: rest => if Ascii.eqb c "0"%char then strip_zeros rest else rev_digits
  | [] => []
  end.

Definition significant (c : Z) : string :=
  string_of_list_ascii (rev (strip_zeros (rev (list_ascii_of_string (pretty c))))).

(** Number::toString of a positive integer-valued number: the shortest
    digits that read back as the same double, written out in full below
    10^21 and with an exponent from there. *)
Definition print_positive (n : Z) : string :=
  if (n <? 2 ^ 53)%Z then pretty n
  else
    let x := nearest_double n in
    if (2 ^ 1024 <=? x)%Z then "Infinity"
    else
      let c := shortest_from x 1 (digits x) in
      if (digits c <=? 21)%nat then pretty c
      else
        match significant c with
        | String d rest =>
            String d (if String.eqb rest EmptyString then EmptyString
                      else "." +:+ rest)
              +:+ "e+" +:+ pretty (Z.of_nat (digits c - 1))
        | EmptyString => pretty c
        end.

Definition print_number (n : Z) : string :=
  if (n <? 0)%Z then "-" +:+ print_positive (- n) else print_positive n.

(** ToString, as used by template literals and property keys, of a value
    that does not override [toString] (see [printable]): a plain object
    prints as "[object Object]", a function as its source text. *)
Definition to_string (v : value) : string :=
  match v with
  | VUndefined => "undefined"
  | VNull => "null"
  | VBool true => "true"
  | VBool false => "false"
  | VNum n => print_number n
  | VStr s => s
  | VFun label _ => label
  | VObj _ => "[object Object]"
  end.

(** [key === v] for a string [key]. *)
Definition str_eq (key : string) (v : value) : bool :=
  match v with
  | VStr s => String.eqb key s
  | _ => false
  end.

Definition of_option (o : option string) : value :=
  match o with
  | Some s => VStr s
  | None => VUndefined
  end.

(** Truthiness of a value that is a string or undefined. *)
Definition truthy_opt (o : option string) : bool := truthy (of_option o).

Fixpoint lookup (k : string) (o : obj) : option value :=
  match o with
  | [] => None
  | (k', v) :: rest => if String.eqb k k' then Some v else lookup k rest
  end.

(** [o[k]] on an object's own properties. *)
Definition get (k : string) (o : obj) : value :=
  match lookup k o with
  | Some v => v
  | None => VUndefined
  end.

(** [o[k] = v]: an existing property keeps its place, a new one goes last. *)
Fixpoint set (k : string) (v : value) (o : obj) : obj :=
  match o with
  | [] => [(k, v)]
  | (k', v') :: rest =>
      if String.eqb k k' then (k', v) :: rest else (k', v') :: set k v rest
  end.

(** [{...base, ...extra}] once [base] has been copied. *)
Definition spread (base extra : obj) : obj :=
  fold_left (fun acc kv => set (fst kv) (snd kv) acc) extra base.

(** The rest of an object pattern: every own property not named. *)
Definition omit (names : list string) (o : obj) : obj :=
  List.filter (fun kv => negb (existsb (String.eqb (fst kv)) names)) o.

Definition keys (o : obj) : list string := List.map fst o.

Fixpoint chars (s : string) : list string :=
  match s with
  | EmptyString => []
  | String c rest => String c EmptyString :: chars rest
  end.

(** Own enumerable properties of ToObject(v): what [Object.entries],
    [Object.keys], spread and object-pattern rest enumerate.  [null] and
    [undefined] cannot be converted. *)
Definition own_entries (v : value) : result obj :=
  match v with
  | VUndefined => Throw (TypeError "Cannot convert undefined or null to object")
  | VNull => Throw (TypeError "Cannot convert undefined or null to object")
  | VBool _ | VNum _ => Ok []
  | VStr s => Ok (imap (fun i c => (pretty i, VStr c)) (chars s))
  | VFun _ props => Ok props
  | VObj props => Ok props
  end.


(** *** Built-in members (ECMAScript 2023, with its Annex B) *)

(** What every object inherits from [Object.prototype]: methods, and the
    accessor [__proto__], which yields the prototype. *)
Definition objectPrototype : list string :=
  ["constructor"; "__defineGetter__"; "__defineSetter__"; "hasOwnProperty";
   "__lookupGetter__"; "__lookupSetter__"; "isPrototypeOf";
   "propertyIsEnumerable"; "toString"; "valueOf"; "__proto__";
   "toLocaleString"].

(** The methods of [Function.prototype]. *)
Definition functionPrototype : list string :=
  ["apply"; "bind"; "call"; "constructor"; "toString"].

(** The methods of [String.prototype]. *)
Definition stringPrototype : list string :=
  ["constructor"; "anchor"; "at"; "big"; "blink"; "bold"; "charAt";
   "charCodeAt"; "codePointAt"; "concat"; "endsWith"; "fontcolor";
   "fontsize"; "fixed"; "includes"; "indexOf"; "italics"; "lastIndexOf";
   "link"; "localeCompare"; "match"; "matchAll"; "normalize"; "padEnd";
   "padStart"; "repeat"; "replace"; "replaceAll"; "search"; "slice";
   "small"; "split"; "strike"; "sub"; "substr"; "substring"; "sup";
   "startsWith"; "toString"; "trim"; "trimStart"; "trimLeft"; "trimEnd";
   "trimRight"; "toLocaleLowerCase"; "toLocaleUpperCase"; "toLowerCase";
   "toUpperCase"; "valueOf"].

(** The methods of [Number.prototype] and of [Boolean.prototype]. *)
Definition numberPrototype : list string :=
  ["constructor"; "toExponential"; "toFixed"; "toPrecision"; "toString";
   "valueOf"; "toLocaleString"].

Definition booleanPrototype : list string :=
  ["constructor"; "toString"; "valueOf"].

Definition named (names : list string) (k : string) : bool :=
  existsb (String.eqb k) names.

(** [k] is the index of a character of [s]. *)
Definition is_index (s k : string) : bool :=
  named (List.map (fun i : nat => pretty i) (seq 0 (String.length s))) k.

(** ToBoolean([v[k]]) for any key: the own property when there is one,
    and otherwise what the prototype chain of [v] supplies.  A string has
    its [length] and its characters; a function of the kind [VFun] has
    length 0 and the empty name, and reading its [arguments] or [caller]
    throws. *)
Definition has_truthy (v : value) (k : string) : result bool :=
  match v with
  | VUndefined => Throw (TypeError "Cannot read properties of undefined")
  | VNull => Throw (TypeError "Cannot read properties of null")
  | VBool _ => Ok (named booleanPrototype k || named objectPrototype k)
  | VNum _ => Ok (named numberPrototype k || named objectPrototype k)
  | VStr s =>
      Ok (if String.eqb k "length" then negb (String.eqb s EmptyString)
          else is_index s k || named stringPrototype k || named objectPrototype k)
  | VFun _ props =>
      match lookup k props with
      | Some x => Ok (truthy x)
      | None =>
          if named ["arguments"; "caller"] k
          then Throw (TypeError "'caller', 'callee', and 'arguments' properties may not be accessed")
          else Ok (named functionPrototype k || named objectPrototype k)
      end
  | VObj props =>
      match lookup k props with
      | Some x => Ok (truthy x)
      | None => Ok (named objectPrototype k)
      end
  end.

(** [v[k]] for a key that no built-in prototype defines, as are the keys
    that this module reads by name ([colorSchemes], [light], [dark]):
    the own property, or [undefined]; a string has its [length] and its
    characters; reading a property of null or undefined throws. *)
Definition get_prop (v : value) (k : string) : result value :=
  match v with
  | VUndefined => Throw (TypeError "Cannot read properties of undefined")
  | VNull => Throw (TypeError "Cannot read properties of null")
  | VBool _ | VNum _ => Ok VUndefined
  | VStr s =>
      Ok (if String.eqb k "length" then VNum (Z.of_nat (String.length s))
          else get k (imap (fun i c => (pretty i, VStr c)) (chars s)))
  | VFun _ props => Ok (get k props)
  | VObj props => Ok (get k props)
  end.

(** [v?.[k]], for the same keys. *)
Definition get_prop_opt (v : value) (k : string) : value :=
  match v with
  | VFun _ props | VObj props => get k props
  | _ => VUndefined
  end.

(** [v[k] = x] in strict mode (module code): on an object the property is
    written, on a primitive the assignment throws. *)
Definition set_prop (v : value) (k : string) (x : value) : result value :=
  match v with
  | VObj props => Ok (VObj (set k x props))
  | VFun label props => Ok (VFun label (set k x props))
  | VUndefined | VNull => Throw (TypeError "Cannot set properties of undefined or null")
  | VBool _ | VNum _ | VStr _ => Throw (TypeError "Cannot create property on primitive")
  end.

(** A parameter default: it applies to [undefined] only. *)
Definition or_default (v d : value) : value :=
  match v with
  | VUndefined => d
  | _ => v
  end.

End Js.

(** ** Records of the module *)

(** [shouldSkipGeneratingVar(keys, value)] *)
Definition SkipPredicate : Type := list string -> value -> bool.

(** The options object handed to [cssVarsParser]. *)
Record ParserOptions : Type := {
  po_prefix : string;
  po_basePrefix : string;
  po_shouldSkipGeneratingVar : option SkipPredicate
}.

(** What [cssVarsParser] returns. *)
Record Parsed : Type := {
  css : value;
  vars : value;
  parsedTheme : obj
}.

(** The argument of [createCssVarsProvider].  A field that is absent from
    the options object is [None] (or [VUndefined] for the untyped ones). *)
Module Options.
Record t : Type := {
  theme : value;
  defaultMode : option string;
  defaultColorScheme : value;
  disableTransitionOnChange : option bool;
  enableColorScheme : option bool;
  prefix : option string;
  shouldSkipGeneratingVar : option SkipPredicate;
  resolveTheme : option (obj -> value)
}.
End Options.

(** The props of [CssVarsProvider] ([children] plays no part here). *)
Module Props.
Record t : Type := {
  theme : value;
  prefix : option string;
  modeStorageKey : option string;
  attribute : option string;
  defaultMode : option string;
  defaultColorScheme : value;
  disableTransitionOnChange : option bool;
  enableColorScheme : option bool
}.
End Props.

(** The argument and the result of [useCurrentColorScheme]. *)
Module Hook.
Record options : Type := {
  supportedColorSchemes : list string;
  defaultLightColorScheme : value;
  defaultDarkColorScheme : value;
  modeStorageKey : string;
  defaultMode : string
}.
Record state : Type := {
  mode : option string;
  setMode : value;
  systemMode : option string;
  lightColorScheme : option string;
  darkColorScheme : option string;
  colorScheme : option string;
  setColorScheme : value
}.
End Hook.

(** The value given to [ColorSchemeContext.Provider]. *)
Module Context.
Record t : Type := {
  mode : option string;
  setMode : value;
  lightColorScheme : option string;
  darkColorScheme : option string;
  colorScheme : option string;
  setColorScheme : value;
  allColorSchemes : list string
}.
End Context.

(** The bindings that the body of [createCssVarsProvider] closes over. *)
Record DesignSystem : Type := {
  defaultTheme : value;
  desisgnSystemMode : string;
  designSystemColorScheme : value;
  designSystemTransitionOnChange : bool;
  designSystemEnableColorScheme : bool;
  designSystemPrefix : string;
  shouldSkipGeneratingVar : option SkipPredicate;
  resolveTheme : option (obj -> value)
}.

(** What the effects of one render close over. *)
Record EffectEnv : Type := {
  env_colorScheme : option string;
  env_attribute : string;
  env_mode : option string;
  env_systemMode : option string;
  env_enableColorScheme : bool;
  env_disableTransitionOnChange : bool
}.

(** The constants computed at the top of [CssVarsProvider], before the
    theme is rebuilt. *)
Record Locals : Type := {
  prefix : string;
  modeStorageKey : string;
  attribute : string;
  defaultMode : string;
  defaultColorScheme : value;
  disableTransitionOnChange : bool;
  enableColorScheme : bool;
  colorSchemes : value;
  components : value;
  restThemeProp : obj;
  schemeEntries : obj;
  allColorSchemes : list string;
  defaultLightColorScheme : value;
  defaultDarkColorScheme : value;
  state : Hook.state;
  resolvedColorScheme : value
}.

(** The element tree returned by one render: the context value, the two
    [GlobalStyles] sheets and the theme handed to [ThemeProvider]; [theme]
    is the local variable before [resolveTheme] is applied. *)
Record Rendered : Type := {
  contextValue : Context.t;
  rootStyles : obj;
  styleSheet : obj;
  theme : obj;
  providedTheme : value;
  effects : EffectEnv
}.

(** [{ CssVarsProvider, useColorScheme, getInitColorSchemeScript }] *)
Record Provider : Type := {
  CssVarsProvider : Props.t -> result Rendered;
  useColorScheme : list Context.t -> result Context.t;
  getInitColorSchemeScript : value
}.

Definition DISABLE_CSS_TRANSITION : string :=
  "*{-webkit-transition:none!important;-moz-transition:none!important;-o-transition:none!important;-ms-transition:none!important;transition:none!important}".

(** [React.useContext]: the value of the nearest enclosing provider
    (innermost first), or the default given to [createContext]. *)
Definition useContext {A : Type} (defaultValue : option A) (providers : list A)
  : option A :=
  match providers with
  | v :: _ => Some v
  | [] => defaultValue
  end.

(** ** The module body *)

Section CreateCssVarsProvider.

(** Imports whose code is not part of this development. *)
Variable cssVarsParser : value -> ParserOptions -> Parsed.
Variable deepmerge : value -> value -> value.
Variable useCurrentColorScheme : Hook.options -> Hook.state.
Variable createGetCssVar : string -> value.
Variable DEFAULT_ATTRIBUTE : string.
Variable DEFAULT_MODE_STORAGE_KEY : string.
Variable initColorSchemeScript : value.

(** Lines 19-28: the options pattern with its defaults. *)
Definition destructureOptions (options : Options.t) : DesignSystem :=
  {| defaultTheme := Js.or_default (Options.theme options) (VObj []);
     desisgnSystemMode := default "light" (Options.defaultMode options);
     designSystemColorScheme := Options.defaultColorScheme options;
     designSystemTransitionOnChange :=
       default false (Options.disableTransitionOnChange options);
     designSystemEnableColorScheme :=
       default true (Options.enableColorScheme options);
     designSystemPrefix := default EmptyString (Options.prefix options);
     shouldSkipGeneratingVar := Options.shouldSkipGeneratingVar options;
     resolveTheme := Options.resolveTheme options |}.

(** [a || b] on conditions that may throw: [b] is not evaluated when [a]
    holds. *)
Definition or_else (a b : result bool) : result bool :=
  let* x := a in if x then Ok true else b.

(** [!registry[key]]: the key is converted to a string, and the read
    goes through the prototype chain of the registry. *)
Definition absent (registry key : value) : result bool :=
  let* entry := Js.has_truthy registry (Js.to_string key) in
  Ok (negb entry).

(** Lines 30-38: the condition of the diagnostic. *)
Definition defaultColorSchemeMissing (ds : DesignSystem) : result bool :=
  let* registry := Js.get_prop (defaultTheme ds) "colorSchemes" in
  let scheme := designSystemColorScheme ds in
  or_else (Ok (negb (Js.truthy registry)))
    (or_else
       (if Js.is_string scheme then absent registry scheme else Ok false)
       (or_else
          (if Js.is_object_tag scheme
           then absent registry (Js.get_prop_opt scheme "light")
           else Ok false)
          (if Js.is_object_tag scheme
           then absent registry (Js.get_prop_opt scheme "dark")
           else Ok false))).

(** Line 39: the text given to [console.error]. *)
Definition missingMessage (ds : DesignSystem) : string :=
  "MUI: `" +:+ Js.to_string (designSystemColorScheme ds)
    +:+ "` does not exist in `theme.colorSchemes`.".

(** Lines 43-49.  [providers] lists the values of the enclosing
    [ColorSchemeContext.Provider] elements; the context was created with
    the default [undefined].  A provider's value is an object, hence
    truthy. *)
Definition useColorSchemeHook (providers : list Context.t) : result Context.t :=
  match useContext None providers with
  | None =>
      Throw (MuiError "MUI: `useColorScheme` must be called under <CssVarsProvider />")
  | Some value => Ok value
  end.

(** Lines 66-69. *)
Definition lightOf (defaultColorScheme : value) : result value :=
  if Js.is_string defaultColorScheme then Ok defaultColorScheme
  else Js.get_prop defaultColorScheme "light".

Definition darkOf (defaultColorScheme : value) : result value :=
  if Js.is_string defaultColorScheme then Ok defaultColorScheme
  else Js.get_prop defaultColorScheme "dark".

(** Lines 85-95. *)
Definition resolveColorScheme (colorScheme : option string) (defaultMode : string)
    (defaultLightColorScheme defaultDarkColorScheme : value) : value :=
  if negb (Js.truthy_opt colorScheme) then
    if String.eqb defaultMode "dark" then defaultDarkColorScheme
    else defaultLightColorScheme
  else Js.of_option colorScheme.

(** Lines 141-149. *)
Definition resolvedDefaultColorScheme (defaultColorScheme : value)
    (defaultMode : string) : result value :=
  if Js.is_string defaultColorScheme then Ok defaultColorScheme
  else if String.eqb defaultMode "dark" then Js.get_prop defaultColorScheme "dark"
  else Js.get_prop defaultColorScheme "light".

(** Lines 51-95: props with their defaults, the theme pattern, the hook
    call and the resolved scheme. *)
Definition renderLocals (ds : DesignSystem) (props : Props.t) : result Locals :=
  let themeProp := Js.or_default (Props.theme props) (defaultTheme ds) in
  let prefix := default (designSystemPrefix ds) (Props.prefix props) in
  let modeStorageKey := default DEFAULT_MODE_STORAGE_KEY (Props.modeStorageKey props) in
  let attribute := default DEFAULT_ATTRIBUTE (Props.attribute props) in
  let defaultMode := default (desisgnSystemMode ds) (Props.defaultMode props) in
  let defaultColorScheme :=
    Js.or_default (Props.defaultColorScheme props) (designSystemColorScheme ds) in
  let disableTransitionOnChange :=
    default (designSystemTransitionOnChange ds) (Props.disableTransitionOnChange props) in
  let enableColorScheme :=
    default (designSystemEnableColorScheme ds) (Props.enableColorScheme props) in
  let* themeEntries := Js.own_entries themeProp in
  let colorSchemes := Js.or_default (Js.get "colorSchemes" themeEntries) (VObj []) in
  let components := Js.or_default (Js.get "components" themeEntries) (VObj []) in
  let restThemeProp := Js.omit ["colorSchemes"; "components"] themeEntries in
  let* schemeEntries := Js.own_entries colorSchemes in
  let allColorSchemes := Js.keys schemeEntries in
  let* defaultLightColorScheme := lightOf defaultColorScheme in
  let* defaultDarkColorScheme := darkOf defaultColorScheme in
  let state :=
    useCurrentColorScheme
      {| Hook.supportedColorSchemes := allColorSchemes;
         Hook.defaultLightColorScheme := defaultLightColorScheme;
         Hook.defaultDarkColorScheme := defaultDarkColorScheme;
         Hook.modeStorageKey := modeStorageKey;
         Hook.defaultMode := defaultMode |} in
  Ok {| prefix := prefix;
        modeStorageKey := modeStorageKey;
        attribute := attribute;
        defaultMode := defaultMode;
        defaultColorScheme := defaultColorScheme;
        disableTransitionOnChange := disableTransitionOnChange;
        enableColorScheme := enableColorScheme;
        colorSchemes := colorSchemes;
        components := components;
        restThemeProp := restThemeProp;
        schemeEntries := schemeEntries;
        allColorSchemes := allColorSchemes;
        defaultLightColorScheme := defaultLightColorScheme;
        defaultDarkColorScheme := defaultDarkColorScheme;
        state := state;
        resolvedColorScheme :=
          resolveColorScheme (Hook.colorScheme state) defaultMode
            defaultLightColorScheme defaultDarkColorScheme |}.

Definition parserOptions (ds : DesignSystem) (l : Locals) : ParserOptions :=
  {| po_prefix := prefix l;
     po_basePrefix := designSystemPrefix ds;
     po_shouldSkipGeneratingVar := shouldSkipGeneratingVar ds |}.

(** Lines 97-106: the parse of the theme without its two sub-objects. *)
Definition rootParse (ds : DesignSystem) (l : Locals) : Parsed :=
  cssVarsParser (VObj (restThemeProp l)) (parserOptions ds l).

(** Lines 108-115. *)
Definition initialTheme (ds : DesignSystem) (l : Locals) : obj :=
  Js.set "getCssVar" (createGetCssVar (prefix l))
    (Js.set "vars" (vars (rootParse ds l))
       (Js.set "prefix" (VStr (prefix l))
          (Js.set "colorSchemes" (colorSchemes l)
             (Js.set "components" (components l)
                (Js.spread [] (parsedTheme (rootParse ds l))))))).

(** The attribute selector of line 153. *)
Definition attributeSelector (attribute key : string) : string :=
  "[" +:+ attribute +:+ "=" +:+ dquote +:+ key +:+ dquote +:+ "]".

(** Lines 135-139: the two writes through [theme.palette], as the theme
    reads after them.  Which object is written, and who else holds it,
    is the subject of [Heap.assignRuntimeFields]. *)
Definition assignRuntimeFields (l : Locals) (theme : obj) : result obj :=
  if Js.truthy (Js.get "palette" theme) then
    let* withMode :=
      Js.set_prop (Js.get "palette" theme) "mode" (Js.of_option (Hook.mode (state l))) in
    let* withScheme := Js.set_prop withMode "colorScheme" (resolvedColorScheme l) in
    Ok (Js.set "palette" withScheme theme)
  else Ok theme.

(** Lines 119-155: the body of the [forEach] callback, on the two
    variables it updates. *)
Definition schemeStep (ds : DesignSystem) (l : Locals)
    (acc : obj * obj) (entry : string * value) : result (obj * obj) :=
  let '(theme, styleSheet) := acc in
  let '(key, scheme) := entry in
  let parsed := cssVarsParser scheme (parserOptions ds l) in
  let theme := Js.set "vars" (deepmerge (Js.get "vars" theme) (vars parsed)) theme in
  let* theme :=
    if Js.str_eq key (resolvedColorScheme l) then
      assignRuntimeFields l (Js.spread (Js.spread [] theme) (parsedTheme parsed))
    else Ok theme in
  let* resolvedDefault := resolvedDefaultColorScheme (defaultColorScheme l) (defaultMode l) in
  if Js.str_eq key resolvedDefault then
    Ok (theme, Js.set ":root" (css parsed) styleSheet)
  else
    Ok (theme, Js.set (attributeSelector (attribute l) key) (css parsed) styleSheet).

(** The theme part of the callback (lines 129-140) and the key under
    which it files the CSS block (lines 150-154), on their own. *)
Definition themeStep (ds : DesignSystem) (l : Locals)
    (theme : obj) (entry : string * value) : result obj :=
  let parsed := cssVarsParser (snd entry) (parserOptions ds l) in
  let theme := Js.set "vars" (deepmerge (Js.get "vars" theme) (vars parsed)) theme in
  if Js.str_eq (fst entry) (resolvedColorScheme l) then
    assignRuntimeFields l (Js.spread (Js.spread [] theme) (parsedTheme parsed))
  else Ok theme.

Definition selectorOf (resolvedDefault : value) (attribute key : string) : string :=
  if Js.str_eq key resolvedDefault then ":root"
  else attributeSelector attribute key.

Fixpoint forEach (ds : DesignSystem) (l : Locals)
    (entries : obj) (acc : obj * obj) : result (obj * obj) :=
  match entries with
  | [] => Ok acc
  | entry :: rest =>
      let* acc' := schemeStep ds l acc entry in
      forEach ds l rest acc'
  end.

(** Lines 51-225: one render of [CssVarsProvider]. *)
Definition renderCssVarsProvider (ds : DesignSystem) (props : Props.t)
  : result Rendered :=
  let* l := renderLocals ds props in
  let* final := forEach ds l (schemeEntries l) (initialTheme ds l, []) in
  let '(theme, styleSheet) := final in
  Ok {| contextValue :=
          {| Context.mode := Hook.mode (state l);
             Context.setMode := Hook.setMode (state l);
             Context.lightColorScheme := Hook.lightColorScheme (state l);
             Context.darkColorScheme := Hook.darkColorScheme (state l);
             Context.colorScheme := Hook.colorScheme (state l);
             Context.setColorScheme := Hook.setColorScheme (state l);
             Context.allColorSchemes := allColorSchemes l |};
        rootStyles := [(":root"%string, css (rootParse ds l))];
        styleSheet := styleSheet;
        theme := theme;
        providedTheme :=
          match resolveTheme ds with
          | Some resolve => resolve theme
          | None => VObj theme
          end;
        effects :=
          {| env_colorScheme := Hook.colorScheme (state l);
             env_attribute := attribute l;
             env_mode := Hook.mode (state l);
             env_systemMode := Hook.systemMode (state l);
             env_enableColorScheme := enableColorScheme l;
             env_disableTransitionOnChange := disableTransitionOnChange l |} |}.

(** Lines 18-41 and 266: validation, then the three exports.  The first
    component is what was passed to [console.error]. *)
Definition createCssVarsProvider (options : Options.t)
  : list string * result Provider :=
  let ds := destructureOptions options in
  match defaultColorSchemeMissing ds with
  | Throw e => ([], Throw e)
  | Ok missing =>
      ((if missing then [missingMessage ds] else []),
       Ok {| CssVarsProvider := renderCssVarsProvider ds;
             useColorScheme := useColorSchemeHook;
             getInitColorSchemeScript := initColorSchemeScript |})
  end.

(** The same props with another [theme]. *)
Definition withTheme (theme : value) (props : Props.t) : Props.t :=
  {| Props.theme := theme;
     Props.prefix := Props.prefix props;
     Props.modeStorageKey := Props.modeStorageKey props;
     Props.attribute := Props.attribute props;
     Props.defaultMode := Props.defaultMode props;
     Props.defaultColorScheme := Props.defaultColorScheme props;
     Props.disableTransitionOnChange := Props.disableTransitionOnChange props;
     Props.enableColorScheme := Props.enableColorScheme props |}.

(** No CSS variable comes from the property [name] of the theme: giving
    that property any other value changes neither of the two style
    sheets nor the variable map of the theme. *)
Definition variablesIgnore (name : string) : Prop :=
  forall (ds : DesignSystem) (props : Props.t) (t : obj) (c : value) (r : Rendered),
    Props.theme props = VObj t ->
    renderCssVarsProvider ds props = Ok r ->
    exists r',
      renderCssVarsProvider ds (withTheme (VObj (Js.set name c t)) props) = Ok r'
      /\ rootStyles r' = rootStyles r
      /\ styleSheet r' = styleSheet r
      /\ Js.get "vars" (theme r') = Js.get "vars" (theme r).

End CreateCssVarsProvider.

(** ** The browser *)

Inductive DomCall : Type :=
| SetAttribute (name val : string)
| GetPropertyValue (name : string)
| SetProperty (name val : string)
| CreateStyle (node : nat) (text : string)
| AppendToHead (node : nat)
| RemoveFromHead (node : nat)
| GetComputedStyle
| SetTimeout (timer : nat) (delay : nat)
| ClearTimeout (timer : option nat).

(** [document.documentElement] (attributes and inline style),
    [document.head] (its children, as node identifiers), the nodes created
    so far with their text, the pending timers (each removes one node from
    the head when it fires) and the log of calls, oldest first. *)
Record Browser : Type := {
  rootAttributes : gmap string string;
  rootStyle : gmap string string;
  head : list nat;
  nodeText : gmap nat string;
  timers : gmap nat (nat * nat);
  nextId : nat;
  calls : list DomCall
}.

Module Dom.

Definition empty : Browser :=
  {| rootAttributes := ∅; rootStyle := ∅; head := []; nodeText := ∅;
     timers := ∅; nextId := 0; calls := [] |}.

(** [document.documentElement.setAttribute(name, v)] *)
Definition setAttribute (name v : string) (b : Browser) : Browser :=
  {| rootAttributes := <[name := v]> (rootAttributes b);
     rootStyle := rootStyle b; head := head b; nodeText := nodeText b;
     timers := timers b; nextId := nextId b;
     calls := calls b ++ [SetAttribute name v] |}.

(** [style.getPropertyValue(name)]: the empty string when unset. *)
Definition propertyValue (name : string) (b : Browser) : string :=
  default EmptyString (rootStyle b !! name).

Definition getPropertyValue (name : string) (b : Browser) : string * Browser :=
  (propertyValue name b,
   {| rootAttributes := rootAttributes b; rootStyle := rootStyle b;
      head := head b; nodeText := nodeText b; timers := timers b;
      nextId := nextId b; calls := calls b ++ [GetPropertyValue name] |}).

(** [style.setProperty(name, v)]: the empty string removes the property. *)
Definition setProperty (name v : string) (b : Browser) : Browser :=
  {| rootAttributes := rootAttributes b;
     rootStyle :=
       if String.eqb v EmptyString then delete name (rootStyle b)
       else <[name := v]> (rootStyle b);
     head := head b; nodeText := nodeText b; timers := timers b;
     nextId := nextId b; calls := calls b ++ [SetProperty name v] |}.

(** [createElement('style')] followed by
    [appendChild(createTextNode(text))]. *)
Definition createStyle (text : string) (b : Browser) : nat * Browser :=
  (nextId b,
   {| rootAttributes := rootAttributes b; rootStyle := rootStyle b;
      head := head b; nodeText := <[nextId b := text]> (nodeText b);
      timers := timers b; nextId := S (nextId b);
      calls := calls b ++ [CreateStyle (nextId b) text] |}).

(** [document.head.appendChild(node)] *)
Definition appendToHead (node : nat) (b : Browser) : Browser :=
  {| rootAttributes := rootAttributes b; rootStyle := rootStyle b;
     head := head b ++ [node]; nodeText := nodeText b; timers := timers b;
     nextId := nextId b; calls := calls b ++ [AppendToHead node] |}.

(** [document.head.removeChild(node)] *)
Definition removeFromHead (node : nat) (b : Browser) : Browser :=
  {| rootAttributes := rootAttributes b; rootStyle := rootStyle b;
     head := List.filter (fun n => negb (Nat.eqb n node)) (head b);
     nodeText := nodeText b; timers := timers b; nextId := nextId b;
     calls := calls b ++ [RemoveFromHead node] |}.

(** [window.getComputedStyle(document.body)] *)
Definition getComputedStyle (b : Browser) : Browser :=
  {| rootAttributes := rootAttributes b; rootStyle := rootStyle b;
     head := head b; nodeText := nodeText b; timers := timers b;
     nextId := nextId b; calls := calls b ++ [GetComputedStyle] |}.

(** [setTimeout(() => document.head.removeChild(node), delay)] *)
Definition setTimeout (node delay : nat) (b : Browser) : nat * Browser :=
  (nextId b,
   {| rootAttributes := rootAttributes b; rootStyle := rootStyle b;
      head := head b; nodeText := nodeText b;
      timers := <[nextId b := (delay, node)]> (timers b);
      nextId := S (nextId b);
      calls := calls b ++ [SetTimeout (nextId b) delay] |}).

(** [clearTimeout(timer)]; [clearTimeout(undefined)] does nothing. *)
Definition clearTimeout (timer : option nat) (b : Browser) : Browser :=
  {| rootAttributes := rootAttributes b; rootStyle := rootStyle b;
     head := head b; nodeText := nodeText b;
     timers := match timer with
               | Some t => delete t (timers b)
               | None => timers b
               end;
     nextId := nextId b; calls := calls b ++ [ClearTimeout timer] |}.

(** A pending timer expires: its callback runs once. *)
Definition fire (timer : nat) (b : Browser) : Browser :=
  match timers b !! timer with
  | Some (_, node) =>
      removeFromHead node
        {| rootAttributes := rootAttributes b; rootStyle := rootStyle b;
           head := head b; nodeText := nodeText b;
           timers := delete timer (timers b);
           nextId := nextId b; calls := calls b |}
  | None => b
  end.

(** Every pending timer expires, oldest first. *)
Definition drain (b : Browser) : Browser :=
  fold_left (fun acc t => fire t acc) (seq 0 (nextId b)) b.

(** DOMString conversion of an argument that is a string or undefined. *)
Definition domString (o : option string) : string := Js.to_string (Js.of_option o).

End Dom.

(** ** The effects of [CssVarsProvider] *)

Module Effects.

(** Lines 157-162; no cleanup. *)
Definition attributeEffect (env : EffectEnv) (b : Browser) : Browser :=
  if Js.truthy_opt (env_colorScheme env) then
    Dom.setAttribute (env_attribute env) (Dom.domString (env_colorScheme env)) b
  else b.

(** Lines 164-175.  The second component is the [priorColorScheme] that
    the returned cleanup holds; [None] when the effect returns
    [undefined]. *)
Definition colorSchemeEffect (env : EffectEnv) (b : Browser)
  : Browser * option string :=
  if negb (Js.truthy_opt (env_mode env)) || negb (env_enableColorScheme env) then
    (b, None)
  else
    let '(priorColorScheme, b1) := Dom.getPropertyValue "color-scheme" b in
    let b2 :=
      if bool_decide (env_mode env = Some "system"%string) then
        Dom.setProperty "color-scheme" (Dom.domString (env_systemMode env)) b1
      else
        Dom.setProperty "color-scheme" (Dom.domString (env_mode env)) b1 in
    (b2, Some priorColorScheme).

(** Lines 176-178. *)
Definition colorSchemeCleanup (priorColorScheme : option string) (b : Browser)
  : Browser :=
  match priorColorScheme with
  | Some prior => Dom.setProperty "color-scheme" prior b
  | None => b
  end.

(** Lines 181-195.  The second component is the variable [timer] that
    the cleanup holds. *)
Definition transitionEffect (env : EffectEnv) (hasMounted : bool) (b : Browser)
  : Browser * option nat :=
  if env_disableTransitionOnChange env && hasMounted then
    let '(node, b1) := Dom.createStyle DISABLE_CSS_TRANSITION b in
    let b2 := Dom.appendToHead node b1 in
    let b3 := Dom.getComputedStyle b2 in
    let '(timer, b4) := Dom.setTimeout node 1 b3 in
    (b4, Some timer)
  else (b, None).

(** Lines 196-198. *)
Definition transitionCleanup (timer : option nat) (b : Browser) : Browser :=
  Dom.clearTimeout timer b.

End Effects.

(** ** React, as far as this component goes *)

(** What React keeps for one mounted [CssVarsProvider]: the ref
    [hasMounted], the values of the last commit (to compare dependency
    arrays) and what the pending cleanups hold. *)
Record Instance : Type := {
  hasMounted : bool;
  committed : EffectEnv;
  priorColorScheme : option string;
  timer : option nat
}.

Module React.

(** [[colorScheme, attribute]] *)
Definition attributeDepsChanged (old new : EffectEnv) : bool :=
  negb (bool_decide (env_colorScheme old = env_colorScheme new)
        && bool_decide (env_attribute old = env_attribute new)).

(** [[mode, systemMode, enableColorScheme]] *)
Definition colorSchemeDepsChanged (old new : EffectEnv) : bool :=
  negb (bool_decide (env_mode old = env_mode new)
        && bool_decide (env_systemMode old = env_systemMode new)
        && bool_decide (env_enableColorScheme old = env_enableColorScheme new)).

(** [[colorScheme, disableTransitionOnChange]] *)
Definition transitionDepsChanged (old new : EffectEnv) : bool :=
  negb (bool_decide (env_colorScheme old = env_colorScheme new)
        && bool_decide (env_disableTransitionOnChange old
                        = env_disableTransitionOnChange new)).

(** First commit: the layout effect, then the passive effects in the
    order they are declared.  The fourth effect sets the ref last. *)
Definition mount (env : EffectEnv) (b : Browser) : Instance * Browser :=
  let '(b1, prior) := Effects.colorSchemeEffect env b in
  let b2 := Effects.attributeEffect env b1 in
  let '(b3, timer) := Effects.transitionEffect env false b2 in
  ({| hasMounted := true; committed := env;
      priorColorScheme := prior; timer := timer |}, b3).

(** A later commit: for each effect whose dependencies changed, the
    cleanup of the previous run and then the body; layout effect first,
    then the cleanups of the passive effects, then their bodies.  The
    effect with the empty dependency array does not run again. *)
Definition update (inst : Instance) (env : EffectEnv) (b : Browser)
  : Instance * Browser :=
  let old := committed inst in
  let '(b2, prior) :=
    if colorSchemeDepsChanged old env then
      Effects.colorSchemeEffect env
        (Effects.colorSchemeCleanup (priorColorScheme inst) b)
    else (b, priorColorScheme inst) in
  let b3 :=
    if transitionDepsChanged old env
    then Effects.transitionCleanup (timer inst) b2 else b2 in
  let b4 :=
    if attributeDepsChanged old env
    then Effects.attributeEffect env b3 else b3 in
  let '(b5, timer') :=
    if transitionDepsChanged old env
    then Effects.transitionEffect env (hasMounted inst) b4
    else (b4, timer inst) in
  ({| hasMounted := hasMounted inst; committed := env;
      priorColorScheme := prior; timer := timer' |}, b5).

(** Unmount: the cleanup of the layout effect, then those of the passive
    effects; the last one resets the ref. *)
Definition unmount (inst : Instance) (b : Browser) : Instance * Browser :=
  ({| hasMounted := false; committed := committed inst;
      priorColorScheme := None; timer := None |},
   Effects.transitionCleanup (timer inst)
     (Effects.colorSchemeCleanup (priorColorScheme inst) b)).

(** Strict mode (development): right after the first commit React runs
    every cleanup and then every effect again on the same instance, whose
    refs survive. *)
Definition remount (inst : Instance) (b : Browser) : Instance * Browser :=
  let '(torn, b0) := unmount inst b in
  let env := committed inst in
  let '(b1, prior) := Effects.colorSchemeEffect env b0 in
  let b2 := Effects.attributeEffect env b1 in
  let '(b3, timer) := Effects.transitionEffect env (hasMounted torn) b2 in
  ({| hasMounted := true; committed := env;
      priorColorScheme := prior; timer := timer |}, b3).

Inductive event : Type :=
| Mount (env : EffectEnv)
| StrictRemount
| Update (env : EffectEnv)
| Unmount
| Fire (timer : nat).

Definition step (s : option Instance * Browser) (e : event)
  : option Instance * Browser :=
  match e, fst s with
  | Mount env, None =>
      let '(inst, b) := mount env (snd s) in (Some inst, b)
  | StrictRemount, Some inst =>
      let '(inst', b) := remount inst (snd s) in (Some inst', b)
  | Update env, Some inst =>
      let '(inst', b) := update inst env (snd s) in (Some inst', b)
  | Unmount, Some inst => (None, snd (unmount inst (snd s)))
  | Fire t, _ => (fst s, Dom.fire t (snd s))
  | _, _ => s
  end.

Definition run (events : list event) (b : Browser) : option Instance * Browser :=
  fold_left step events (None, b).

End React.

(** ** Instances of the imported functions, for concrete runs *)

Module Model.

(** The variable name of a leaf: the prefix, if any, and the path segments
    joined by a dash (spec, section 4.1: a fixed delimiter). *)
Definition varName (prefix : string) (path : list string) : string :=
  "--" +:+ String.concat "-"
    ((if String.eqb prefix EmptyString then [] else [prefix]) ++ path).

Definition varRef (opts : ParserOptions) (name : string) (v : value) : value :=
  if String.eqb (po_prefix opts) (po_basePrefix opts)
  then VStr ("var(" +:+ name +:+ ")")
  else VStr ("var(" +:+ name +:+ ", " +:+ Js.to_string v +:+ ")").

Definition skips (opts : ParserOptions) (path : list string) (v : value) : bool :=
  match po_shouldSkipGeneratingVar opts with
  | Some skip => skip path v
  | None => false
  end.

Definition leaf (opts : ParserOptions) (path : list string) (v : value)
  : obj * value :=
  if skips opts path v then ([], v)
  else
    let name := varName (po_prefix opts) path in
    ([(name, v)], varRef opts name v).

Fixpoint walk (opts : ParserOptions) (path : list string) (v : value)
  : obj * value :=
  match v with
  | VObj props =>
      let fix go (ps : list (string * value)) : obj * obj :=
        match ps with
        | [] => ([], [])
        | (k, x) :: rest =>
            let '(vs, x') := walk opts (path ++ [k]) x in
            let '(vs', rest') := go rest in
            (vs ++ vs', (k, x') :: rest')
        end in
      let '(vs, props') := go props in
      (vs, VObj props')
  | VStr _ | VNum _ => leaf opts path v
  | _ => ([], v)
  end.

Definition declarations (vs : obj) : string :=
  String.concat EmptyString
    (List.map (fun kv => fst kv +:+ ":" +:+ Js.to_string (snd kv) +:+ ";") vs).

(** Modelled from the spec: [cssVarsParser] (./cssVarsParser) is not among
    the sources.  Section 4.1: each leaf scalar at a path gets a variable
    named by joining the prefix and the path segments with a fixed
    delimiter; the skip predicate leaves a leaf in place; [vars] is the
    flat name-to-value map, [css] the same data as declarations, and
    [parsedTheme] mirrors the input with generated leaves replaced by
    [var(--name)], or [var(--name, value)] when the base prefix differs
    from the prefix.  [varName], [varRef], [skips], [leaf], [walk] and
    [declarations] above are its parts. *)
Definition cssVarsParser (theme : value) (opts : ParserOptions) : Parsed :=
  let '(vs, parsed) := walk opts [] theme in
  {| css := VStr (declarations vs);
     vars := VObj vs;
     parsedTheme := match parsed with VObj props => props | _ => [] end |}.

(** Modelled from the spec: [deepmerge] (@mui/utils) is not among the
    sources; the spec only says that the variable maps are merged.  The
    properties of the second argument override or extend those of the
    first, and two objects under one key are merged in turn. *)
Fixpoint deepmerge (target source : value) {struct source} : value :=
  match target, source with
  | VObj tprops, VObj sprops =>
      let fix go (ps : list (string * value)) (acc : obj) : obj :=
        match ps with
        | [] => acc
        | (k, x) :: rest =>
            let merged :=
              match Js.lookup k acc, x with
              | Some (VObj t), VObj _ => deepmerge (VObj t) x
              | _, _ => x
              end in
            go rest (Js.set k merged acc)
        end in
      VObj (go sprops tprops)
  | _, _ => source
  end.

(** One snapshot of what [useCurrentColorScheme] returns in a render. *)
Definition snapshot (mode systemMode colorScheme : option string)
  : Hook.options -> Hook.state :=
  fun opts =>
    {| Hook.mode := mode;
       Hook.setMode := VFun "setMode" [];
       Hook.systemMode := systemMode;
       Hook.lightColorScheme := Some (Js.to_string (Hook.defaultLightColorScheme opts));
       Hook.darkColorScheme := Some (Js.to_string (Hook.defaultDarkColorScheme opts));
       Hook.colorScheme := colorScheme;
       Hook.setColorScheme := VFun "setColorScheme" [] |}.

(** A stand-in for [createGetCssVar] (./createGetCssVar, not among the
    sources): the function it returns, as an opaque function value. *)
Definition createGetCssVar (prefix : string) : value := VFun "getCssVar" [].

Definition render : DesignSystem -> Props.t -> (Hook.options -> Hook.state)
    -> result Rendered :=
  fun ds props hook =>
    renderCssVarsProvider cssVarsParser deepmerge hook createGetCssVar
      "data-attr" "mode" ds props.

Definition noProps : Props.t :=
  {| Props.theme := VUndefined; Props.prefix := None;
     Props.modeStorageKey := None; Props.attribute := None;
     Props.defaultMode := None; Props.defaultColorScheme := VUndefined;
     Props.disableTransitionOnChange := None;
     Props.enableColorScheme := None |}.

Definition optionsOf (theme defaultColorScheme : value) : Options.t :=
  {| Options.theme := theme; Options.defaultMode := None;
     Options.defaultColorScheme := defaultColorScheme;
     Options.disableTransitionOnChange := None;
     Options.enableColorScheme := None; Options.prefix := None;
     Options.shouldSkipGeneratingVar := None;
     Options.resolveTheme := None |}.

(** A theme with a root palette entry, two schemes and a component
    override. *)
Definition lightScheme : value :=
  VObj [("palette"%string, VObj [("primary"%string, VStr "blue")])].
Definition darkScheme : value :=
  VObj [("palette"%string, VObj [("primary"%string, VStr "navy")])].
Definition sampleTheme : value :=
  VObj [("fontSize"%string, VNum 14);
        ("colorSchemes"%string,
          VObj [("light"%string, lightScheme); ("dark"%string, darkScheme)]);
        ("components"%string,
          VObj [("Button"%string, VObj [("size"%string, VStr "small")])])].

Definition sampleSystem : DesignSystem :=
  destructureOptions (optionsOf sampleTheme (VStr "light")).

(** The same theme with an object default and default mode "dark". *)
Definition darkSystem : DesignSystem :=
  destructureOptions
    {| Options.theme := sampleTheme;
       Options.defaultMode := Some "dark"%string;
       Options.defaultColorScheme :=
         VObj [("light"%string, VStr "light"); ("dark"%string, VStr "dark")];
       Options.disableTransitionOnChange := None;
       Options.enableColorScheme := None;
       Options.prefix := None;
       Options.shouldSkipGeneratingVar := None;
       Options.resolveTheme := None |}.

(** The effect environment of a render with the given scheme and mode,
    both opt-in effects switched on. *)
Definition envOf (colorScheme mode : string) : EffectEnv :=
  {| env_colorScheme := Some colorScheme;
     env_attribute := "data-attr";
     env_mode := Some mode;
     env_systemMode := None;
     env_enableColorScheme := true;
     env_disableTransitionOnChange := true |}.

Definition locals : DesignSystem -> Props.t -> (Hook.options -> Hook.state)
    -> result Locals :=
  fun ds props hook => renderLocals hook "data-attr" "mode" ds props.

End Model.

(** Further configurations for concrete runs. *)
Module Cases.

(** A theme without a registry. *)
Definition plainTheme : value :=
  VObj [("fontSize"%string, VNum 14);
        ("palette"%string, VObj [("primary"%string, VStr "red")])].

Definition plainSystem : DesignSystem :=
  destructureOptions (Model.optionsOf plainTheme (VStr "light")).

(** The sample theme with a default scheme that the registry lacks. *)
Definition sepiaSystem : DesignSystem :=
  destructureOptions (Model.optionsOf Model.sampleTheme (VStr "sepia")).

(** A registry whose one scheme has a string for a palette. *)
Definition flatScheme : value := VObj [("palette"%string, VStr "blue")].

Definition flatTheme : value :=
  VObj [("colorSchemes"%string, VObj [("light"%string, flatScheme)])].

Definition flatSystem : DesignSystem :=
  destructureOptions (Model.optionsOf flatTheme (VStr "light")).

(** A scheme with a top-level [vars] of its own, under a theme with a
    root variable. *)
Definition varsScheme : value :=
  VObj [("vars"%string, VObj [("gap"%string, VNum 4)])].

Definition varsSystem : DesignSystem :=
  destructureOptions
    (Model.optionsOf
       (VObj [("fontSize"%string, VNum 14);
              ("colorSchemes"%string, VObj [("light"%string, varsScheme)])])
       (VStr "light")).

(** An effect environment with every field given. *)
Definition env (colorScheme mode systemMode : option string)
    (enableColorScheme disableTransitionOnChange : bool) : EffectEnv :=
  {| env_colorScheme := colorScheme;
     env_attribute := "data-attr";
     env_mode := mode;
     env_systemMode := systemMode;
     env_enableColorScheme := enableColorScheme;
     env_disableTransitionOnChange := disableTransitionOnChange |}.

(** A document whose root already carries an attribute and a style. *)
Definition styledDocument : Browser :=
  {| rootAttributes := {[ "lang"%string := "en"%string ]};
     rootStyle := {[ "color-scheme"%string := "normal"%string ]};
     head := []; nodeText := ∅; timers := ∅; nextId := 0; calls := [] |}.

End Cases.

(** ** The store: objects by reference *)

(** The value-level definitions above describe what each object holds
    when it is read.  The writes of lines 137-138 go through a reference,
    so whether they are seen elsewhere depends on who else holds the
    object.  This second embedding of lines 64-155 keeps objects in a
    store and passes references, as the program does.  The imported
    functions get the store and return the objects they create; they
    cannot change an object that exists (the spec: no side effects). *)
Module Heap.

Abbreviation addr := nat.

(** What a variable or a property holds: a primitive, or a reference. *)
Inductive ref : Type :=
| RUndefined
| RNull
| RBool (b : bool)
| RNum (n : Z)
| RStr (s : string)
| RObj (a : addr).

Definition props : Type := list (string * ref).

(** An object of the store: its own properties, and its source text when
    it is a function. *)
Record cell : Type := {
  code : option string;
  fields : props
}.

Abbreviation store := (list cell).

Definition truthy (v : ref) : bool :=
  match v with
  | RUndefined | RNull => false
  | RBool b => b
  | RNum n => negb (Z.eqb n 0)
  | RStr s => negb (String.eqb s EmptyString)
  | RObj _ => true
  end.

Definition is_string (v : ref) : bool :=
  match v with RStr _ => true | _ => false end.

Definition str_eq (key : string) (v : ref) : bool :=
  match v with
  | RStr s => String.eqb key s
  | _ => false
  end.

Definition of_option (o : option string) : ref :=
  match o with
  | Some s => RStr s
  | None => RUndefined
  end.

Fixpoint lookup (k : string) (o : props) : option ref :=
  match o with
  | [] => None
  | (k', v) :: rest => if String.eqb k k' then Some v else lookup k rest
  end.

Definition get (k : string) (o : props) : ref :=
  match lookup k o with
  | Some v => v
  | None => RUndefined
  end.

Fixpoint set (k : string) (v : ref) (o : props) : props :=
  match o with
  | [] => [(k, v)]
  | (k', v') :: rest =>
      if String.eqb k k' then (k', v) :: rest else (k', v') :: set k v rest
  end.

Definition spread (base extra : props) : props :=
  fold_left (fun acc kv => set (fst kv) (snd kv) acc) extra base.

Definition omit (names : list string) (o : props) : props :=
  List.filter (fun kv => negb (existsb (String.eqb (fst kv)) names)) o.

Definition keys (o : props) : list string := List.map fst o.

(** [{}] and an object literal with the given properties. *)
Definition object (fs : props) : cell := {| code := None; fields := fs |}.

(** A new object gets the next address. *)
Definition alloc (c : cell) (h : store) : addr * store := (length h, h ++ [c]).

Definition fields_at (h : store) (a : addr) : props :=
  match h !! a with
  | Some c => fields c
  | None => []
  end.

(** [o[k] = x] on the object at [a]. *)
Definition write (a : addr) (k : string) (x : ref) (h : store) : store :=
  alter (fun c => {| code := code c; fields := set k x (fields c) |}) a h.

(** Own enumerable properties of ToObject(v), as [Object.entries],
    [Object.keys] and the rest of an object pattern enumerate them. *)
Definition own_entries (h : store) (v : ref) : result props :=
  match v with
  | RUndefined | RNull =>
      Throw (TypeError "Cannot convert undefined or null to object")
  | RBool _ | RNum _ => Ok []
  | RStr s => Ok (imap (fun i c => (pretty i, RStr c)) (Js.chars s))
  | RObj a => Ok (fields_at h a)
  end.

(** What [...v] contributes to an object literal: nothing for null and
    undefined. *)
Definition spread_entries (h : store) (v : ref) : props :=
  match v with
  | RUndefined | RNull | RBool _ | RNum _ => []
  | RStr s => imap (fun i c => (pretty i, RStr c)) (Js.chars s)
  | RObj a => fields_at h a
  end.

(** [v[k]] for a key that no built-in prototype defines. *)
Definition get_prop (h : store) (v : ref) (k : string) : result ref :=
  match v with
  | RUndefined => Throw (TypeError "Cannot read properties of undefined")
  | RNull => Throw (TypeError "Cannot read properties of null")
  | RBool _ | RNum _ | RStr _ => Ok RUndefined
  | RObj a => Ok (get k (fields_at h a))
  end.

(** [target[k] = x] in strict mode: through a reference the object itself
    is written; on a primitive the assignment throws. *)
Definition assign (h : store) (target : ref) (k : string) (x : ref) : result store :=
  match target with
  | RObj a => Ok (write a k x h)
  | RUndefined | RNull =>
      Throw (TypeError "Cannot set properties of undefined or null")
  | RBool _ | RNum _ | RStr _ =>
      Throw (TypeError "Cannot create property on primitive")
  end.

(** What [cssVarsParser] returns. *)
Record Parsed : Type := {
  css : ref;
  vars : ref;
  parsedTheme : ref
}.

(** The argument of [useCurrentColorScheme]. *)
Record hook_options : Type := {
  supportedColorSchemes : list string;
  hook_defaultLightColorScheme : ref;
  hook_defaultDarkColorScheme : ref;
  hook_modeStorageKey : string;
  hook_defaultMode : string
}.

(** The bindings of the parameter pattern of [CssVarsProvider] (lines
    52-60, defaults applied) and the two bindings of the enclosing
    function that the body reads. *)
Record bindings : Type := {
  themeProp : ref;
  prefix : string;
  modeStorageKey : string;
  attribute : string;
  defaultMode : string;
  defaultColorScheme : ref;
  designSystemPrefix : string;
  shouldSkipGeneratingVar : option SkipPredicate
}.

(** The constants of lines 64-95, and the store once they are computed. *)
Record Locals : Type := {
  after : store;
  colorSchemes : ref;
  components : ref;
  restThemeProp : addr;
  schemeEntries : props;
  defaultLightColorScheme : ref;
  defaultDarkColorScheme : ref;
  state : Hook.state;
  resolvedColorScheme : ref
}.

(** The variables that the loop updates: the store, and what [theme] and
    [styleSheet] refer to. *)
Record Vars : Type := {
  objects : store;
  theme : addr;
  styleSheet : addr
}.

(** What one render leaves: the variables after the loop, and the CSS of
    the root parse. *)
Record Rendered : Type := {
  final : Vars;
  rootCss : ref
}.

Section Render.

(** The imported functions.  Each gets the store and returns the objects
    it creates, which are appended to the store, with its result. *)
Variable cssVarsParser : store -> ref -> ParserOptions -> list cell * Parsed.
Variable deepmerge : store -> ref -> ref -> list cell * ref.
Variable useCurrentColorScheme : store -> hook_options -> Hook.state.
Variable createGetCssVar : store -> string -> list cell * ref.

(** A pattern default [= {}]: a new object stands in for [undefined]. *)
Definition or_empty (v : ref) (h : store) : ref * store :=
  match v with
  | RUndefined => let '(a, h') := alloc (object []) h in (RObj a, h')
  | _ => (v, h)
  end.

Definition lightOf (h : store) (defaultColorScheme : ref) : result ref :=
  if is_string defaultColorScheme then Ok defaultColorScheme
  else get_prop h defaultColorScheme "light".

Definition darkOf (h : store) (defaultColorScheme : ref) : result ref :=
  if is_string defaultColorScheme then Ok defaultColorScheme
  else get_prop h defaultColorScheme "dark".

Definition resolveColorScheme (colorScheme : option string) (defaultMode : string)
    (defaultLightColorScheme defaultDarkColorScheme : ref) : ref :=
  if negb (Js.truthy_opt colorScheme) then
    if String.eqb defaultMode "dark" then defaultDarkColorScheme
    else defaultLightColorScheme
  else of_option colorScheme.

Definition resolvedDefaultColorScheme (h : store) (defaultColorScheme : ref)
    (defaultMode : string) : result ref :=
  if is_string defaultColorScheme then Ok defaultColorScheme
  else if String.eqb defaultMode "dark" then get_prop h defaultColorScheme "dark"
  else get_prop h defaultColorScheme "light".

(** Lines 64-95. *)
Definition locals (h0 : store) (b : bindings) : result Locals :=
  let* themeEntries := own_entries h0 (themeProp b) in
  let '(colorSchemes, h1) := or_empty (get "colorSchemes" themeEntries) h0 in
  let '(components, h2) := or_empty (get "components" themeEntries) h1 in
  let '(rest, h3) :=
    alloc (object (omit ["colorSchemes"; "components"] themeEntries)) h2 in
  let* schemeEntries := own_entries h3 colorSchemes in
  let* defaultLightColorScheme := lightOf h3 (defaultColorScheme b) in
  let* defaultDarkColorScheme := darkOf h3 (defaultColorScheme b) in
  let state :=
    useCurrentColorScheme h3
      {| supportedColorSchemes := keys schemeEntries;
         hook_defaultLightColorScheme := defaultLightColorScheme;
         hook_defaultDarkColorScheme := defaultDarkColorScheme;
         hook_modeStorageKey := modeStorageKey b;
         hook_defaultMode := defaultMode b |} in
  Ok {| after := h3;
        colorSchemes := colorSchemes;
        components := components;
        restThemeProp := rest;
        schemeEntries := schemeEntries;
        defaultLightColorScheme := defaultLightColorScheme;
        defaultDarkColorScheme := defaultDarkColorScheme;
        state := state;
        resolvedColorScheme :=
          resolveColorScheme (Hook.colorScheme state) (defaultMode b)
            defaultLightColorScheme defaultDarkColorScheme |}.

Definition parserOptions (b : bindings) : ParserOptions :=
  {| po_prefix := prefix b;
     po_basePrefix := designSystemPrefix b;
     po_shouldSkipGeneratingVar := shouldSkipGeneratingVar b |}.

(** Lines 97-117: the root parse, the object literal of the theme and the
    empty style sheet. *)
Definition initial (b : bindings) (l : Locals) : Vars * ref :=
  let '(created, parsed) :=
    cssVarsParser (after l) (RObj (restThemeProp l)) (parserOptions b) in
  let h := after l ++ created in
  let '(theme, h) :=
    alloc (object
             (set "vars" (vars parsed)
                (set "prefix" (RStr (prefix b))
                   (set "colorSchemes" (colorSchemes l)
                      (set "components" (components l)
                         (spread [] (spread_entries h (parsedTheme parsed)))))))) h in
  let '(created, getCssVar) := createGetCssVar h (prefix b) in
  let h := write theme "getCssVar" getCssVar (h ++ created) in
  let '(styleSheet, h) := alloc (object []) h in
  ({| objects := h; theme := theme; styleSheet := styleSheet |}, css parsed).

(** Lines 135-139. *)
Definition assignRuntimeFields (l : Locals) (h : store) (theme : addr)
  : result store :=
  if truthy (get "palette" (fields_at h theme)) then
    let* h :=
      assign h (get "palette" (fields_at h theme)) "mode"
        (of_option (Hook.mode (state l))) in
    assign h (get "palette" (fields_at h theme)) "colorScheme"
      (resolvedColorScheme l)
  else Ok h.

(** Lines 120-129: the parse of the scheme and the merge into
    [theme.vars]. *)
Definition parseAndMerge (b : bindings) (v : Vars) (scheme : ref)
  : store * Parsed :=
  let '(created, parsed) := cssVarsParser (objects v) scheme (parserOptions b) in
  let h := objects v ++ created in
  let '(created, merged) :=
    deepmerge h (get "vars" (fields_at h (theme v))) (vars parsed) in
  (write (theme v) "vars" merged (h ++ created), parsed).

(** Lines 131-134: the properties of the object literal
    [{...theme, ...parsedScheme}]. *)
Definition spreadTheme (h : store) (theme : addr) (parsed : Parsed) : props :=
  spread (spread [] (fields_at h theme)) (spread_entries h (parsedTheme parsed)).

(** Lines 119-155: the body of the [forEach] callback. *)
Definition schemeStep (b : bindings) (l : Locals)
    (v : Vars) (entry : string * ref) : result Vars :=
  let '(key, scheme) := entry in
  let '(h, parsed) := parseAndMerge b v scheme in
  let* current :=
    if str_eq key (resolvedColorScheme l) then
      let '(theme, h) := alloc (object (spreadTheme h (theme v) parsed)) h in
      let* h := assignRuntimeFields l h theme in
      Ok (h, theme)
    else Ok (h, theme v) in
  let '(h, theme) := current in
  let* resolvedDefault :=
    resolvedDefaultColorScheme h (defaultColorScheme b) (defaultMode b) in
  let selector :=
    if str_eq key resolvedDefault then ":root"%string
    else attributeSelector (attribute b) key in
  Ok {| objects := write (styleSheet v) selector (css parsed) h;
        theme := theme;
        styleSheet := styleSheet v |}.

Fixpoint forEach (b : bindings) (l : Locals)
    (entries : props) (v : Vars) : result Vars :=
  match entries with
  | [] => Ok v
  | entry :: rest =>
      let* v' := schemeStep b l v entry in
      forEach b l rest v'
  end.

(** Lines 64-155. *)
Definition render (h0 : store) (b : bindings) : result Rendered :=
  let* l := locals h0 b in
  let* v := forEach b l (schemeEntries l) (fst (initial b l)) in
  Ok {| final := v; rootCss := snd (initial b l) |}.

(** The pass of the resolved scheme finds the key [q] among the
    properties that the spread takes from the parsed theme of that
    scheme. *)
Definition rebinds (q : string) (b : bindings) (l : Locals) : Prop :=
  exists pre key scheme post v,
    schemeEntries l = pre ++ (key, scheme) :: post
    /\ resolvedColorScheme l = RStr key
    /\ forEach b l pre (fst (initial b l)) = Ok v
    /\ lookup q
         (spread_entries (fst (parseAndMerge b v scheme))
            (parsedTheme (snd (parseAndMerge b v scheme)))) <> None.

End Render.

(** The object [c] once [mode] and [colorScheme] have been written on
    it. *)
Definition stamped (l : Locals) (c : cell) : cell :=
  {| code := code c;
     fields := set "colorScheme" (resolvedColorScheme l)
                 (set "mode" (of_option (Hook.mode (state l))) (fields c)) |}.

(** The variables of the loop refer to objects that were created after
    the first [n0], and the properties of the theme have distinct
    names. *)
Definition fresh_vars (n0 : nat) (v : Vars) : Prop :=
  n0 <= theme v /\ n0 <= styleSheet v
  /\ theme v < length (objects v) /\ styleSheet v < length (objects v)
  /\ theme v <> styleSheet v
  /\ List.NoDup (keys (fields_at (objects v) (theme v))).

(** *** Instances of the imported functions *)

Definition print (v : ref) : string :=
  match v with
  | RUndefined => "undefined"
  | RNull => "null"
  | RBool true => "true"
  | RBool false => "false"
  | RNum n => Js.print_number n
  | RStr s => s
  | RObj _ => "[object Object]"
  end.

Definition primitive (v : ref) : value :=
  match v with
  | RBool b => VBool b
  | RNum n => VNum n
  | RStr s => VStr s
  | RNull => VNull
  | _ => VUndefined
  end.

Definition leaf (opts : ParserOptions) (path : list string) (v : ref)
  : props * ref :=
  if Model.skips opts path (primitive v) then ([], v)
  else
    let name := Model.varName (po_prefix opts) path in
    ([(name, v)],
     if String.eqb (po_prefix opts) (po_basePrefix opts)
     then RStr ("var(" +:+ name +:+ ")")
     else RStr ("var(" +:+ name +:+ ", " +:+ print v +:+ ")")).

(** The walk of [Model.walk] over the store.  It descends into the plain
    objects that have properties and builds their mirror images; whatever
    else it meets (a function, an object without properties) it leaves in
    place as it is, that is, by reference.  [next] is the address of the
    first object to be created; [fuel] bounds the depth. *)
Fixpoint walk (fuel : nat) (h : store) (opts : ParserOptions)
    (path : list string) (ps : props) (next : addr) {struct fuel}
  : props * props * list cell :=
  match fuel with
  | O => ([], ps, [])
  | S fuel' =>
      (fix go (ps : props) (next : addr) {struct ps} : props * props * list cell :=
         match ps with
         | [] => ([], [], [])
         | (k, x) :: rest =>
             let '(vs, x', cs) :=
               match x with
               | RStr _ | RNum _ =>
                   let '(vs, x') := leaf opts (path ++ [k]) x in (vs, x', [])
               | RObj a =>
                   match h !! a with
                   | Some {| code := None; fields := (_ :: _) as fs |} =>
                       let '(vs, fs', cs) := walk fuel' h opts (path ++ [k]) fs next in
                       (vs, RObj (next + length cs), cs ++ [object fs'])
                   | _ => ([], x, [])
                   end
               | _ => ([], x, [])
               end in
             let '(vs', rest', cs') := go rest (next + length cs) in
             (vs ++ vs', (k, x') :: rest', cs ++ cs')
         end) ps next
  end.

Definition declarations (vs : props) : string :=
  String.concat EmptyString
    (List.map (fun kv => fst kv +:+ ":" +:+ print (snd kv) +:+ ";") vs).

(** The parser of the spec (section 4.1) over the store: [Model.cssVarsParser]
    with the objects it builds put in the store. *)
Definition parser (fuel : nat)
  : store -> ref -> ParserOptions -> list cell * Parsed :=
  fun h theme opts =>
    let '(vs, fs, cs) := walk fuel h opts [] (spread_entries h theme) (length h) in
    (cs ++ [object fs; object vs],
     {| css := RStr (declarations vs);
        vars := RObj (length h + length cs + 1);
        parsedTheme := RObj (length h + length cs) |}).

(** [Model.deepmerge] for flat maps: a new object with the properties of
    the target, overridden or extended by those of the source. *)
Definition merge : store -> ref -> ref -> list cell * ref :=
  fun h target source =>
    match target, source with
    | RObj t, RObj s =>
        ([object (spread (fields_at h t) (fields_at h s))], RObj (length h))
    | _, _ => ([], source)
    end.

Definition snapshot (mode systemMode colorScheme : option string)
  : store -> hook_options -> Hook.state :=
  fun _ opts =>
    {| Hook.mode := mode;
       Hook.setMode := VFun "setMode" [];
       Hook.systemMode := systemMode;
       Hook.lightColorScheme := Some (print (hook_defaultLightColorScheme opts));
       Hook.darkColorScheme := Some (print (hook_defaultDarkColorScheme opts));
       Hook.colorScheme := colorScheme;
       Hook.setColorScheme := VFun "setColorScheme" [] |}.

Definition getCssVar : store -> string -> list cell * ref :=
  fun h _ => ([{| code := Some "getCssVar"%string; fields := [] |}], RObj (length h)).

(** A store with one theme: its registry has the scheme "light", whose
    palette is an object without properties. *)
Definition sharedPalette : store :=
  [ object [];
    object [("palette"%string, RObj 0)];
    object [("light"%string, RObj 1)];
    object [("colorSchemes"%string, RObj 2)] ].

(** A store with one theme: the scheme "light" of its registry has a
    [components] of its own. *)
Definition schemeComponents : store :=
  [ object [("padding"%string, RNum 4)];
    object [("components"%string, RObj 0)];
    object [("light"%string, RObj 1)];
    object [("size"%string, RStr "small")];
    object [("colorSchemes"%string, RObj 2); ("components"%string, RObj 3)] ].

Definition bindingsOf (theme : addr) : bindings :=
  {| themeProp := RObj theme;
     prefix := EmptyString;
     modeStorageKey := "mode";
     attribute := "data-attr";
     defaultMode := "light";
     defaultColorScheme := RStr "light";
     designSystemPrefix := EmptyString;
     shouldSkipGeneratingVar := None |}.

Definition run (h : store) (theme : addr) : result Rendered :=
  render (parser 8) merge (snapshot (Some "light"%string) None (Some "light"%string))
    getCssVar h (bindingsOf theme).

End Heap.

(** ** Vocabulary of the statements *)

(** The values passed to [style.setProperty('color-scheme', _)] so far. *)
Definition colorSchemeWrites (b : Browser) : list string :=
  flat_map (fun c => match c with
                     | SetProperty name v =>
                         if String.eqb name "color-scheme" then [v] else []
                     | _ => []
                     end) (calls b).

(** The nodes in the head that carry the transition-disabling rule. *)
Definition transitionStyles (b : Browser) : list nat :=
  List.filter (fun n => bool_decide (nodeText b !! n = Some DISABLE_CSS_TRANSITION))
    (head b).

(** An event that leaves the component mounted. *)
Definition staysMounted (e : React.event) : bool :=
  match e with
  | React.StrictRemount | React.Update _ | React.Fire _ => true
  | React.Mount _ | React.Unmount => false
  end.

(** Two objects that hold the same at every key but [q]. *)
Definition agreeExcept (q : string) (t t' : obj) : Prop :=
  forall q', q' <> q -> Js.lookup q' t = Js.lookup q' t'.

(** The same locals with another [components]. *)
Definition withComponents (c : value) (l : Locals) : Locals :=
  {| prefix := prefix l;
     modeStorageKey := modeStorageKey l;
     attribute := attribute l;
     defaultMode := defaultMode l;
     defaultColorScheme := defaultColorScheme l;
     disableTransitionOnChange := disableTransitionOnChange l;
     enableColorScheme := enableColorScheme l;
     colorSchemes := colorSchemes l;
     components := c;
     restThemeProp := restThemeProp l;
     schemeEntries := schemeEntries l;
     allColorSchemes := allColorSchemes l;
     defaultLightColorScheme := defaultLightColorScheme l;
     defaultDarkColorScheme := defaultDarkColorScheme l;
     state := state l;
     resolvedColorScheme := resolvedColorScheme l |}.

(** Whether the color-scheme effect of a render writes at all, and what. *)
Definition hintActive (env : EffectEnv) : bool :=
  Js.truthy_opt (env_mode env) && env_enableColorScheme env.

Definition schemeHint (env : EffectEnv) : string :=
  if bool_decide (env_mode env = Some "system"%string)
  then Dom.domString (env_systemMode env)
  else Dom.domString (env_mode env).

(** The inline style of the root while the component is mounted, given what
    each property read as before the mount: [color-scheme] holds the hint
    of the last commit and the cleanup holds the original value, or the
    effect is idle and the property is as it was; no other property has
    changed. *)
Definition hintInvariant (original : string -> string)
    (inst : Instance) (b : Browser) : Prop :=
  (if hintActive (committed inst)
   then priorColorScheme inst = Some (original "color-scheme"%string)
        /\ Dom.propertyValue "color-scheme" b = schemeHint (committed inst)
   else priorColorScheme inst = None
        /\ Dom.propertyValue "color-scheme" b = original "color-scheme"%string)
  /\ forall name, name <> "color-scheme"%string ->
                  Dom.propertyValue name b = original name.

(** The mode and the system mode are in the range of the hook: "light",
    "dark" or "system" as the mode, if there is one, and under "system"
    either "light" or "dark" as the system mode. *)
Definition inHookRange (env : EffectEnv) : bool :=
  match env_mode env with
  | None => true
  | Some m =>
      if String.eqb m "system" then
        match env_systemMode env with
        | Some s => String.eqb s "light" || String.eqb s "dark"
        | None => false
        end
      else String.eqb m "light" || String.eqb m "dark"
  end.

Definition commitsInRange (e : React.event) : bool :=
  match e with
  | React.Mount env | React.Update env => inHookRange env
  | _ => true
  end.

(** An event of a component whose [attribute] prop is [a]. *)
Definition usesAttribute (a : string) (e : React.event) : bool :=
  match e with
  | React.Mount env | React.Update env => bool_decide (env_attribute env = a)
  | _ => true
  end.

(** Every pending timer is the one the mounted instance holds. *)
Definition timersOwned (s : option Instance * Browser) : Prop :=
  match fst s with
  | Some inst => forall t, is_Some (timers (snd s) !! t) -> timer inst = Some t
  | None => forall t, timers (snd s) !! t = None
  end.


(** A value that is truthy and not an object: a property cannot be
    created on it. *)
Definition primitiveTruthy (v : value) : bool :=
  Js.truthy v && match v with
                 | VObj _ | VFun _ _ => false
                 | _ => true
                 end.

(** ** Facts about objects *)

Section ObjectFacts.

Implicit Types (k q : string) (v : value) (o base extra : obj).

Lemma eqb_false_ne k q : String.eqb k q = false <-> k <> q.
Proof. apply String.eqb_neq. Qed.

Lemma lookup_set_eq k v o : Js.lookup k (Js.set k v o) = Some v.
Proof.
  induction o as [|[k' v'] rest IH]; simpl.
  - now rewrite String.eqb_refl.
  - destruct (String.eqb k k') eqn:E; simpl; rewrite E; auto.
Qed.

Lemma lookup_set_ne k q v o : q <> k -> Js.lookup q (Js.set k v o) = Js.lookup q o.
Proof.
  intros Hne. induction o as [|[k' v'] rest IH]; simpl.
  - apply String.eqb_neq in Hne. now rewrite Hne.
  - destruct (String.eqb k k') eqn:E; simpl.
    + apply String.eqb_eq in E. subst k'.
      apply String.eqb_neq in Hne. now rewrite Hne.
    + destruct (String.eqb q k'); auto.
Qed.

Lemma lookup_set k q v o :
  Js.lookup q (Js.set k v o) = if String.eqb q k then Some v else Js.lookup q o.
Proof.
  destruct (String.eqb q k) eqn:E.
  - apply String.eqb_eq in E. subst q. apply lookup_set_eq.
  - apply String.eqb_neq in E. now apply lookup_set_ne.
Qed.

Lemma get_set_eq k v o : Js.get k (Js.set k v o) = v.
Proof. unfold Js.get. now rewrite lookup_set_eq. Qed.

Lemma get_set_ne k q v o : q <> k -> Js.get q (Js.set k v o) = Js.get q o.
Proof. intros. unfold Js.get. now rewrite lookup_set_ne. Qed.

Lemma lookup_None_keys k o : Js.lookup k o = None <-> ~ In k (Js.keys o).
Proof.
  induction o as [|[k' v'] rest IH]; simpl.
  - tauto.
  - destruct (String.eqb k k') eqn:E.
    + apply String.eqb_eq in E. subst. split; [discriminate | tauto].
    + apply String.eqb_neq in E. rewrite IH. split.
      * intros H [H1|H1]; [congruence | tauto].
      * tauto.
Qed.

Lemma lookup_In k v o : Js.lookup k o = Some v -> In (k, v) o.
Proof.
  induction o as [|[k' v'] rest IH]; simpl; [discriminate|].
  destruct (String.eqb k k') eqn:E.
  - apply String.eqb_eq in E. intros [= ->]. subst. now left.
  - auto.
Qed.

Lemma In_lookup k v o : List.NoDup (Js.keys o) -> In (k, v) o -> Js.lookup k o = Some v.
Proof.
  induction o as [|[k' v'] rest IH]; simpl; [tauto|].
  intros Hnd [H|H].
  - injection H as -> ->. now rewrite String.eqb_refl.
  - apply List.NoDup_cons_iff in Hnd as [Hnotin Hnd].
    destruct (String.eqb k k') eqn:E.
    + apply String.eqb_eq in E. subst k'.
      exfalso. apply Hnotin. apply (in_map fst) in H. exact H.
    + auto.
Qed.

(** Writing a key that is not there appends it. *)
Lemma set_fresh k v o : ~ In k (Js.keys o) -> Js.set k v o = o ++ [(k, v)].
Proof.
  induction o as [|[k' v'] rest IH]; simpl; [reflexivity|].
  intros Hnot. destruct (String.eqb k k') eqn:E.
  - apply String.eqb_eq in E. subst k'. tauto.
  - rewrite IH; tauto.
Qed.

Lemma keys_set_in k v o : In k (Js.keys o) -> Js.keys (Js.set k v o) = Js.keys o.
Proof.
  induction o as [|[k' v'] rest IH]; simpl; [tauto|].
  intros Hin. destruct (String.eqb k k') eqn:E; simpl; [reflexivity|].
  apply String.eqb_neq in E. f_equal. apply IH. destruct Hin; congruence.
Qed.

Lemma NoDup_keys_set k v o : List.NoDup (Js.keys o) -> List.NoDup (Js.keys (Js.set k v o)).
Proof.
  intros Hnd. destruct (in_dec string_dec k (Js.keys o)) as [Hin|Hnot].
  - now rewrite keys_set_in.
  - rewrite set_fresh by assumption. unfold Js.keys. rewrite map_app. simpl.
    apply List.NoDup_app; auto.
    + apply List.NoDup_cons; [simpl; tauto | apply List.NoDup_nil].
    + intros x Hx [<-|[]]. tauto.
Qed.

Lemma NoDup_keys_spread base extra :
  List.NoDup (Js.keys base) -> List.NoDup (Js.keys (Js.spread base extra)).
Proof.
  revert base. induction extra as [|[k v] rest IH]; intros base Hnd; simpl; auto.
  apply IH. now apply NoDup_keys_set.
Qed.

(** Copying an object into a fresh one gives the same properties. *)
Lemma spread_app base o :
  List.NoDup (Js.keys (base ++ o)) -> Js.spread base o = base ++ o.
Proof.
  revert base. induction o as [|[k v] rest IH]; intros base Hnd; simpl.
  - now rewrite app_nil_r.
  - assert (Hfresh : ~ In k (Js.keys base)).
    { unfold Js.keys in Hnd. rewrite map_app in Hnd. simpl in Hnd.
      apply List.NoDup_remove_2 in Hnd. intros Hin. apply Hnd.
      apply in_or_app. now left. }
    rewrite set_fresh by assumption.
    change ((k, v) :: rest) with ([(k, v)] ++ rest).
    rewrite app_assoc. apply IH. now rewrite <- app_assoc.
Qed.

Lemma spread_nil_id o : List.NoDup (Js.keys o) -> Js.spread [] o = o.
Proof. intros Hnd. now rewrite spread_app. Qed.

(** A spread leaves alone the keys that the spread object lacks. *)
Lemma lookup_spread_absent q base extra :
  Js.lookup q extra = None -> Js.lookup q (Js.spread base extra) = Js.lookup q base.
Proof.
  revert base. induction extra as [|[k v] rest IH]; intros base; simpl; auto.
  destruct (String.eqb q k) eqn:E; [discriminate|].
  intros Hrest. rewrite (IH _ Hrest). apply lookup_set_ne.
  now apply String.eqb_neq.
Qed.

(** What a spread holds at a key depends on the base at that key only. *)
Lemma lookup_spread_congr q base base' extra :
  Js.lookup q base = Js.lookup q base' ->
  Js.lookup q (Js.spread base extra) = Js.lookup q (Js.spread base' extra).
Proof.
  revert base base'. induction extra as [|[k v] rest IH]; intros base base' H; simpl; auto.
  apply IH. destruct (string_dec q k) as [->|Hne].
  - now rewrite !lookup_set_eq.
  - now rewrite !lookup_set_ne.
Qed.

Lemma lookup_omit_in q names o : In q names -> Js.lookup q (Js.omit names o) = None.
Proof.
  intros Hin. apply lookup_None_keys. unfold Js.keys, Js.omit.
  intros H. apply in_map_iff in H as [[k v] [Hk H]]. simpl in Hk. subst k.
  apply filter_In in H as [_ H]. simpl in H.
  apply negb_true_iff in H.
  assert (existsb (String.eqb q) names = true); [|congruence].
  apply existsb_exists. exists q. split; auto. apply String.eqb_refl.
Qed.

Lemma omit_set_in k v names o : In k names -> Js.omit names (Js.set k v o) = Js.omit names o.
Proof.
  intros Hin.
  assert (Hex : existsb (String.eqb k) names = true).
  { apply existsb_exists. exists k. split; auto. apply String.eqb_refl. }
  induction o as [|[k' v'] rest IH]; simpl.
  - now rewrite Hex.
  - destruct (String.eqb k k') eqn:E; simpl.
    + apply String.eqb_eq in E. subst k'. now rewrite Hex.
    + now rewrite IH.
Qed.

End ObjectFacts.

(** ** Facts about selectors *)

Lemma append_length (a b : string) :
  String.length (a +:+ b) = String.length a + String.length b.
Proof. induction a as [|c a IH]; simpl; auto. Qed.

Lemma append_inj_r (s a b : string) : a +:+ s = b +:+ s -> a = b.
Proof.
  revert b. induction a as [|c a IH]; intros [|d b] H; auto.
  - apply (f_equal String.length) in H.
    rewrite !append_length in H. simpl in H. lia.
  - apply (f_equal String.length) in H.
    rewrite !append_length in H. simpl in H. lia.
  - change (String c (a +:+ s) = String d (b +:+ s)) in H.
    injection H as -> H. f_equal. now apply IH.
Qed.

Lemma attributeSelector_inj (attribute k k' : string) :
  attributeSelector attribute k = attributeSelector attribute k' -> k = k'.
Proof.
  unfold attributeSelector. intros H.
  do 4 apply String.app_inj in H.
  now apply append_inj_r in H.
Qed.

Lemma attributeSelector_not_root (attribute k : string) :
  attributeSelector attribute k <> ":root"%string.
Proof. unfold attributeSelector. cbn [append]. discriminate. Qed.

Lemma str_eq_true (k : string) (v : value) : Js.str_eq k v = true <-> v = VStr k.
Proof.
  destruct v; simpl; try (split; [discriminate | intros [=]]).
  rewrite String.eqb_eq. split; [now intros -> | now intros [= ->]].
Qed.

Lemma selectorOf_inj (rd : value) (attribute k k' : string) :
  selectorOf rd attribute k = selectorOf rd attribute k' -> k = k'.
Proof.
  unfold selectorOf.
  destruct (Js.str_eq k rd) eqn:E, (Js.str_eq k' rd) eqn:E'; intros H.
  - apply str_eq_true in E, E'. congruence.
  - symmetry in H. now apply attributeSelector_not_root in H.
  - now apply attributeSelector_not_root in H.
  - eapply attributeSelector_inj; eauto.
Qed.

(** ** The consumer hook *)

(** C1.  A call of [useColorScheme] with no enclosing provider, where the
    context holds the default [undefined], throws the MUI error and yields
    no value; a value comes back only from an enclosing provider, and it
    is that provider's. *)
Theorem useColorScheme_requires_provider :
  useColorSchemeHook []
    = Throw (MuiError "MUI: `useColorScheme` must be called under <CssVarsProvider />")
  /\ (forall value, useColorSchemeHook [] <> Ok value)
  /\ (forall providers value,
        useColorSchemeHook providers = Ok value ->
        exists outer, providers = value :: outer).
Proof.
  split; [reflexivity|]. split.
  - intros value. discriminate.
  - intros [|v outer] value; simpl; [discriminate|].
    intros [= ->]. now exists outer.
Qed.

(** ** The resolved color scheme *)

(** Splits a successful sequence of steps into its successful steps. *)
Ltac bind_inv H :=
  repeat match type of H with
         | bind ?r _ = Ok _ =>
             let E := fresh "E" in
             destruct r eqn:E; cbn [bind] in H; [|discriminate H]
         end.

Section Resolution.

Variable useCurrentColorScheme : Hook.options -> Hook.state.
Variable DEFAULT_ATTRIBUTE DEFAULT_MODE_STORAGE_KEY : string.

Local Abbreviation localsOf :=
  (renderLocals useCurrentColorScheme DEFAULT_ATTRIBUTE DEFAULT_MODE_STORAGE_KEY).


End Resolution.


(** ** The attribute effect *)



(** ** The color-scheme effect *)

(** What each effect leaves alone. *)
Lemma colorSchemeEffect_frame (env : EffectEnv) (b : Browser) :
  let b' := fst (Effects.colorSchemeEffect env b) in
  head b' = head b /\ timers b' = timers b /\ nodeText b' = nodeText b
  /\ nextId b' = nextId b /\ rootAttributes b' = rootAttributes b.
Proof.
  unfold Effects.colorSchemeEffect.
  destruct (negb _ || negb _); [cbn; auto|].
  destruct (bool_decide _); cbn; auto.
Qed.

Lemma colorSchemeCleanup_frame (prior : option string) (b : Browser) :
  let b' := Effects.colorSchemeCleanup prior b in
  head b' = head b /\ timers b' = timers b /\ nodeText b' = nodeText b
  /\ nextId b' = nextId b /\ rootAttributes b' = rootAttributes b.
Proof. destruct prior; cbn; auto. Qed.

Lemma attributeEffect_frame (env : EffectEnv) (b : Browser) :
  let b' := Effects.attributeEffect env b in
  head b' = head b /\ timers b' = timers b /\ nodeText b' = nodeText b
  /\ nextId b' = nextId b /\ rootStyle b' = rootStyle b.
Proof. unfold Effects.attributeEffect. destruct (Js.truthy_opt _); cbn; auto. Qed.

Lemma transitionCleanup_frame (timer : option nat) (b : Browser) :
  let b' := Effects.transitionCleanup timer b in
  head b' = head b /\ nodeText b' = nodeText b /\ nextId b' = nextId b
  /\ rootStyle b' = rootStyle b /\ rootAttributes b' = rootAttributes b.
Proof. cbn; auto. Qed.

Lemma transitionEffect_frame (env : EffectEnv) (mounted : bool) (b : Browser) :
  let b' := fst (Effects.transitionEffect env mounted b) in
  rootStyle b' = rootStyle b /\ rootAttributes b' = rootAttributes b.
Proof. unfold Effects.transitionEffect. destruct (_ && _); cbn; auto. Qed.

Lemma update_rootStyle (inst : Instance) (env : EffectEnv) (b : Browser) :
  rootStyle (snd (React.update inst env b))
  = if React.colorSchemeDepsChanged (committed inst) env
    then rootStyle (fst (Effects.colorSchemeEffect env
                           (Effects.colorSchemeCleanup (priorColorScheme inst) b)))
    else rootStyle b.
Proof.
  unfold React.update.
  destruct (React.colorSchemeDepsChanged _ _).
  - destruct (Effects.colorSchemeEffect _ _) as [b2 prior]. cbn [fst].
    destruct (React.transitionDepsChanged _ _), (React.attributeDepsChanged _ _).
    + destruct (Effects.transitionEffect _ _ _) as [b5 t] eqn:E. cbn [snd].
      pose proof (transitionEffect_frame env (hasMounted inst)
                    (Effects.attributeEffect env
                       (Effects.transitionCleanup (timer inst) b2))) as [H _].
      rewrite E in H. cbn [fst] in H. rewrite H.
      now destruct (attributeEffect_frame env
                      (Effects.transitionCleanup (timer inst) b2)) as (_&_&_&_&->).
    + destruct (Effects.transitionEffect _ _ _) as [b5 t] eqn:E. cbn [snd].
      pose proof (transitionEffect_frame env (hasMounted inst)
                    (Effects.transitionCleanup (timer inst) b2)) as [H _].
      rewrite E in H. cbn [fst] in H. now rewrite H.
    + cbn [snd]. now destruct (attributeEffect_frame env b2) as (_&_&_&_&->).
    + reflexivity.
  - destruct (React.transitionDepsChanged _ _), (React.attributeDepsChanged _ _).
    + destruct (Effects.transitionEffect _ _ _) as [b5 t] eqn:E. cbn [snd].
      pose proof (transitionEffect_frame env (hasMounted inst)
                    (Effects.attributeEffect env
                       (Effects.transitionCleanup (timer inst) b))) as [H _].
      rewrite E in H. cbn [fst] in H. rewrite H.
      now destruct (attributeEffect_frame env
                      (Effects.transitionCleanup (timer inst) b)) as (_&_&_&_&->).
    + destruct (Effects.transitionEffect _ _ _) as [b5 t] eqn:E. cbn [snd].
      pose proof (transitionEffect_frame env (hasMounted inst)
                    (Effects.transitionCleanup (timer inst) b)) as [H _].
      rewrite E in H. cbn [fst] in H. now rewrite H.
    + cbn [snd]. now destruct (attributeEffect_frame env b) as (_&_&_&_&->).
    + reflexivity.
Qed.

Lemma propertyValue_setProperty (name v : string) (b : Browser) :
  Dom.propertyValue name (Dom.setProperty name v b) = v.
Proof.
  unfold Dom.propertyValue, Dom.setProperty. cbn [rootStyle].
  destruct (String.eqb v EmptyString) eqn:E.
  - apply String.eqb_eq in E. subst v. now rewrite lookup_delete_eq.
  - now rewrite lookup_insert_eq.
Qed.

(** The claim C5 as worded, at one mount followed by the unmount: the
    teardown passes the empty string, the prior value of an unset property,
    to [setProperty]. *)
Lemma teardown_writes_the_prior_value :
  ~ Forall (fun v => v = "light"%string \/ v = "dark"%string)
      (colorSchemeWrites
         (snd (React.run [React.Mount (Model.envOf "light" "light"); React.Unmount]
                 Dom.empty))).
Proof.
  vm_compute. intros H.
  apply Forall_cons_iff in H as [_ H].
  apply Forall_cons_iff in H as [[H|H] _]; discriminate H.
Qed.

(** C5, amended.  With [enableColorScheme] on and [mode] one of "light",
    "dark", "system" (the OS mode being "light" or "dark" under "system"),
    the effect body reads the prior value and writes exactly one value,
    which is "light" or "dark": [mode] itself, or the OS mode under
    "system".  The cleanup writes the prior value back, whatever it was,
    so the property ends as it began; the update of a render whose
    dependencies changed and the unmount both run that cleanup.  With the
    option off, or no mode, the effect writes nothing. *)
Theorem color_scheme_effect_sets_light_or_dark (env : EffectEnv) (b : Browser) :
  env_enableColorScheme env = true ->
  (env_mode env = Some "light"%string
   \/ env_mode env = Some "dark"%string
   \/ (env_mode env = Some "system"%string
       /\ (env_systemMode env = Some "light"%string
           \/ env_systemMode env = Some "dark"%string))) ->
  exists v,
    (v = "light"%string \/ v = "dark"%string)
    /\ (env_mode env = Some "system"%string -> env_systemMode env = Some v)
    /\ (env_mode env <> Some "system"%string -> env_mode env = Some v)
    /\ snd (Effects.colorSchemeEffect env b)
         = Some (Dom.propertyValue "color-scheme" b)
    /\ calls (fst (Effects.colorSchemeEffect env b))
         = calls b ++ [GetPropertyValue "color-scheme"; SetProperty "color-scheme" v]
    /\ Dom.propertyValue "color-scheme" (fst (Effects.colorSchemeEffect env b)) = v
    /\ (let b' := fst (Effects.colorSchemeEffect env b) in
        let b'' := Effects.colorSchemeCleanup (snd (Effects.colorSchemeEffect env b)) b' in
        calls b'' = calls b' ++ [SetProperty "color-scheme" (Dom.propertyValue "color-scheme" b)]
        /\ Dom.propertyValue "color-scheme" b'' = Dom.propertyValue "color-scheme" b)
    /\ (forall inst b0,
          rootStyle (snd (React.unmount inst b0))
          = rootStyle (Effects.colorSchemeCleanup (priorColorScheme inst) b0))
    /\ (forall inst next b0,
          React.colorSchemeDepsChanged (committed inst) next = true ->
          rootStyle (snd (React.update inst next b0))
          = rootStyle (fst (Effects.colorSchemeEffect next
                              (Effects.colorSchemeCleanup (priorColorScheme inst) b0))))
    /\ (forall off b0,
          env_enableColorScheme off = false \/ env_mode off = None ->
          Effects.colorSchemeEffect off b0 = (b0, None)).
Proof.
  intros Hon Hmode.
  assert (Hv : exists v,
             (v = "light"%string \/ v = "dark"%string)
             /\ (env_mode env = Some "system"%string -> env_systemMode env = Some v)
             /\ (env_mode env <> Some "system"%string -> env_mode env = Some v)
             /\ Effects.colorSchemeEffect env b
                = (Dom.setProperty "color-scheme" v
                     (snd (Dom.getPropertyValue "color-scheme" b)),
                   Some (Dom.propertyValue "color-scheme" b))).
  { unfold Effects.colorSchemeEffect. rewrite Hon.
    destruct Hmode as [Hm | [Hm | [Hm [Hs | Hs]]]]; rewrite Hm; try rewrite Hs.
    - exists "light"%string. repeat split; auto; discriminate.
    - exists "dark"%string. repeat split; auto; discriminate.
    - exists "light"%string. repeat split; auto. congruence.
    - exists "dark"%string. repeat split; auto. congruence. }
  destruct Hv as (v & Hv & Hsys & Hother & Heff).
  exists v. rewrite Heff. cbn [fst snd].
  repeat split; auto.
  - cbn. now rewrite <- app_assoc.
  - apply propertyValue_setProperty.
  - cbn [Effects.colorSchemeCleanup]. apply propertyValue_setProperty.
  - intros inst next b0 Hchanged. now rewrite update_rootStyle, Hchanged.
  - intros off b0 [Hoff | Hnone]; unfold Effects.colorSchemeEffect.
    + rewrite Hoff. now rewrite orb_true_r.
    + now rewrite Hnone.
Qed.

Lemma color_scheme_effect_sets_light_or_dark_witness :
  exists v,
    (v = "light"%string \/ v = "dark"%string)
    /\ calls (fst (Effects.colorSchemeEffect (Model.envOf "dark" "dark") Dom.empty))
       = [GetPropertyValue "color-scheme"; SetProperty "color-scheme" v].
Proof.
  destruct (color_scheme_effect_sets_light_or_dark (Model.envOf "dark" "dark") Dom.empty)
    as (v & Hv & _ & _ & _ & Hcalls & _).
  - reflexivity.
  - right. left. reflexivity.
  - exists v. split; [exact Hv | exact Hcalls].
Defined.

(** ** The transition-disabling style element *)

Lemma mount_leaves_head (env : EffectEnv) (b : Browser) :
  head (snd (React.mount env b)) = head b
  /\ timers (snd (React.mount env b)) = timers b
  /\ nodeText (snd (React.mount env b)) = nodeText b
  /\ hasMounted (fst (React.mount env b)) = true
  /\ timer (fst (React.mount env b)) = None.
Proof.
  unfold React.mount.
  destruct (Effects.colorSchemeEffect env b) as [b1 prior] eqn:E.
  pose proof (colorSchemeEffect_frame env b) as Hf. rewrite E in Hf. cbn [fst] in Hf.
  destruct Hf as (Hh & Ht & Hn & _ & _).
  unfold Effects.transitionEffect. rewrite andb_false_r. cbn [fst snd hasMounted timer].
  destruct (attributeEffect_frame env b1) as (Hh' & Ht' & Hn' & _ & _).
  repeat split; congruence.
Qed.

Lemma remount_leaves_head (inst : Instance) (b : Browser) :
  head (snd (React.remount inst b)) = head b
  /\ hasMounted (fst (React.remount inst b)) = true.
Proof.
  unfold React.remount, React.unmount.
  set (b0 := Effects.transitionCleanup _ _).
  assert (H0 : head b0 = head b).
  { subst b0. destruct (transitionCleanup_frame (timer inst)
                           (Effects.colorSchemeCleanup (priorColorScheme inst) b))
      as (-> & _).
    now destruct (colorSchemeCleanup_frame (priorColorScheme inst) b) as (-> & _). }
  destruct (Effects.colorSchemeEffect (committed inst) b0) as [b1 prior] eqn:E.
  pose proof (colorSchemeEffect_frame (committed inst) b0) as Hf.
  rewrite E in Hf. cbn [fst] in Hf. destruct Hf as (Hh & _).
  unfold Effects.transitionEffect. cbn [hasMounted]. rewrite andb_false_r.
  cbn [fst snd hasMounted].
  destruct (attributeEffect_frame (committed inst) b1) as (Hh' & _).
  split; congruence.
Qed.

(** An update, seen from the transition effect: everything that runs before
    its body leaves the head and the identifiers alone, and clears the
    pending timer exactly when the dependencies of that effect changed. *)
Lemma update_shape (inst : Instance) (env : EffectEnv) (b : Browser) :
  exists b4 prior,
    head b4 = head b /\ nextId b4 = nextId b /\ nodeText b4 = nodeText b
    /\ timers b4
       = (if React.transitionDepsChanged (committed inst) env
          then match timer inst with
               | Some t => delete t (timers b)
               | None => timers b
               end
          else timers b)
    /\ React.update inst env b
       = if React.transitionDepsChanged (committed inst) env
         then ({| hasMounted := hasMounted inst; committed := env;
                  priorColorScheme := prior;
                  timer := snd (Effects.transitionEffect env (hasMounted inst) b4) |},
               fst (Effects.transitionEffect env (hasMounted inst) b4))
         else ({| hasMounted := hasMounted inst; committed := env;
                  priorColorScheme := prior; timer := timer inst |}, b4).
Proof.
  unfold React.update.
  set (b2p := if React.colorSchemeDepsChanged (committed inst) env
              then Effects.colorSchemeEffect env
                     (Effects.colorSchemeCleanup (priorColorScheme inst) b)
              else (b, priorColorScheme inst)).
  assert (H2 : head (fst b2p) = head b /\ timers (fst b2p) = timers b
               /\ nodeText (fst b2p) = nodeText b /\ nextId (fst b2p) = nextId b).
  { subst b2p. destruct (React.colorSchemeDepsChanged _ _); [|cbn; auto].
    destruct (colorSchemeEffect_frame env
                (Effects.colorSchemeCleanup (priorColorScheme inst) b))
      as (-> & -> & -> & -> & _).
    destruct (colorSchemeCleanup_frame (priorColorScheme inst) b)
      as (-> & -> & -> & -> & _). auto. }
  destruct b2p as [b2 prior]. cbn [fst] in H2. destruct H2 as (Hh & Ht & Hn & Hi).
  destruct (React.transitionDepsChanged (committed inst) env).
  - set (b3 := Effects.transitionCleanup (timer inst) b2).
    set (b4 := if React.attributeDepsChanged (committed inst) env
               then Effects.attributeEffect env b3 else b3).
    exists b4, prior.
    assert (H4 : head b4 = head b3 /\ timers b4 = timers b3
                 /\ nodeText b4 = nodeText b3 /\ nextId b4 = nextId b3).
    { subst b4. destruct (React.attributeDepsChanged _ _); [|auto].
      destruct (attributeEffect_frame env b3) as (-> & -> & -> & -> & _). auto. }
    destruct H4 as (-> & -> & -> & ->). subst b3. cbn [Effects.transitionCleanup
      Dom.clearTimeout head timers nodeText nextId].
    rewrite Hh, Ht, Hn, Hi. repeat split; auto.
    destruct (Effects.transitionEffect env (hasMounted inst) b4); reflexivity.
  - set (b4 := if React.attributeDepsChanged (committed inst) env
               then Effects.attributeEffect env b2 else b2).
    exists b4, prior.
    assert (H4 : head b4 = head b2 /\ timers b4 = timers b2
                 /\ nodeText b4 = nodeText b2 /\ nextId b4 = nextId b2).
    { subst b4. destruct (React.attributeDepsChanged _ _); [|auto].
      destruct (attributeEffect_frame env b2) as (-> & -> & -> & -> & _). auto. }
    destruct H4 as (-> & -> & -> & ->). repeat split; auto.
Qed.

Lemma update_keeps_ref (inst : Instance) (env : EffectEnv) (b : Browser) :
  hasMounted (fst (React.update inst env b)) = hasMounted inst.
Proof.
  destruct (update_shape inst env b) as (b4 & prior & _ & _ & _ & _ & ->).
  destruct (React.transitionDepsChanged _ _); reflexivity.
Qed.

(** Once mounted, the ref stays set for as long as nothing unmounts. *)
Lemma stays_mounted (events : list React.event) (inst : Instance) (b : Browser) :
  forallb staysMounted events = true ->
  hasMounted inst = true ->
  exists inst' b',
    fold_left React.step events (Some inst, b) = (Some inst', b')
    /\ hasMounted inst' = true.
Proof.
  revert inst b. induction events as [|e rest IH]; intros inst b Hall Hm.
  - exists inst, b. auto.
  - cbn [forallb] in Hall. apply andb_true_iff in Hall as [He Hrest].
    cbn [fold_left]. destruct e; try discriminate He.
    + unfold React.step at 2. cbn [fst snd].
      destruct (React.remount inst b) as [inst1 b1] eqn:E.
      apply IH; auto.
      pose proof (remount_leaves_head inst b) as [_ H].
      rewrite E in H. exact H.
    + unfold React.step at 2. cbn [fst snd].
      destruct (React.update inst env b) as [inst1 b1] eqn:E.
      apply IH; auto.
      pose proof (update_keeps_ref inst env b) as H.
      rewrite E in H. cbn [fst] in H. congruence.
    + unfold React.step at 2. cbn [fst snd]. apply IH; auto.
Qed.

Lemma transitionEffect_mounted (env : EffectEnv) (b : Browser) :
  env_disableTransitionOnChange env = true ->
  Effects.transitionEffect env true b
  = ({| rootAttributes := rootAttributes b; rootStyle := rootStyle b;
        head := head b ++ [nextId b];
        nodeText := <[nextId b := DISABLE_CSS_TRANSITION]> (nodeText b);
        timers := <[S (nextId b) := (1, nextId b)]> (timers b);
        nextId := S (S (nextId b));
        calls := calls b ++ [CreateStyle (nextId b) DISABLE_CSS_TRANSITION;
                             AppendToHead (nextId b);
                             GetComputedStyle;
                             SetTimeout (S (nextId b)) 1] |},
     Some (S (nextId b))).
Proof.
  intros Hon. unfold Effects.transitionEffect. rewrite Hon. cbn.
  now rewrite <- !app_assoc.
Qed.

Lemma filter_drops (node : nat) (l : list nat) :
  ~ In node (List.filter (fun n => negb (Nat.eqb n node)) l).
Proof.
  intros H. apply filter_In in H as [_ H].
  now rewrite Nat.eqb_refl in H.
Qed.

(** The claim C3 as worded, at two scheme changes in a row: the second
    change tears the first effect down, which clears its timer; after every
    pending timer has fired, the first style element is still in the head
    and no timer is left. *)
Lemma torn_down_style_element_is_not_removed :
  let b := Dom.drain
             (snd (React.run [React.Mount (Model.envOf "light" "light");
                              React.Update (Model.envOf "dark" "dark");
                              React.Update (Model.envOf "light" "light")]
                     Dom.empty)) in
  transitionStyles b <> [] /\ map_to_list (timers b) = [].
Proof. vm_compute. split; [discriminate | reflexivity]. Qed.

(** C3, amended.  The effects of the first mount never touch the head (the
    ref is still unset when the transition effect runs), whatever the
    option, also when strict mode runs them a second time.  After that, with [disableTransitionOnChange] on and for as
    long as the component stays mounted, an update appends a style element
    exactly when [colorScheme] differs from the last commit: the element
    carries the transition-disabling rule, [getComputedStyle] is called
    right after the append, and a timer of delay 1 is set whose firing
    removes the element.  The teardown of the effect clears that timer. *)
Theorem transition_style_only_after_mount :
  (forall env b,
      head (snd (React.mount env b)) = head b
      /\ timers (snd (React.mount env b)) = timers b
      /\ head (snd (React.run [React.Mount env; React.StrictRemount] b)) = head b)
  /\ (forall first events next b0,
        forallb staysMounted events = true ->
        env_disableTransitionOnChange next = true ->
        exists inst b,
          React.run (React.Mount first :: events) b0 = (Some inst, b)
          /\ hasMounted inst = true
          /\ (env_disableTransitionOnChange (committed inst) = true ->
              let inst' := fst (React.update inst next b) in
              let b' := snd (React.update inst next b) in
              (env_colorScheme next = env_colorScheme (committed inst) ->
                 head b' = head b /\ timers b' = timers b)
              /\ (env_colorScheme next <> env_colorScheme (committed inst) ->
                  exists node t earlier,
                    head b' = head b ++ [node]
                    /\ nodeText b' !! node = Some DISABLE_CSS_TRANSITION
                    /\ calls b' = earlier ++ [CreateStyle node DISABLE_CSS_TRANSITION;
                                              AppendToHead node;
                                              GetComputedStyle;
                                              SetTimeout t 1]
                    /\ timer inst' = Some t
                    /\ timers b' !! t = Some (1, node)
                    /\ ~ In node (head (Dom.fire t b'))
                    /\ timers (Effects.transitionCleanup (timer inst') b') !! t = None))).
Proof.
  split.
  - intros env b. destruct (mount_leaves_head env b) as (H1 & H2 & _).
    repeat split; auto.
    unfold React.run. cbn [fold_left]. unfold React.step. cbn [fst snd].
    destruct (React.mount env b) as [inst b1]. cbn [fst snd] in *.
    destruct (React.remount inst b1) as [inst2 b2] eqn:E. cbn [snd].
    pose proof (remount_leaves_head inst b1) as [H _].
    rewrite E in H. cbn [snd] in H. congruence.
  - intros first events next b0 Hall Hon.
    unfold React.run. cbn [fold_left]. unfold React.step at 2. cbn [fst snd].
    destruct (React.mount first b0) as [inst0 b1] eqn:Em.
    pose proof (mount_leaves_head first b0) as (_ & _ & _ & Hm & _).
    rewrite Em in Hm. cbn [fst] in Hm.
    destruct (stays_mounted events inst0 b1 Hall Hm) as (inst & b & Hrun & Hmounted).
    exists inst, b. split; [exact Hrun|]. split; [exact Hmounted|].
    intros Hold.
    destruct (update_shape inst next b) as (b4 & prior & Hh & Hi & Hn & Ht & Hupd).
    assert (Hdeps : React.transitionDepsChanged (committed inst) next
                    = negb (bool_decide (env_colorScheme (committed inst)
                                         = env_colorScheme next))).
    { unfold React.transitionDepsChanged. rewrite Hold, Hon.
      rewrite (bool_decide_eq_true_2 (true = true)) by reflexivity.
      now rewrite andb_true_r. }
    rewrite Hupd. rewrite Hdeps in Ht |- *. split.
    + intros Hsame. symmetry in Hsame.
      rewrite (bool_decide_eq_true_2 _ Hsame) in Ht |- *.
      cbn [negb fst snd] in Ht |- *. split; congruence.
    + intros Hdiff.
      assert (Hne : env_colorScheme (committed inst) <> env_colorScheme next)
        by congruence.
      rewrite (bool_decide_eq_false_2 _ Hne) in Ht |- *.
      cbn [negb] in Ht |- *. rewrite Hmounted.
      rewrite (transitionEffect_mounted next b4 Hon). cbn [fst snd timer].
      exists (nextId b4), (S (nextId b4)), (calls b4).
      cbn [head nodeText calls timers Effects.transitionCleanup Dom.clearTimeout].
      repeat split.
      * now rewrite Hh.
      * apply lookup_insert_eq.
      * apply lookup_insert_eq.
      * unfold Dom.fire. cbn [timers]. rewrite lookup_insert_eq.
        cbn [Dom.removeFromHead head]. apply filter_drops.
      * apply lookup_delete_eq.
Qed.

(** One scheme change after the mount: the element is appended, and gone
    once its timer has fired. *)
Lemma transition_style_only_after_mount_witness :
  forallb staysMounted [] = true
  /\ exists node t,
       head (snd (React.run [React.Mount (Model.envOf "light" "light");
                             React.Update (Model.envOf "dark" "dark")] Dom.empty))
       = [node]
       /\ ~ In node
            (head (Dom.fire t
                     (snd (React.run [React.Mount (Model.envOf "light" "light");
                                      React.Update (Model.envOf "dark" "dark")]
                             Dom.empty)))).
Proof.
  split; [reflexivity|].
  destruct (proj2 transition_style_only_after_mount
              (Model.envOf "light" "light") [] (Model.envOf "dark" "dark") Dom.empty
              eq_refl eq_refl)
    as (inst & b & Hrun & _ & Hupd).
  vm_compute in Hrun. injection Hrun as <- <-.
  destruct (Hupd eq_refl) as [_ Hdiff].
  destruct Hdiff as (node & t & earlier & Hhead & _ & _ & _ & _ & Hfire & _);
    [discriminate|].
  exists node, t. split; [vm_cast_no_check Hhead | vm_cast_no_check Hfire].
Defined.

(** ** The loop over the color schemes *)

Section Loop.

Variable cssVarsParser : value -> ParserOptions -> Parsed.
Variable deepmerge : value -> value -> value.
Variable ds : DesignSystem.
Variable l : Locals.

Local Abbreviation parse scheme := (cssVarsParser scheme (parserOptions ds l)).
Local Abbreviation step := (schemeStep cssVarsParser deepmerge ds l).
Local Abbreviation tstep := (themeStep cssVarsParser deepmerge ds l).
Local Abbreviation loop := (forEach cssVarsParser deepmerge ds l).
Local Abbreviation resolvedDefault :=
  (resolvedDefaultColorScheme (defaultColorScheme l) (defaultMode l)).

Lemma schemeStep_inv t0 ss0 k s t1 ss1 :
  step (t0, ss0) (k, s) = Ok (t1, ss1) ->
  tstep t0 (k, s) = Ok t1
  /\ exists rd,
       resolvedDefault = Ok rd
       /\ ss1 = Js.set (selectorOf rd (attribute l) k) (css (parse s)) ss0.
Proof.
  unfold schemeStep, themeStep. cbn [fst snd].
  intros H. bind_inv H. unfold selectorOf.
  destruct (Js.str_eq k a0) eqn:Hk; injection H as <- <-;
    (split; [reflexivity|]); exists a0; rewrite Hk; auto.
Qed.

Lemma loop_cons e es acc :
  loop (e :: es) acc = bind (step acc e) (loop es).
Proof. reflexivity. Qed.

Lemma loop_app pre post acc :
  loop (pre ++ post) acc = bind (loop pre acc) (loop post).
Proof.
  revert acc. induction pre as [|e pre IH]; intros acc; [reflexivity|].
  cbn [app]. rewrite !loop_cons. destruct (step acc e); cbn [bind]; auto.
Qed.

(** *** The style sheet *)

Lemma loop_styleSheet_frame es t0 ss0 t ss rd sel :
  loop es (t0, ss0) = Ok (t, ss) ->
  resolvedDefault = Ok rd ->
  (forall k s, In (k, s) es -> selectorOf rd (attribute l) k <> sel) ->
  Js.lookup sel ss = Js.lookup sel ss0.
Proof.
  revert t0 ss0. induction es as [|[k s] es IH]; intros t0 ss0 H Hrd Hsel.
  - now injection H as <- <-.
  - rewrite loop_cons in H. destruct (step (t0, ss0) (k, s)) as [[t1 ss1]|] eqn:E;
      [cbn [bind] in H | discriminate H].
    apply schemeStep_inv in E as (_ & rd' & Hrd' & ->).
    assert (rd' = rd) by congruence. subst rd'.
    rewrite (IH _ _ H Hrd).
    + apply lookup_set_ne. intros ->. apply (Hsel k s); [left|]; reflexivity.
    + intros k' s' Hin. apply (Hsel k' s'). now right.
Qed.

Lemma loop_styleSheet es t0 ss0 t ss rd k s :
  List.NoDup (Js.keys es) ->
  loop es (t0, ss0) = Ok (t, ss) ->
  resolvedDefault = Ok rd ->
  In (k, s) es ->
  Js.lookup (selectorOf rd (attribute l) k) ss = Some (css (parse s)).
Proof.
  revert t0 ss0. induction es as [|[k0 s0] es IH]; intros t0 ss0 Hnd H Hrd Hin.
  - destruct Hin.
  - cbn [Js.keys map fst] in Hnd. apply List.NoDup_cons_iff in Hnd as [Hfresh Hnd].
    rewrite loop_cons in H. destruct (step (t0, ss0) (k0, s0)) as [[t1 ss1]|] eqn:E;
      [cbn [bind] in H | discriminate H].
    destruct Hin as [Heq | Hin].
    + injection Heq as -> ->.
      apply schemeStep_inv in E as (_ & rd' & Hrd' & ->).
      assert (rd' = rd) by congruence. subst rd'.
      rewrite (loop_styleSheet_frame es _ _ _ _ rd _ H Hrd).
      * apply lookup_set_eq.
      * intros k' s' Hin' Heq. apply selectorOf_inj in Heq. subst k'.
        apply Hfresh. apply (in_map fst) in Hin'. exact Hin'.
    + eapply IH; eauto.
Qed.

(** *** The theme *)

Lemma assignRuntimeFields_falsy m :
  Js.truthy (Js.get "palette" m) = false -> assignRuntimeFields l m = Ok m.
Proof. intros H. unfold assignRuntimeFields. now rewrite H. Qed.

Lemma assignRuntimeFields_object m p :
  Js.get "palette" m = VObj p ->
  assignRuntimeFields l m
  = Ok (Js.set "palette"
          (VObj (Js.set "colorScheme" (resolvedColorScheme l)
                   (Js.set "mode" (Js.of_option (Hook.mode (state l))) p))) m).
Proof. intros H. unfold assignRuntimeFields. rewrite H. reflexivity. Qed.

Lemma assignRuntimeFields_inv m t1 :
  assignRuntimeFields l m = Ok t1 ->
  t1 = m \/ exists pal, t1 = Js.set "palette" pal m.
Proof.
  unfold assignRuntimeFields. destruct (Js.truthy _).
  - intros H. bind_inv H. injection H as <-. right. eauto.
  - intros [= <-]. now left.
Qed.

Lemma assignRuntimeFields_lookup m t1 q :
  assignRuntimeFields l m = Ok t1 -> q <> "palette"%string ->
  Js.lookup q t1 = Js.lookup q m.
Proof.
  intros H Hq. apply assignRuntimeFields_inv in H as [-> | [pal ->]]; auto.
  now apply lookup_set_ne.
Qed.

Lemma assignRuntimeFields_NoDup m t1 :
  assignRuntimeFields l m = Ok t1 ->
  List.NoDup (Js.keys m) -> List.NoDup (Js.keys t1).
Proof.
  intros H Hnd. apply assignRuntimeFields_inv in H as [-> | [pal ->]]; auto.
  now apply NoDup_keys_set.
Qed.

Lemma themeStep_NoDup t0 e t1 :
  tstep t0 e = Ok t1 -> List.NoDup (Js.keys t0) -> List.NoDup (Js.keys t1).
Proof.
  unfold themeStep. intros H Hnd. destruct (Js.str_eq _ _).
  - eapply assignRuntimeFields_NoDup; eauto.
    apply NoDup_keys_spread, NoDup_keys_spread. apply List.NoDup_nil.
  - injection H as <-. now apply NoDup_keys_set.
Qed.

(** A pass for a scheme that is not the resolved one only merges its
    variables. *)
Lemma themeStep_other t0 k s :
  Js.str_eq k (resolvedColorScheme l) = false ->
  tstep t0 (k, s)
  = Ok (Js.set "vars" (deepmerge (Js.get "vars" t0) (vars (parse s))) t0).
Proof. intros H. unfold themeStep. cbn [fst snd]. now rewrite H. Qed.

(** The pass for the resolved scheme, key by key. *)
Lemma themeStep_resolved_lookup t0 k s t1 q :
  Js.str_eq k (resolvedColorScheme l) = true ->
  List.NoDup (Js.keys t0) ->
  tstep t0 (k, s) = Ok t1 ->
  q <> "palette"%string ->
  Js.lookup q t1
  = Js.lookup q
      (Js.spread (Js.set "vars" (deepmerge (Js.get "vars" t0) (vars (parse s))) t0)
         (parsedTheme (parse s))).
Proof.
  intros Hres Hnd H Hq. unfold themeStep in H. cbn [fst snd] in H. rewrite Hres in H.
  rewrite spread_nil_id in H by now apply NoDup_keys_set.
  now rewrite (assignRuntimeFields_lookup _ _ q H Hq).
Qed.

Lemma themeStep_vars t0 k s t1 :
  List.NoDup (Js.keys t0) ->
  (Js.str_eq k (resolvedColorScheme l) = true ->
   Js.lookup "vars" (parsedTheme (parse s)) = None) ->
  tstep t0 (k, s) = Ok t1 ->
  Js.get "vars" t1 = deepmerge (Js.get "vars" t0) (vars (parse s)).
Proof.
  intros Hnd Hvars H. unfold Js.get at 1.
  destruct (Js.str_eq k (resolvedColorScheme l)) eqn:Hres.
  - rewrite (themeStep_resolved_lookup t0 k s t1 "vars" Hres Hnd H) by discriminate.
    rewrite lookup_spread_absent by auto. now rewrite lookup_set_eq.
  - rewrite themeStep_other in H by assumption. injection H as <-.
    now rewrite lookup_set_eq.
Qed.

(** A key other than [vars] and [palette] that the resolved scheme's
    parse does not bind is left as it was. *)
Lemma themeStep_passes t0 k s t1 q :
  q <> "vars"%string -> q <> "palette"%string ->
  List.NoDup (Js.keys t0) ->
  (Js.str_eq k (resolvedColorScheme l) = true ->
   Js.lookup q (parsedTheme (parse s)) = None) ->
  tstep t0 (k, s) = Ok t1 ->
  Js.lookup q t1 = Js.lookup q t0.
Proof.
  intros Hv Hp Hnd Habs H.
  destruct (Js.str_eq k (resolvedColorScheme l)) eqn:Hres.
  - rewrite (themeStep_resolved_lookup t0 k s t1 q Hres Hnd H Hp).
    rewrite lookup_spread_absent by auto. now apply lookup_set_ne.
  - rewrite themeStep_other in H by assumption. injection H as <-.
    now apply lookup_set_ne.
Qed.

Lemma loop_NoDup es t0 ss0 t ss :
  loop es (t0, ss0) = Ok (t, ss) ->
  List.NoDup (Js.keys t0) -> List.NoDup (Js.keys t).
Proof.
  revert t0 ss0. induction es as [|[k s] es IH]; intros t0 ss0 H Hnd.
  - now injection H as <- <-.
  - rewrite loop_cons in H. destruct (step (t0, ss0) (k, s)) as [[t1 ss1]|] eqn:E;
      [cbn [bind] in H | discriminate H].
    apply schemeStep_inv in E as (E & _).
    eapply IH; eauto. eapply themeStep_NoDup; eauto.
Qed.

Lemma loop_vars es t0 ss0 t ss :
  List.NoDup (Js.keys t0) ->
  (forall k s, In (k, s) es ->
     Js.str_eq k (resolvedColorScheme l) = true ->
     Js.lookup "vars" (parsedTheme (parse s)) = None) ->
  loop es (t0, ss0) = Ok (t, ss) ->
  Js.get "vars" t
  = fold_left (fun acc entry => deepmerge acc (vars (parse (snd entry))))
      es (Js.get "vars" t0).
Proof.
  revert t0 ss0. induction es as [|[k s] es IH]; intros t0 ss0 Hnd Hvars H.
  - now injection H as <- <-.
  - rewrite loop_cons in H. destruct (step (t0, ss0) (k, s)) as [[t1 ss1]|] eqn:E;
      [cbn [bind] in H | discriminate H].
    apply schemeStep_inv in E as (E & _).
    cbn [fold_left snd].
    rewrite <- (themeStep_vars t0 k s t1 Hnd (Hvars k s (or_introl eq_refl)) E).
    eapply IH; eauto.
    + eapply themeStep_NoDup; eauto.
    + intros k' s' Hin. apply (Hvars k' s'). now right.
Qed.

Lemma loop_passes es t0 ss0 t ss q :
  q <> "vars"%string -> q <> "palette"%string ->
  List.NoDup (Js.keys t0) ->
  (forall k s, In (k, s) es ->
     Js.str_eq k (resolvedColorScheme l) = true ->
     Js.lookup q (parsedTheme (parse s)) = None) ->
  loop es (t0, ss0) = Ok (t, ss) ->
  Js.lookup q t = Js.lookup q t0.
Proof.
  intros Hv Hp. revert t0 ss0.
  induction es as [|[k s] es IH]; intros t0 ss0 Hnd Habs H.
  - now injection H as <- <-.
  - rewrite loop_cons in H. destruct (step (t0, ss0) (k, s)) as [[t1 ss1]|] eqn:E;
      [cbn [bind] in H | discriminate H].
    apply schemeStep_inv in E as (E & _).
    rewrite (IH t1 ss1); eauto.
    + eapply themeStep_passes; eauto. apply (Habs k s). now left.
    + eapply themeStep_NoDup; eauto.
    + intros k' s' Hin. apply (Habs k' s'). now right.
Qed.

(** Passes for schemes other than the resolved one leave every key but
    [vars] alone. *)
Lemma loop_others es t0 ss0 t ss q :
  q <> "vars"%string ->
  (forall k s, In (k, s) es -> Js.str_eq k (resolvedColorScheme l) = false) ->
  loop es (t0, ss0) = Ok (t, ss) ->
  Js.lookup q t = Js.lookup q t0.
Proof.
  intros Hv. revert t0 ss0.
  induction es as [|[k s] es IH]; intros t0 ss0 Hoth H.
  - now injection H as <- <-.
  - rewrite loop_cons in H. destruct (step (t0, ss0) (k, s)) as [[t1 ss1]|] eqn:E;
      [cbn [bind] in H | discriminate H].
    apply schemeStep_inv in E as (E & _).
    rewrite themeStep_other in E by (apply (Hoth k s); now left).
    injection E as <-.
    rewrite (IH _ ss1 (fun k' s' Hin => Hoth k' s' (or_intror Hin)) H).
    now apply lookup_set_ne.
Qed.

Lemma schemeStep_intro t0 ss0 k s t1 rd :
  tstep t0 (k, s) = Ok t1 ->
  resolvedDefault = Ok rd ->
  step (t0, ss0) (k, s)
  = Ok (t1, Js.set (selectorOf rd (attribute l) k) (css (parse s)) ss0).
Proof.
  intros Ht Hrd. unfold schemeStep. unfold themeStep in Ht. cbn [fst snd] in Ht.
  rewrite Ht. cbn [bind]. rewrite Hrd. cbn [bind]. unfold selectorOf.
  now destruct (Js.str_eq k rd).
Qed.

(** Passes for schemes other than the resolved one cannot throw. *)
Lemma loop_others_returns es t0 ss0 rd :
  resolvedDefault = Ok rd ->
  (forall k s, In (k, s) es -> Js.str_eq k (resolvedColorScheme l) = false) ->
  exists t ss, loop es (t0, ss0) = Ok (t, ss).
Proof.
  intros Hrd. revert t0 ss0.
  induction es as [|[k s] es IH]; intros t0 ss0 Hoth; [cbn; eauto|].
  rewrite loop_cons.
  rewrite (schemeStep_intro t0 ss0 k s _ rd
             (themeStep_other t0 k s (Hoth k s (or_introl eq_refl))) Hrd).
  cbn [bind]. apply IH. intros k' s' Hin. apply (Hoth k' s'). now right.
Qed.

End Loop.

(** ** One render *)

Section Render.

Variable cssVarsParser : value -> ParserOptions -> Parsed.
Variable deepmerge : value -> value -> value.
Variable useCurrentColorScheme : Hook.options -> Hook.state.
Variable createGetCssVar : string -> value.
Variable DEFAULT_ATTRIBUTE DEFAULT_MODE_STORAGE_KEY : string.

Local Abbreviation localsOf :=
  (renderLocals useCurrentColorScheme DEFAULT_ATTRIBUTE DEFAULT_MODE_STORAGE_KEY).
Local Abbreviation render :=
  (renderCssVarsProvider cssVarsParser deepmerge useCurrentColorScheme
     createGetCssVar DEFAULT_ATTRIBUTE DEFAULT_MODE_STORAGE_KEY).
Local Abbreviation loop := (forEach cssVarsParser deepmerge).
Local Abbreviation initial := (initialTheme cssVarsParser createGetCssVar).
Local Abbreviation root := (rootParse cssVarsParser).

Lemma render_inv ds props l r :
  localsOf ds props = Ok l ->
  render ds props = Ok r ->
  exists t ss,
    loop ds l (schemeEntries l) (initial ds l, []) = Ok (t, ss)
    /\ theme r = t
    /\ styleSheet r = ss
    /\ rootStyles r = [(":root"%string, css (root ds l))]
    /\ providedTheme r = match resolveTheme ds with
                         | Some resolve => resolve t
                         | None => VObj t
                         end
    /\ Context.mode (contextValue r) = Hook.mode (state l)
    /\ Context.colorScheme (contextValue r) = Hook.colorScheme (state l)
    /\ Context.allColorSchemes (contextValue r) = Js.keys (schemeEntries l).
Proof.
  intros Hl Hr. unfold renderCssVarsProvider in Hr. rewrite Hl in Hr.
  cbn [bind] in Hr. bind_inv Hr. destruct a as [t ss]. injection Hr as <-.
  exists t, ss. cbn. repeat split; auto.
  unfold renderLocals in Hl. bind_inv Hl. now injection Hl as <-.
Qed.

Lemma initial_NoDup ds l : List.NoDup (Js.keys (initial ds l)).
Proof.
  unfold initialTheme. repeat apply NoDup_keys_set.
  apply NoDup_keys_spread. apply List.NoDup_nil.
Qed.

Lemma initial_vars ds l : Js.get "vars" (initial ds l) = vars (root ds l).
Proof.
  unfold initialTheme. rewrite get_set_ne by discriminate. apply get_set_eq.
Qed.

Lemma initial_components ds l :
  Js.lookup "components" (initial ds l) = Some (components l).
Proof.
  unfold initialTheme. rewrite !lookup_set_ne by discriminate. apply lookup_set_eq.
Qed.

Lemma initial_colorSchemes ds l :
  Js.lookup "colorSchemes" (initial ds l) = Some (colorSchemes l).
Proof.
  unfold initialTheme. rewrite !lookup_set_ne by discriminate. apply lookup_set_eq.
Qed.

Lemma initial_palette ds l :
  Js.lookup "palette" (initial ds l)
  = Js.lookup "palette" (Js.spread [] (parsedTheme (root ds l))).
Proof. unfold initialTheme. now rewrite !lookup_set_ne by discriminate. Qed.

(** C2.  In the style sheet of one render, every entry of the registry
    is filed under exactly one selector: [:root] when its name is the
    resolved default scheme, and otherwise the attribute selector built
    from its name; the block filed there is the CSS parsed from that
    entry.  In particular, with the schemes "light" and "dark" and the
    default scheme "light" (as a string, or as the light member of an
    object default with a default mode other than "dark"), [:root] holds
    the CSS of the light scheme and the attribute selector of "dark"
    holds the CSS of the dark scheme. *)
Theorem style_sheet_selectors ds props l r :
  localsOf ds props = Ok l ->
  render ds props = Ok r ->
  List.NoDup (Js.keys (schemeEntries l)) ->
  (forall rd key scheme,
      resolvedDefaultColorScheme (defaultColorScheme l) (defaultMode l) = Ok rd ->
      In (key, scheme) (schemeEntries l) ->
      Js.lookup (if Js.str_eq key rd then ":root"%string
                 else attributeSelector (attribute l) key) (styleSheet r)
      = Some (css (cssVarsParser scheme (parserOptions ds l))))
  /\ (forall light dark,
        (defaultColorScheme l = VStr "light"
         \/ exists d, defaultColorScheme l = VObj d
                      /\ Js.get "light" d = VStr "light"
                      /\ defaultMode l <> "dark"%string) ->
        Js.lookup "light" (schemeEntries l) = Some light ->
        Js.lookup "dark" (schemeEntries l) = Some dark ->
        Js.lookup ":root" (styleSheet r)
        = Some (css (cssVarsParser light (parserOptions ds l)))
        /\ Js.lookup (attributeSelector (attribute l) "dark") (styleSheet r)
           = Some (css (cssVarsParser dark (parserOptions ds l)))).
Proof.
  intros Hl Hr Hnd.
  destruct (render_inv ds props l r Hl Hr) as (t & ss & Hloop & _ & -> & _).
  assert (Hgen : forall rd key scheme,
             resolvedDefaultColorScheme (defaultColorScheme l) (defaultMode l) = Ok rd ->
             In (key, scheme) (schemeEntries l) ->
             Js.lookup (selectorOf rd (attribute l) key) ss
             = Some (css (cssVarsParser scheme (parserOptions ds l)))).
  { intros rd key scheme Hrd Hin.
    eapply loop_styleSheet; eauto. }
  split; [exact Hgen|].
  intros light dark Hdef Hlight Hdark.
  assert (Hrd : resolvedDefaultColorScheme (defaultColorScheme l) (defaultMode l)
                = Ok (VStr "light")).
  { unfold resolvedDefaultColorScheme.
    destruct Hdef as [-> | (d & -> & Hd & Hmode)]; [reflexivity|].
    cbn [Js.is_string]. apply String.eqb_neq in Hmode. rewrite Hmode.
    cbn [Js.get_prop]. now rewrite Hd. }
  split.
  - apply (Hgen _ "light"%string light Hrd). now apply lookup_In.
  - apply (Hgen _ "dark"%string dark Hrd). now apply lookup_In.
Qed.

Lemma fresh_elsewhere (es pre post : obj) key scheme :
  List.NoDup (Js.keys es) ->
  es = pre ++ (key, scheme) :: post ->
  (forall k s, In (k, s) pre -> Js.str_eq k (VStr key) = false)
  /\ (forall k s, In (k, s) post -> Js.str_eq k (VStr key) = false).
Proof.
  intros Hnd ->. unfold Js.keys in Hnd. rewrite map_app in Hnd. cbn [map fst] in Hnd.
  apply List.NoDup_remove_2 in Hnd.
  split; intros k s Hin; cbn [Js.str_eq]; apply String.eqb_neq; intros ->;
    apply Hnd; apply in_or_app; [left | right];
    apply (in_map fst) in Hin; exact Hin.
Qed.

(** C7, amended.  The [vars] of the theme of one render is the variable
    map of the root parse merged by [deepmerge], in the order of the
    registry, with the variable map parsed from every scheme of the
    registry, whichever scheme is the resolved one, provided the parsed
    theme of the resolved scheme has no top-level [vars] of its own.  In
    general the spread of lines 131-134 lets that property, when there is
    one, take the place of what was merged up to and including the
    resolved scheme, and the maps of the schemes after it are merged onto
    it.  Without [resolveTheme] this theme is the one handed to
    descendants. *)
Theorem theme_vars_merge_all_schemes ds props l r :
  localsOf ds props = Ok l ->
  render ds props = Ok r ->
  ((forall key scheme,
       In (key, scheme) (schemeEntries l) ->
       resolvedColorScheme l = VStr key ->
       Js.lookup "vars" (parsedTheme (cssVarsParser scheme (parserOptions ds l))) = None) ->
   Js.get "vars" (theme r)
   = fold_left
       (fun acc entry =>
          deepmerge acc (vars (cssVarsParser (snd entry) (parserOptions ds l))))
       (schemeEntries l) (vars (root ds l)))
  /\ (forall pre key scheme post,
        schemeEntries l = pre ++ (key, scheme) :: post ->
        List.NoDup (Js.keys (schemeEntries l)) ->
        resolvedColorScheme l = VStr key ->
        Js.get "vars" (theme r)
        = fold_left
            (fun acc entry =>
               deepmerge acc (vars (cssVarsParser (snd entry) (parserOptions ds l))))
            post
            (Js.get "vars"
               (Js.spread
                  [("vars"%string,
                    fold_left
                      (fun acc entry =>
                         deepmerge acc
                           (vars (cssVarsParser (snd entry) (parserOptions ds l))))
                      (pre ++ [(key, scheme)]) (vars (root ds l)))]
                  (parsedTheme (cssVarsParser scheme (parserOptions ds l))))))
  /\ (resolveTheme ds = None -> providedTheme r = VObj (theme r)).
Proof.
  intros Hl Hr.
  destruct (render_inv ds props l r Hl Hr) as (t & ss & Hloop & -> & _ & _ & Hprov & _).
  split; [|split].
  - intros Hvars. rewrite <- initial_vars.
    eapply loop_vars; eauto using initial_NoDup.
    intros k s Hin Hres. apply (Hvars k s Hin). now apply str_eq_true.
  - intros pre key scheme post Hsplit Hnd Hres.
    destruct (fresh_elsewhere _ pre post key scheme Hnd Hsplit) as [Hpre Hpost].
    rewrite <- Hres in Hpre, Hpost.
    rewrite Hsplit, loop_app in Hloop.
    destruct (loop ds l pre (initial ds l, [])) as [[ta ssa]|] eqn:Ea;
      [cbn [bind] in Hloop | discriminate Hloop].
    rewrite loop_cons in Hloop.
    destruct (schemeStep cssVarsParser deepmerge ds l (ta, ssa) (key, scheme))
      as [[tb ssb]|] eqn:Eb; [cbn [bind] in Hloop | discriminate Hloop].
    apply schemeStep_inv in Eb as (Eb & _).
    assert (Hnda : List.NoDup (Js.keys ta))
      by (eapply loop_NoDup; [exact Ea | apply initial_NoDup]).
    assert (Hndb : List.NoDup (Js.keys tb))
      by (eapply themeStep_NoDup; [exact Eb | exact Hnda]).
    assert (Hva : Js.get "vars" ta
                  = fold_left
                      (fun acc entry =>
                         deepmerge acc
                           (vars (cssVarsParser (snd entry) (parserOptions ds l))))
                      pre (vars (root ds l))).
    { rewrite <- initial_vars.
      eapply loop_vars; [apply initial_NoDup | | exact Ea].
      intros k s Hin Hk. rewrite (Hpre k s Hin) in Hk. discriminate Hk. }
    rewrite (loop_vars cssVarsParser deepmerge ds l post tb ssb t ss Hndb);
      [ | | exact Hloop].
    + f_equal. unfold Js.get at 1.
      rewrite (themeStep_resolved_lookup cssVarsParser deepmerge ds l
                 ta key scheme tb "vars"); [ | | exact Hnda | exact Eb | discriminate].
      * unfold Js.get at 2.
        erewrite lookup_spread_congr; [reflexivity|].
        rewrite lookup_set_eq, fold_left_app, <- Hva. reflexivity.
      * rewrite Hres. cbn [Js.str_eq]. apply String.eqb_refl.
    + intros k s Hin Hk. rewrite (Hpost k s Hin) in Hk. discriminate Hk.
  - intros Hnone. now rewrite Hprov, Hnone.
Qed.

(** C8.  In a render whose resolved scheme is a key of the registry, take
    the palette that the spread of line 131 leaves in the theme (that of
    the resolved scheme's parse if it has one, else that of the root
    parse).  If it is an object, the palette of the rendered theme is
    that object with [mode] set to the current mode (the one in the
    context value) and [colorScheme] set to the resolved scheme name.  If
    there is no palette (it is undefined, or otherwise falsy), nothing is
    added: the rendered theme has the same palette value. *)
Theorem palette_runtime_fields ds props l r key scheme :
  localsOf ds props = Ok l ->
  render ds props = Ok r ->
  List.NoDup (Js.keys (schemeEntries l)) ->
  resolvedColorScheme l = VStr key ->
  In (key, scheme) (schemeEntries l) ->
  let merged :=
    Js.get "palette"
      (Js.spread (Js.spread [] (parsedTheme (root ds l)))
         (parsedTheme (cssVarsParser scheme (parserOptions ds l)))) in
  (forall p,
      merged = VObj p ->
      Js.get "palette" (theme r)
      = VObj (Js.set "colorScheme" (VStr key)
                (Js.set "mode" (Js.of_option (Context.mode (contextValue r))) p)))
  /\ (Js.truthy merged = false -> Js.get "palette" (theme r) = merged).
Proof.
  intros Hl Hr Hnd Hres Hin merged.
  destruct (render_inv ds props l r Hl Hr)
    as (t & ss & Hloop & -> & _ & _ & _ & -> & _).
  destruct (in_split _ _ Hin) as (pre & post & Hsplit).
  destruct (fresh_elsewhere _ pre post key scheme Hnd Hsplit) as [Hpre Hpost].
  rewrite <- Hres in Hpre, Hpost.
  rewrite Hsplit, loop_app in Hloop.
  destruct (loop ds l pre (initial ds l, [])) as [[ta ssa]|] eqn:Ea;
    [cbn [bind] in Hloop | discriminate Hloop].
  rewrite loop_cons in Hloop.
  destruct (schemeStep cssVarsParser deepmerge ds l (ta, ssa) (key, scheme))
    as [[tb ssb]|] eqn:Eb; [cbn [bind] in Hloop | discriminate Hloop].
  apply schemeStep_inv in Eb as (Eb & _).
  assert (Hta : Js.lookup "palette" ta
                = Js.lookup "palette" (Js.spread [] (parsedTheme (root ds l)))).
  { rewrite <- initial_palette.
    eapply loop_others; [discriminate | exact Hpre | exact Ea]. }
  assert (Hnda : List.NoDup (Js.keys ta)).
  { eapply loop_NoDup; [exact Ea | apply initial_NoDup]. }
  assert (Ht : Js.get "palette" t = Js.get "palette" tb).
  { unfold Js.get. erewrite loop_others; [reflexivity | discriminate | exact Hpost | exact Hloop]. }
  rewrite Ht. clear Ht Hloop.
  unfold themeStep in Eb. cbn [fst snd] in Eb.
  assert (Hk : Js.str_eq key (resolvedColorScheme l) = true)
    by (now apply str_eq_true).
  rewrite Hk in Eb.
  rewrite spread_nil_id in Eb by now apply NoDup_keys_set.
  set (m := Js.spread _ _) in Eb.
  assert (Hm : Js.get "palette" m = merged).
  { subst m merged. unfold Js.get. erewrite lookup_spread_congr; [reflexivity|].
    rewrite lookup_set_ne by discriminate. exact Hta. }
  split.
  - intros p Hp. rewrite <- Hm in Hp.
    rewrite (assignRuntimeFields_object l m p Hp) in Eb. injection Eb as <-.
    rewrite get_set_eq. now rewrite Hres.
  - intros Hfalsy. rewrite <- Hm in Hfalsy |- *.
    rewrite (assignRuntimeFields_falsy l m Hfalsy) in Eb. now injection Eb as <-.
Qed.


End Render.

(** ** Set-up time validation *)

Section Validation.

Variable cssVarsParser : value -> ParserOptions -> Parsed.
Variable deepmerge : value -> value -> value.
Variable useCurrentColorScheme : Hook.options -> Hook.state.
Variable createGetCssVar : string -> value.
Variable DEFAULT_ATTRIBUTE DEFAULT_MODE_STORAGE_KEY : string.
Variable initColorSchemeScript : value.

Local Abbreviation create :=
  (createCssVarsProvider cssVarsParser deepmerge useCurrentColorScheme
     createGetCssVar DEFAULT_ATTRIBUTE DEFAULT_MODE_STORAGE_KEY
     initColorSchemeScript).
Local Abbreviation render :=
  (renderCssVarsProvider cssVarsParser deepmerge useCurrentColorScheme
     createGetCssVar DEFAULT_ATTRIBUTE DEFAULT_MODE_STORAGE_KEY).
Local Abbreviation localsOf :=
  (renderLocals useCurrentColorScheme DEFAULT_ATTRIBUTE DEFAULT_MODE_STORAGE_KEY).
Local Abbreviation root := (rootParse cssVarsParser).






End Validation.

(** ** The theme's [components] and the generated variables *)

Section Components.

Variable cssVarsParser : value -> ParserOptions -> Parsed.
Variable deepmerge : value -> value -> value.
Variable useCurrentColorScheme : Hook.options -> Hook.state.
Variable createGetCssVar : string -> value.
Variable DEFAULT_ATTRIBUTE DEFAULT_MODE_STORAGE_KEY : string.

Local Abbreviation localsOf :=
  (renderLocals useCurrentColorScheme DEFAULT_ATTRIBUTE DEFAULT_MODE_STORAGE_KEY).
Local Abbreviation render :=
  (renderCssVarsProvider cssVarsParser deepmerge useCurrentColorScheme
     createGetCssVar DEFAULT_ATTRIBUTE DEFAULT_MODE_STORAGE_KEY).
Local Abbreviation loop := (forEach cssVarsParser deepmerge).
Local Abbreviation tstep := (themeStep cssVarsParser deepmerge).
Local Abbreviation initial := (initialTheme cssVarsParser createGetCssVar).

Lemma agree_set q k v t t' :
  agreeExcept q t t' -> agreeExcept q (Js.set k v t) (Js.set k v t').
Proof. intros H q' Hq'. rewrite !lookup_set. now rewrite (H q' Hq'). Qed.

Lemma agree_spread q extra t t' :
  agreeExcept q t t' -> agreeExcept q (Js.spread t extra) (Js.spread t' extra).
Proof. intros H q' Hq'. apply lookup_spread_congr. now apply H. Qed.

Lemma agree_get q k t t' : agreeExcept q t t' -> k <> q -> Js.get k t = Js.get k t'.
Proof. intros H Hk. unfold Js.get. now rewrite (H k Hk). Qed.

Lemma assignRuntimeFields_agree q l m m' t1 :
  q <> "palette"%string ->
  agreeExcept q m m' ->
  assignRuntimeFields l m = Ok t1 ->
  exists t1', assignRuntimeFields l m' = Ok t1' /\ agreeExcept q t1 t1'.
Proof.
  intros Hq Hagree H. unfold assignRuntimeFields in *.
  rewrite <- (agree_get q "palette" m m' Hagree) by congruence.
  destruct (Js.truthy _).
  - bind_inv H. injection H as <-. cbn [bind]. rewrite E0. cbn [bind].
    eexists. split; [reflexivity|]. now apply agree_set.
  - injection H as <-. eauto.
Qed.

Lemma themeStep_agree q ds l t0 t0' e t1 :
  q <> "palette"%string -> q <> "vars"%string ->
  List.NoDup (Js.keys t0) -> List.NoDup (Js.keys t0') ->
  agreeExcept q t0 t0' ->
  tstep ds l t0 e = Ok t1 ->
  exists t1', tstep ds l t0' e = Ok t1' /\ agreeExcept q t1 t1'.
Proof.
  intros Hp Hv Hnd Hnd' Hagree H. unfold themeStep in *.
  rewrite <- (agree_get q "vars" t0 t0' Hagree) by congruence.
  set (v := deepmerge _ _) in *.
  destruct (Js.str_eq _ _).
  - rewrite spread_nil_id in H |- * by now apply NoDup_keys_set.
    eapply assignRuntimeFields_agree; eauto.
    now apply agree_spread, agree_set.
  - injection H as <-. eexists. split; [reflexivity|]. now apply agree_set.
Qed.

Lemma loop_agree q ds l es t0 t0' ss0 t ss :
  q <> "palette"%string -> q <> "vars"%string ->
  List.NoDup (Js.keys t0) -> List.NoDup (Js.keys t0') ->
  agreeExcept q t0 t0' ->
  loop ds l es (t0, ss0) = Ok (t, ss) ->
  exists t', loop ds l es (t0', ss0) = Ok (t', ss) /\ agreeExcept q t t'.
Proof.
  intros Hp Hv. revert t0 t0' ss0.
  induction es as [|[k s] es IH]; intros t0 t0' ss0 Hnd Hnd' Hagree H.
  - injection H as <- <-. eauto.
  - rewrite loop_cons in H |- *.
    destruct (schemeStep cssVarsParser deepmerge ds l (t0, ss0) (k, s))
      as [[t1 ss1]|] eqn:E; [cbn [bind] in H | discriminate H].
    pose proof E as E'. apply schemeStep_inv in E' as (Et & rd & Hrd & Hss).
    destruct (themeStep_agree q ds l t0 t0' (k, s) t1 Hp Hv Hnd Hnd' Hagree Et)
      as (t1' & Et' & Hagree1).
    assert (E1 : schemeStep cssVarsParser deepmerge ds l (t0', ss0) (k, s)
                 = Ok (t1', ss1)).
    { unfold schemeStep. unfold themeStep in Et'. cbn [fst snd] in Et'.
      rewrite Et'. cbn [bind]. rewrite Hrd. cbn [bind]. subst ss1.
      unfold selectorOf. now destruct (Js.str_eq k rd). }
    rewrite E1. cbn [bind].
    apply (IH t1 t1' ss1); auto.
    + eapply themeStep_NoDup; [exact Et | exact Hnd].
    + eapply themeStep_NoDup; [exact Et' | exact Hnd'].
Qed.

Lemma loop_withComponents c ds l es acc :
  loop ds (withComponents c l) es acc = loop ds l es acc.
Proof.
  revert acc. induction es as [|e es IH]; intros acc; [reflexivity|].
  cbn [forEach].
  assert (Hstep : schemeStep cssVarsParser deepmerge ds (withComponents c l) acc e
                  = schemeStep cssVarsParser deepmerge ds l acc e)
    by (destruct acc, e; reflexivity).
  rewrite Hstep. destruct (schemeStep _ _ _ _ _ _); cbn [bind]; auto.
Qed.

Lemma initial_agree c ds l :
  agreeExcept "components" (initial ds l) (initial ds (withComponents c l)).
Proof.
  intros q Hq. unfold initialTheme. rewrite !lookup_set.
  apply String.eqb_neq in Hq. now rewrite Hq.
Qed.

Lemma locals_withComponents ds props t c l :
  Props.theme props = VObj t ->
  localsOf ds props = Ok l ->
  localsOf ds (withTheme (VObj (Js.set "components" c t)) props)
  = Ok (withComponents (Js.or_default c (VObj [])) l).
Proof.
  intros Htheme Hl. unfold renderLocals in *. cbn [withTheme Props.theme
    Props.prefix Props.modeStorageKey Props.attribute Props.defaultMode
    Props.defaultColorScheme Props.disableTransitionOnChange
    Props.enableColorScheme].
  rewrite Htheme in Hl. cbn [Js.or_default Js.own_entries bind] in Hl |- *.
  rewrite (get_set_ne "components" "colorSchemes") by discriminate.
  rewrite (omit_set_in "components") by (right; left; reflexivity).
  rewrite get_set_eq.
  bind_inv Hl. injection Hl as <-. reflexivity.
Qed.

Lemma components_ignored :
  variablesIgnore cssVarsParser deepmerge useCurrentColorScheme createGetCssVar
    DEFAULT_ATTRIBUTE DEFAULT_MODE_STORAGE_KEY "components".
Proof.
  intros ds props t c r Htheme Hr.
  destruct (localsOf ds props) as [l|] eqn:Hl;
    [|unfold renderCssVarsProvider in Hr; rewrite Hl in Hr; discriminate Hr].
  destruct (render_inv _ _ _ _ _ _ ds props l r Hl Hr)
    as (tt & ss & Hloop & <- & <- & Hroot & _).
  pose proof (locals_withComponents ds props t c l Htheme Hl) as Hl'.
  set (c' := Js.or_default c (VObj [])) in *.
  assert (Hp : "components"%string <> "palette"%string) by discriminate.
  assert (Hv : "components"%string <> "vars"%string) by discriminate.
  destruct (loop_agree "components" ds l (schemeEntries l)
              (initial ds l) (initial ds (withComponents c' l)) []
              (theme r) (styleSheet r) Hp Hv
              (initial_NoDup _ _ ds l)
              (initial_NoDup _ _ ds (withComponents c' l))
              (initial_agree c' ds l) Hloop)
    as (t' & Hloop' & Hagree).
  unfold renderCssVarsProvider. rewrite Hl'. cbn [bind].
  change (schemeEntries (withComponents c' l)) with (schemeEntries l).
  rewrite loop_withComponents. cbn [bind].
  match goal with
  | |- context [bind ?x _] => replace x with (Ok (A := obj * obj) (t', styleSheet r))
  end.
  cbn [bind].
  eexists. split; [reflexivity|]. cbn [rootStyles styleSheet theme].
  rewrite Hroot. repeat split.
  symmetry. apply (agree_get "components"); [exact Hagree | discriminate].
Qed.

End Components.

(** ** Facts about the store *)

Section StoreFacts.

Implicit Types (k q : string) (v x : Heap.ref) (o base extra : Heap.props)
  (h : Heap.store) (a : Heap.addr).

Lemma store_lookup_set_eq k v o : Heap.lookup k (Heap.set k v o) = Some v.
Proof.
  induction o as [|[k' v'] rest IH]; simpl.
  - now rewrite String.eqb_refl.
  - destruct (String.eqb k k') eqn:E; simpl; rewrite E; auto.
Qed.

Lemma store_lookup_set_ne k q v o :
  q <> k -> Heap.lookup q (Heap.set k v o) = Heap.lookup q o.
Proof.
  intros Hne. induction o as [|[k' v'] rest IH]; simpl.
  - apply String.eqb_neq in Hne. now rewrite Hne.
  - destruct (String.eqb k k') eqn:E; simpl.
    + apply String.eqb_eq in E. subst k'.
      apply String.eqb_neq in Hne. now rewrite Hne.
    + destruct (String.eqb q k'); auto.
Qed.

Lemma store_lookup_None_keys k o : Heap.lookup k o = None <-> ~ In k (Heap.keys o).
Proof.
  induction o as [|[k' v'] rest IH]; simpl.
  - tauto.
  - destruct (String.eqb k k') eqn:E.
    + apply String.eqb_eq in E. subst. split; [discriminate | tauto].
    + apply String.eqb_neq in E. rewrite IH. split.
      * intros H [H1|H1]; [congruence | tauto].
      * tauto.
Qed.

Lemma store_set_fresh k v o : ~ In k (Heap.keys o) -> Heap.set k v o = o ++ [(k, v)].
Proof.
  induction o as [|[k' v'] rest IH]; simpl; [reflexivity|].
  intros Hnot. destruct (String.eqb k k') eqn:E.
  - apply String.eqb_eq in E. subst k'. tauto.
  - rewrite IH; tauto.
Qed.

Lemma store_keys_set_in k v o :
  In k (Heap.keys o) -> Heap.keys (Heap.set k v o) = Heap.keys o.
Proof.
  induction o as [|[k' v'] rest IH]; simpl; [tauto|].
  intros Hin. destruct (String.eqb k k') eqn:E; simpl; [reflexivity|].
  apply String.eqb_neq in E. f_equal. apply IH. destruct Hin; congruence.
Qed.

Lemma store_NoDup_set k v o :
  List.NoDup (Heap.keys o) -> List.NoDup (Heap.keys (Heap.set k v o)).
Proof.
  intros Hnd. destruct (in_dec string_dec k (Heap.keys o)) as [Hin|Hnot].
  - now rewrite store_keys_set_in.
  - rewrite store_set_fresh by assumption. unfold Heap.keys. rewrite map_app. simpl.
    apply List.NoDup_app; auto.
    + apply List.NoDup_cons; [simpl; tauto | apply List.NoDup_nil].
    + intros x Hx [<-|[]]. tauto.
Qed.

Lemma store_NoDup_spread base extra :
  List.NoDup (Heap.keys base) -> List.NoDup (Heap.keys (Heap.spread base extra)).
Proof.
  revert base. induction extra as [|[k v] rest IH]; intros base Hnd; simpl; auto.
  apply IH. now apply store_NoDup_set.
Qed.

(** A spread leaves alone the keys that the spread object lacks. *)
Lemma store_lookup_spread_absent q base extra :
  Heap.lookup q extra = None ->
  Heap.lookup q (Heap.spread base extra) = Heap.lookup q base.
Proof.
  revert base. induction extra as [|[k v] rest IH]; intros base; simpl; auto.
  destruct (String.eqb q k) eqn:E; [discriminate|].
  intros Hrest. rewrite (IH _ Hrest). apply store_lookup_set_ne.
  now apply String.eqb_neq.
Qed.

(** The copy of an object holds what the object holds. *)
Lemma store_lookup_spread q base o :
  List.NoDup (Heap.keys o) ->
  Heap.lookup q (Heap.spread base o)
  = match Heap.lookup q o with
    | Some v => Some v
    | None => Heap.lookup q base
    end.
Proof.
  revert base. induction o as [|[k v] rest IH]; intros base Hnd; [reflexivity|].
  cbn [Heap.keys map fst] in Hnd. apply List.NoDup_cons_iff in Hnd as [Hnot Hnd].
  change (Heap.spread base ((k, v) :: rest))
    with (Heap.spread (Heap.set k v base) rest).
  rewrite (IH _ Hnd). cbn [Heap.lookup].
  destruct (String.eqb q k) eqn:E.
  - apply String.eqb_eq in E. subst q.
    apply store_lookup_None_keys in Hnot. rewrite Hnot. apply store_lookup_set_eq.
  - apply String.eqb_neq in E. now rewrite store_lookup_set_ne.
Qed.

Lemma store_lookup_omit_in q names o :
  In q names -> Heap.lookup q (Heap.omit names o) = None.
Proof.
  intros Hin. apply store_lookup_None_keys. unfold Heap.keys, Heap.omit.
  intros H. apply in_map_iff in H as [[k v] [Hk H]]. simpl in Hk. subst k.
  apply filter_In in H as [_ H]. simpl in H.
  apply negb_true_iff in H.
  assert (existsb (String.eqb q) names = true); [|congruence].
  apply existsb_exists. exists q. split; auto. apply String.eqb_refl.
Qed.

(** Objects that exist keep their address and their content when objects
    are added, and when another object is written. *)
Lemma fields_app a h cs :
  a < length h -> Heap.fields_at (h ++ cs) a = Heap.fields_at h a.
Proof. intros H. unfold Heap.fields_at. now rewrite lookup_app_l. Qed.

Lemma lookup_write_ne a a' k x h :
  a <> a' -> Heap.write a' k x h !! a = h !! a.
Proof. intros H. unfold Heap.write. now apply list_lookup_alter_ne. Qed.

Lemma fields_write_ne a a' k x h :
  a <> a' -> Heap.fields_at (Heap.write a' k x h) a = Heap.fields_at h a.
Proof. intros H. unfold Heap.fields_at. now rewrite lookup_write_ne. Qed.

Lemma fields_write_eq a k x h :
  Heap.fields_at (Heap.write a k x h) a = Heap.set k x (Heap.fields_at h a)
  \/ (length h <= a /\ Heap.fields_at (Heap.write a k x h) a = []).
Proof.
  unfold Heap.fields_at, Heap.write. rewrite list_lookup_alter_eq.
  destruct (_ !! a) eqn:E.
  - left. reflexivity.
  - right. split; [|reflexivity]. now apply lookup_ge_None.
Qed.

Lemma length_write a k x h : length (Heap.write a k x h) = length h.
Proof. apply length_alter. Qed.

Lemma fields_alloc_new c h :
  Heap.fields_at (snd (Heap.alloc c h)) (fst (Heap.alloc c h)) = Heap.fields c.
Proof.
  unfold Heap.alloc, Heap.fields_at. cbn [fst snd].
  rewrite lookup_app_r by lia. now rewrite Nat.sub_diag.
Qed.

Lemma store_lookup_copy q o :
  List.NoDup (Heap.keys o) -> Heap.lookup q (Heap.spread [] o) = Heap.lookup q o.
Proof.
  intros Hnd. rewrite store_lookup_spread by assumption.
  now destruct (Heap.lookup q o).
Qed.

Lemma store_fresh_elsewhere (es pre post : Heap.props) key scheme :
  List.NoDup (Heap.keys es) ->
  es = pre ++ (key, scheme) :: post ->
  (forall k s, In (k, s) pre -> Heap.str_eq k (Heap.RStr key) = false)
  /\ (forall k s, In (k, s) post -> Heap.str_eq k (Heap.RStr key) = false).
Proof.
  intros Hnd ->. unfold Heap.keys in Hnd. rewrite map_app in Hnd. cbn [map fst] in Hnd.
  apply List.NoDup_remove_2 in Hnd.
  split; intros k s Hin; cbn [Heap.str_eq]; apply String.eqb_neq; intros ->;
    apply Hnd; apply in_or_app; [left | right];
    apply (in_map fst) in Hin; exact Hin.
Qed.

Lemma store_str_eq_true (k : string) (v : Heap.ref) :
  Heap.str_eq k v = true <-> v = Heap.RStr k.
Proof.
  destruct v; simpl; try (split; [discriminate | intros [=]]).
  rewrite String.eqb_eq. split; [now intros -> | now intros [= ->]].
Qed.

End StoreFacts.

(** ** The render over the store *)

Ltac bind_cases H :=
  repeat match type of H with
         | bind ?r _ = Ok _ =>
             let E := fresh "E" in
             let x := fresh "x" in
             destruct r as [x|] eqn:E; cbn [bind] in H; [|discriminate H]
         end.

Section StoreRender.

Variable cssVarsParser :
  Heap.store -> Heap.ref -> ParserOptions -> list Heap.cell * Heap.Parsed.
Variable deepmerge : Heap.store -> Heap.ref -> Heap.ref -> list Heap.cell * Heap.ref.
Variable useCurrentColorScheme : Heap.store -> Heap.hook_options -> Hook.state.
Variable createGetCssVar : Heap.store -> string -> list Heap.cell * Heap.ref.

Local Abbreviation store_locals := (Heap.locals useCurrentColorScheme).
Local Abbreviation store_initial := (Heap.initial cssVarsParser createGetCssVar).
Local Abbreviation store_merge := (Heap.parseAndMerge cssVarsParser deepmerge).
Local Abbreviation store_step := (Heap.schemeStep cssVarsParser deepmerge).
Local Abbreviation store_loop := (Heap.forEach cssVarsParser deepmerge).
Local Abbreviation store_render :=
  (Heap.render cssVarsParser deepmerge useCurrentColorScheme createGetCssVar).

Implicit Types (b : Heap.bindings) (l : Heap.Locals) (v : Heap.Vars)
  (h : Heap.store) (a : Heap.addr).

Lemma store_loop_cons b l e es v :
  store_loop b l (e :: es) v = bind (store_step b l v e) (store_loop b l es).
Proof. reflexivity. Qed.

Lemma store_loop_app b l pre post v :
  store_loop b l (pre ++ post) v
  = bind (store_loop b l pre v) (store_loop b l post).
Proof.
  revert v. induction pre as [|e pre IH]; intros v; [reflexivity|].
  cbn [app]. rewrite !store_loop_cons.
  destruct (store_step b l v e); cbn [bind]; auto.
Qed.

(** The parse and the merge add objects and write [vars] on the theme. *)
Lemma store_merge_spec n0 b v scheme h parsed :
  store_merge b v scheme = (h, parsed) ->
  Heap.fresh_vars n0 v ->
  length (Heap.objects v) <= length h
  /\ (forall a, a < length (Heap.objects v) -> a <> Heap.theme v ->
        h !! a = Heap.objects v !! a)
  /\ (forall q, q <> "vars"%string ->
        Heap.lookup q (Heap.fields_at h (Heap.theme v))
        = Heap.lookup q (Heap.fields_at (Heap.objects v) (Heap.theme v)))
  /\ List.NoDup (Heap.keys (Heap.fields_at h (Heap.theme v))).
Proof.
  unfold Heap.parseAndMerge. intros H (Ht0 & Hs0 & Ht & Hs & Hne & Hnd).
  destruct (cssVarsParser _ _ _) as [created parsed'].
  destruct (deepmerge _ _ _) as [created' merged].
  injection H as <- <-.
  assert (Hfields : Heap.fields_at
                      (Heap.write (Heap.theme v) "vars" merged
                         ((Heap.objects v ++ created) ++ created')) (Heap.theme v)
                    = Heap.set "vars" merged
                        (Heap.fields_at (Heap.objects v) (Heap.theme v))).
  { destruct (fields_write_eq (Heap.theme v) "vars" merged
                ((Heap.objects v ++ created) ++ created')) as [-> | [Hlen _]].
    - rewrite !fields_app; [reflexivity | | ]; rewrite ?length_app; lia.
    - rewrite !length_app in Hlen. lia. }
  split; [|split; [|split]].
  - rewrite length_write, !length_app. lia.
  - intros a Ha Hat. rewrite lookup_write_ne by assumption.
    rewrite !lookup_app_l; [reflexivity | | ]; rewrite ?length_app; lia.
  - intros q Hq. rewrite Hfields. now apply store_lookup_set_ne.
  - rewrite Hfields. now apply store_NoDup_set.
Qed.

(** The two writes, when they happen, land on the object that
    [theme.palette] refers to. *)
Lemma store_assign_spec l h theme h' :
  Heap.assignRuntimeFields l h theme = Ok h' ->
  (Heap.truthy (Heap.get "palette" (Heap.fields_at h theme)) = false /\ h' = h)
  \/ exists pa,
       Heap.get "palette" (Heap.fields_at h theme) = Heap.RObj pa
       /\ h' = Heap.write pa "colorScheme" (Heap.resolvedColorScheme l)
                 (Heap.write pa "mode" (Heap.of_option (Hook.mode (Heap.state l))) h).
Proof.
  unfold Heap.assignRuntimeFields.
  destruct (Heap.truthy _) eqn:Htruthy; [|intros [= <-]; now left].
  destruct (Heap.get "palette" (Heap.fields_at h theme)) as [ | | ? | ? | ? | pa] eqn:Hp;
    try discriminate.
  cbn [Heap.assign bind]. intros H. right. exists pa. split; [reflexivity|].
  assert (Hagain : Heap.get "palette"
                     (Heap.fields_at
                        (Heap.write pa "mode"
                           (Heap.of_option (Hook.mode (Heap.state l))) h) theme)
                   = Heap.RObj pa).
  { destruct (Nat.eq_dec theme pa) as [->|Hne].
    - destruct (fields_write_eq pa "mode"
                  (Heap.of_option (Hook.mode (Heap.state l))) h) as [-> | [Hlen _]].
      + unfold Heap.get in *. now rewrite store_lookup_set_ne by discriminate.
      + unfold Heap.fields_at in Hp. rewrite (lookup_ge_None_2 _ _ Hlen) in Hp.
        discriminate Hp.
    - now rewrite fields_write_ne. }
  rewrite Hagain in H. cbn [Heap.assign] in H. now injection H as <-.
Qed.

Lemma store_step_other n0 b l v key scheme v' :
  Heap.str_eq key (Heap.resolvedColorScheme l) = false ->
  store_step b l v (key, scheme) = Ok v' ->
  Heap.fresh_vars n0 v ->
  Heap.fresh_vars n0 v'
  /\ (forall a, a < n0 -> Heap.objects v' !! a = Heap.objects v !! a)
  /\ (forall q, q <> "vars"%string ->
        Heap.lookup q (Heap.fields_at (Heap.objects v') (Heap.theme v'))
        = Heap.lookup q (Heap.fields_at (Heap.objects v) (Heap.theme v))).
Proof.
  intros Hres H Hwf. unfold Heap.schemeStep in H.
  destruct (store_merge b v scheme) as [h parsed] eqn:Hm.
  destruct (store_merge_spec n0 b v scheme h parsed Hm Hwf)
    as (Hlen & Hold & Hkeep & Hnd).
  destruct Hwf as (Ht0 & Hs0 & Ht & Hs & Hne & _).
  rewrite Hres in H. cbn [bind] in H. bind_inv H. injection H as <-.
  cbn [Heap.objects Heap.theme Heap.styleSheet].
  split; [|split].
  - unfold Heap.fresh_vars. cbn [Heap.objects Heap.theme Heap.styleSheet].
    rewrite length_write, fields_write_ne by auto. repeat split; auto; lia.
  - intros i Hi. rewrite lookup_write_ne by lia. apply Hold; lia.
  - intros q Hq. rewrite fields_write_ne by auto. now apply Hkeep.
Qed.

Lemma store_step_resolved n0 b l v key scheme v' :
  Heap.str_eq key (Heap.resolvedColorScheme l) = true ->
  store_step b l v (key, scheme) = Ok v' ->
  Heap.fresh_vars n0 v ->
  Heap.fresh_vars n0 v'
  /\ (forall a c, a < n0 -> Heap.objects v !! a = Some c ->
        Heap.objects v' !! a = Some c
        \/ (Heap.get "palette"
              (Heap.spreadTheme (fst (store_merge b v scheme)) (Heap.theme v)
                 (snd (store_merge b v scheme))) = Heap.RObj a
            /\ Heap.objects v' !! a = Some (Heap.stamped l c)))
  /\ (forall q, q <> "mode"%string -> q <> "colorScheme"%string ->
        Heap.lookup q (Heap.fields_at (Heap.objects v') (Heap.theme v'))
        = Heap.lookup q
            (Heap.spreadTheme (fst (store_merge b v scheme)) (Heap.theme v)
               (snd (store_merge b v scheme)))).
Proof.
  intros Hres H Hwf. unfold Heap.schemeStep in H.
  destruct (store_merge b v scheme) as [h parsed] eqn:Hm. cbn [fst snd].
  destruct (store_merge_spec n0 b v scheme h parsed Hm Hwf)
    as (Hlen & Hold & Hkeep & Hnd).
  destruct Hwf as (Ht0 & Hs0 & Ht & Hs & Hne & _).
  rewrite Hres in H. unfold Heap.alloc in H.
  set (fs := Heap.spreadTheme h (Heap.theme v) parsed) in *.
  set (h1 := h ++ [Heap.object fs]) in *.
  assert (Hnew : h1 !! length h = Some (Heap.object fs)).
  { subst h1. rewrite lookup_app_r by lia. now rewrite Nat.sub_diag. }
  assert (Hfs : Heap.fields_at h1 (length h) = fs).
  { unfold Heap.fields_at. now rewrite Hnew. }
  assert (Hndfs : List.NoDup (Heap.keys fs)).
  { subst fs. unfold Heap.spreadTheme. apply store_NoDup_spread, store_NoDup_spread.
    apply List.NoDup_nil. }
  assert (Hlen1 : length h1 = S (length h)).
  { subst h1. rewrite length_app. cbn. lia. }
  destruct (Heap.assignRuntimeFields l h1 (length h)) as [h3|] eqn:Hassign;
    [cbn [bind] in H | discriminate H].
  bind_inv H. injection H as <-.
  cbn [Heap.objects Heap.theme Heap.styleSheet].
  apply store_assign_spec in Hassign. rewrite Hfs in Hassign.
  assert (Hsa : Heap.styleSheet v <> length h) by lia.
  destruct Hassign as [[_ ->] | (pa & Hpa & ->)].
  - split; [|split].
    + unfold Heap.fresh_vars. cbn [Heap.objects Heap.theme Heap.styleSheet].
      rewrite length_write, fields_write_ne, Hfs by auto.
      repeat split; auto; lia.
    + intros i c Hi Hc. left. rewrite lookup_write_ne by lia.
      subst h1. rewrite lookup_app_l by lia. rewrite Hold by lia. exact Hc.
    + intros q _ _. rewrite fields_write_ne by auto. now rewrite Hfs.
  - set (M := Heap.of_option (Hook.mode (Heap.state l))) in *.
    set (R := Heap.resolvedColorScheme l) in *.
    assert (Htheme : forall q, q <> "mode"%string -> q <> "colorScheme"%string ->
              Heap.lookup q
                (Heap.fields_at (Heap.write pa "colorScheme" R (Heap.write pa "mode" M h1))
                   (length h))
              = Heap.lookup q fs).
    { intros q Hq1 Hq2. destruct (Nat.eq_dec (length h) pa) as [<-|Hpne].
      - unfold Heap.fields_at, Heap.write.
        rewrite !list_lookup_alter_eq, Hnew. cbn.
        now rewrite !store_lookup_set_ne by assumption.
      - now rewrite !fields_write_ne, Hfs by auto. }
    assert (Hndt : List.NoDup
                     (Heap.keys
                        (Heap.fields_at
                           (Heap.write pa "colorScheme" R (Heap.write pa "mode" M h1))
                           (length h)))).
    { destruct (Nat.eq_dec (length h) pa) as [<-|Hpne].
      - unfold Heap.fields_at, Heap.write.
        rewrite !list_lookup_alter_eq, Hnew. cbn.
        now apply store_NoDup_set, store_NoDup_set.
      - now rewrite !fields_write_ne, Hfs by auto. }
    split; [|split].
    + unfold Heap.fresh_vars. cbn [Heap.objects Heap.theme Heap.styleSheet].
      rewrite !length_write, fields_write_ne by auto.
      repeat split; auto; lia.
    + intros i c Hi Hc. rewrite lookup_write_ne by lia.
      assert (Hc1 : h1 !! i = Some c).
      { subst h1. rewrite lookup_app_l by lia. rewrite Hold by lia. exact Hc. }
      destruct (Nat.eq_dec i pa) as [->|Hapa].
      * right. split; [exact Hpa|].
        unfold Heap.write. rewrite !list_lookup_alter_eq, Hc1. reflexivity.
      * left. now rewrite !lookup_write_ne by auto.
    + intros q Hq1 Hq2. rewrite fields_write_ne by auto. now apply Htheme.
Qed.

(** Passes for schemes other than the resolved one change no object that
    existed before the render, and on the theme only [vars]. *)
Lemma store_loop_others n0 b l es v v' :
  (forall k s, In (k, s) es -> Heap.str_eq k (Heap.resolvedColorScheme l) = false) ->
  store_loop b l es v = Ok v' ->
  Heap.fresh_vars n0 v ->
  Heap.fresh_vars n0 v'
  /\ (forall a, a < n0 -> Heap.objects v' !! a = Heap.objects v !! a)
  /\ (forall q, q <> "vars"%string ->
        Heap.lookup q (Heap.fields_at (Heap.objects v') (Heap.theme v'))
        = Heap.lookup q (Heap.fields_at (Heap.objects v) (Heap.theme v))).
Proof.
  revert v. induction es as [|[k s] es IH]; intros v Hoth H Hwf.
  - injection H as <-. auto.
  - rewrite store_loop_cons in H.
    destruct (store_step b l v (k, s)) as [v1|] eqn:E;
      [cbn [bind] in H | discriminate H].
    destruct (store_step_other n0 b l v k s v1 (Hoth k s (or_introl eq_refl)) E Hwf)
      as (Hwf1 & Hold1 & Hkeep1).
    destruct (IH v1 (fun k' s' Hin => Hoth k' s' (or_intror Hin)) H Hwf1)
      as (Hwf' & Hold' & Hkeep').
    split; [exact Hwf'|]. split.
    + intros a Ha. rewrite Hold' by assumption. now apply Hold1.
    + intros q Hq. rewrite Hkeep' by assumption. now apply Hkeep1.
Qed.

(** The constants of lines 64-95: what was destructured, and where. *)
Lemma store_locals_spec h0 b l :
  store_locals h0 b = Ok l ->
  exists es,
    Heap.own_entries h0 (Heap.themeProp b) = Ok es
    /\ (forall a, a < length h0 -> Heap.after l !! a = h0 !! a)
    /\ length h0 <= Heap.restThemeProp l < length (Heap.after l)
    /\ Heap.fields_at (Heap.after l) (Heap.restThemeProp l)
       = Heap.omit ["colorSchemes"%string; "components"%string] es
    /\ (Heap.get "colorSchemes" es <> Heap.RUndefined ->
        Heap.colorSchemes l = Heap.get "colorSchemes" es)
    /\ (Heap.get "colorSchemes" es = Heap.RUndefined ->
        exists a, Heap.colorSchemes l = Heap.RObj a /\ length h0 <= a
                  /\ Heap.after l !! a = Some (Heap.object []))
    /\ (Heap.get "components" es <> Heap.RUndefined ->
        Heap.components l = Heap.get "components" es)
    /\ (Heap.get "components" es = Heap.RUndefined ->
        exists a, Heap.components l = Heap.RObj a /\ length h0 <= a
                  /\ Heap.after l !! a = Some (Heap.object [])).
Proof.
  unfold Heap.locals. intros H.
  destruct (Heap.own_entries h0 (Heap.themeProp b)) as [es|] eqn:Hes;
    [cbn [bind] in H | discriminate H].
  exists es. split; [reflexivity|].
  destruct (Heap.or_empty (Heap.get "colorSchemes" es) h0) as [cs h1] eqn:Hcs.
  destruct (Heap.or_empty (Heap.get "components" es) h1) as [cp h2] eqn:Hcp.
  unfold Heap.alloc in H. bind_cases H. injection H as <-.
  cbn [Heap.after Heap.restThemeProp Heap.colorSchemes Heap.components].
  assert (H1 : length h0 <= length h1
               /\ (forall a, a < length h0 -> h1 !! a = h0 !! a)
               /\ (Heap.get "colorSchemes" es <> Heap.RUndefined ->
                   cs = Heap.get "colorSchemes" es)
               /\ (Heap.get "colorSchemes" es = Heap.RUndefined ->
                   exists a, cs = Heap.RObj a /\ length h0 <= a
                             /\ h1 !! a = Some (Heap.object []))).
  { unfold Heap.or_empty, Heap.alloc in Hcs.
    destruct (Heap.get "colorSchemes" es); injection Hcs as <- <-.
    1: { rewrite length_app. split; [lia|].
         split; [intros i Hi; now rewrite lookup_app_l|].
         split; [congruence|]. intros _. exists (length h0).
         split; [reflexivity|]. split; [lia|].
         rewrite lookup_app_r by lia. now rewrite Nat.sub_diag. }
    all: split; [lia|]; split; [reflexivity|]; split; [reflexivity|]; discriminate. }
  assert (H2 : length h1 <= length h2
               /\ (forall a, a < length h1 -> h2 !! a = h1 !! a)
               /\ (Heap.get "components" es <> Heap.RUndefined ->
                   cp = Heap.get "components" es)
               /\ (Heap.get "components" es = Heap.RUndefined ->
                   exists a, cp = Heap.RObj a /\ length h1 <= a
                             /\ h2 !! a = Some (Heap.object []))).
  { unfold Heap.or_empty, Heap.alloc in Hcp.
    destruct (Heap.get "components" es); injection Hcp as <- <-.
    1: { rewrite length_app. split; [lia|].
         split; [intros i Hi; now rewrite lookup_app_l|].
         split; [congruence|]. intros _. exists (length h1).
         split; [reflexivity|]. split; [lia|].
         rewrite lookup_app_r by lia. now rewrite Nat.sub_diag. }
    all: split; [lia|]; split; [reflexivity|]; split; [reflexivity|]; discriminate. }
  destruct H1 as (Hl1 & Hold1 & Hcs1 & Hcs2), H2 as (Hl2 & Hold2 & Hcp1 & Hcp2).
  split; [|split; [|split; [|split; [|split; [|split]]]]].
  - intros i Hi. rewrite lookup_app_l by lia. rewrite Hold2 by lia. now apply Hold1.
  - rewrite length_app. cbn. lia.
  - unfold Heap.fields_at. rewrite lookup_app_r by lia. now rewrite Nat.sub_diag.
  - exact Hcs1.
  - intros Hu. destruct (Hcs2 Hu) as (i & -> & Hi & Hcell).
    exists i. repeat split; [exact Hi|].
    rewrite lookup_app_l by (apply lookup_lt_Some in Hcell; lia).
    rewrite Hold2 by (apply lookup_lt_Some in Hcell; lia). exact Hcell.
  - exact Hcp1.
  - intros Hu. destruct (Hcp2 Hu) as (i & -> & Hi & Hcell).
    exists i. repeat split; [lia|].
    rewrite lookup_app_l by (apply lookup_lt_Some in Hcell; lia). exact Hcell.
Qed.

(** The theme assembled at lines 108-115 and the empty style sheet. *)
Lemma store_initial_spec n0 b l :
  n0 <= length (Heap.after l) ->
  Heap.fresh_vars n0 (fst (store_initial b l))
  /\ (forall a, a < length (Heap.after l) ->
        Heap.objects (fst (store_initial b l)) !! a = Heap.after l !! a)
  /\ Heap.lookup "components"
       (Heap.fields_at (Heap.objects (fst (store_initial b l)))
          (Heap.theme (fst (store_initial b l))))
     = Some (Heap.components l)
  /\ Heap.lookup "colorSchemes"
       (Heap.fields_at (Heap.objects (fst (store_initial b l)))
          (Heap.theme (fst (store_initial b l))))
     = Some (Heap.colorSchemes l).
Proof.
  intros Hn0. unfold Heap.initial, Heap.alloc.
  destruct (cssVarsParser _ _ _) as [created parsed].
  destruct (createGetCssVar _ _) as [created' getCssVar].
  cbn [fst snd Heap.objects Heap.theme Heap.styleSheet].
  set (h := Heap.after l ++ created).
  set (fs := Heap.set "vars" _ _).
  set (h1 := h ++ [Heap.object fs]).
  set (h2 := Heap.write (length h) "getCssVar" getCssVar (h1 ++ created')).
  assert (Hh : length (Heap.after l) <= length h)
    by (subst h; rewrite length_app; lia).
  assert (Hh1 : length h1 = S (length h))
    by (subst h1; rewrite length_app; cbn; lia).
  assert (Hh2 : S (length h) <= length h2)
    by (subst h2; rewrite length_write, length_app; lia).
  assert (Hnew : (h1 ++ created') !! length h = Some (Heap.object fs)).
  { rewrite lookup_app_l by lia. subst h1.
    rewrite lookup_app_r by lia. now rewrite Nat.sub_diag. }
  assert (Hfields : Heap.fields_at (h2 ++ [Heap.object []]) (length h)
                    = Heap.set "getCssVar" getCssVar fs).
  { rewrite fields_app by lia. subst h2. unfold Heap.fields_at, Heap.write.
    now rewrite list_lookup_alter_eq, Hnew. }
  assert (Hnd : List.NoDup (Heap.keys fs)).
  { subst fs. repeat apply store_NoDup_set. apply store_NoDup_spread.
    apply List.NoDup_nil. }
  split; [|split; [|split]].
  - unfold Heap.fresh_vars. cbn [Heap.objects Heap.theme Heap.styleSheet].
    rewrite Hfields, length_app. cbn [length].
    repeat split; try lia. now apply store_NoDup_set.
  - intros a Ha. rewrite lookup_app_l by lia. subst h2.
    rewrite lookup_write_ne by lia. rewrite lookup_app_l by lia.
    subst h1. rewrite lookup_app_l by lia. subst h. now rewrite lookup_app_l.
  - rewrite Hfields. subst fs.
    rewrite !store_lookup_set_ne by discriminate. apply store_lookup_set_eq.
  - rewrite Hfields. subst fs.
    rewrite !store_lookup_set_ne by discriminate. apply store_lookup_set_eq.
Qed.

(** The whole loop: no object that existed before the render changes,
    but for the one that [theme.palette] refers to in the pass of the
    resolved scheme; and a key of the theme other than [vars], [palette],
    [mode] and [colorScheme] is left as the assembly made it unless that
    pass rebinds it. *)
Lemma store_loop_spec n0 b l v0 v :
  List.NoDup (Heap.keys (Heap.schemeEntries l)) ->
  store_loop b l (Heap.schemeEntries l) v0 = Ok v ->
  Heap.fresh_vars n0 v0 ->
  (forall a c, a < n0 -> Heap.objects v0 !! a = Some c ->
     Heap.objects v !! a = Some c
     \/ (Heap.get "palette" (Heap.fields_at (Heap.objects v) (Heap.theme v))
         = Heap.RObj a
         /\ (exists key scheme,
               In (key, scheme) (Heap.schemeEntries l)
               /\ Heap.resolvedColorScheme l = Heap.RStr key)
         /\ Heap.objects v !! a = Some (Heap.stamped l c)))
  /\ (forall q,
        q <> "vars"%string -> q <> "mode"%string -> q <> "colorScheme"%string ->
        (forall pre key scheme post va,
            Heap.schemeEntries l = pre ++ (key, scheme) :: post ->
            Heap.resolvedColorScheme l = Heap.RStr key ->
            store_loop b l pre v0 = Ok va ->
            Heap.lookup q
              (Heap.spread_entries (fst (store_merge b va scheme))
                 (Heap.parsedTheme (snd (store_merge b va scheme)))) = None) ->
        Heap.lookup q (Heap.fields_at (Heap.objects v) (Heap.theme v))
        = Heap.lookup q (Heap.fields_at (Heap.objects v0) (Heap.theme v0))).
Proof.
  intros Hnd Hloop Hwf.
  destruct (existsb (fun e => Heap.str_eq (fst e) (Heap.resolvedColorScheme l))
              (Heap.schemeEntries l)) eqn:Hex.
  - apply existsb_exists in Hex as ([key scheme] & Hin & Hk). cbn [fst] in Hk.
    pose proof Hk as Hres. apply store_str_eq_true in Hres.
    destruct (in_split _ _ Hin) as (pre & post & Hsplit).
    destruct (store_fresh_elsewhere _ pre post key scheme Hnd Hsplit) as [Hpre Hpost].
    rewrite <- Hres in Hpre, Hpost.
    rewrite Hsplit, store_loop_app in Hloop.
    destruct (store_loop b l pre v0) as [va|] eqn:Ea;
      [cbn [bind] in Hloop | discriminate Hloop].
    rewrite store_loop_cons in Hloop.
    destruct (store_step b l va (key, scheme)) as [vb|] eqn:Eb;
      [cbn [bind] in Hloop | discriminate Hloop].
    destruct (store_loop_others n0 b l pre v0 va Hpre Ea Hwf)
      as (Hwfa & Holda & Hkeepa).
    destruct (store_step_resolved n0 b l va key scheme vb Hk Eb Hwfa)
      as (Hwfb & Holdb & Hkeepb).
    destruct (store_loop_others n0 b l post vb v Hpost Hloop Hwfb)
      as (_ & Hold & Hkeep).
    split.
    + intros a c Ha Hc. rewrite Hold by assumption.
      rewrite <- Holda in Hc by assumption.
      destruct (Holdb a c Ha Hc) as [Hsame | [Hpal Hst]]; [now left|].
      right. split; [|split; [eauto | exact Hst]].
      unfold Heap.get. rewrite Hkeep by discriminate.
      rewrite Hkeepb by discriminate. exact Hpal.
    + intros q Hq1 Hq2 Hq3 Habs.
      rewrite Hkeep by assumption. rewrite Hkeepb by assumption.
      destruct (store_merge b va scheme) as [h parsed] eqn:Hm.
      destruct (store_merge_spec n0 b va scheme h parsed Hm Hwfa)
        as (_ & _ & Hkeepm & Hndm).
      cbn [fst snd]. unfold Heap.spreadTheme.
      rewrite store_lookup_spread_absent.
      * rewrite store_lookup_copy by assumption.
        rewrite Hkeepm by assumption. now apply Hkeepa.
      * specialize (Habs pre key scheme post va Hsplit Hres Ea).
        now rewrite Hm in Habs.
  - destruct (store_loop_others n0 b l (Heap.schemeEntries l) v0 v) as (_ & Hold & Hkeep);
      [ | exact Hloop | exact Hwf | ].
    + intros k s Hin.
      destruct (Heap.str_eq k (Heap.resolvedColorScheme l)) eqn:Hk; [|reflexivity].
      assert (existsb (fun e => Heap.str_eq (fst e) (Heap.resolvedColorScheme l))
                (Heap.schemeEntries l) = true); [|congruence].
      apply existsb_exists. exists (k, s). auto.
    + split.
      * intros a c Ha Hc. left. now rewrite Hold.
      * intros q Hq _ _ _. now apply Hkeep.
Qed.

End StoreRender.

(** ** The two sub-objects of the theme *)

(** With the parser of the spec, emptying the registry of the sample theme
    empties the style sheet, so CSS variables are generated from
    [colorSchemes]. *)
Lemma color_schemes_do_generate_variables :
  ~ variablesIgnore Model.cssVarsParser Model.deepmerge
      (Model.snapshot (Some "light"%string) None (Some "light"%string))
      Model.createGetCssVar "data-attr" "mode" "colorSchemes".
Proof.
  intros H.
  destruct (H Model.sampleSystem (withTheme Model.sampleTheme Model.noProps)
              _ (VObj []) _ eq_refl eq_refl) as (r' & Hr' & _ & Hsheet & _).
  vm_compute in Hr'. injection Hr' as <-.
  vm_compute in Hsheet. discriminate Hsheet.
Qed.

Section SubObjects.

Variable cssVarsParser : value -> ParserOptions -> Parsed.
Variable deepmerge : value -> value -> value.
Variable useCurrentColorScheme : Hook.options -> Hook.state.
Variable createGetCssVar : string -> value.
Variable DEFAULT_ATTRIBUTE DEFAULT_MODE_STORAGE_KEY : string.

(** The same imports over the store. *)
Variable parseInStore :
  Heap.store -> Heap.ref -> ParserOptions -> list Heap.cell * Heap.Parsed.
Variable mergeInStore :
  Heap.store -> Heap.ref -> Heap.ref -> list Heap.cell * Heap.ref.
Variable hookInStore : Heap.store -> Heap.hook_options -> Hook.state.
Variable getCssVarInStore : Heap.store -> string -> list Heap.cell * Heap.ref.

Local Abbreviation localsOf :=
  (renderLocals useCurrentColorScheme DEFAULT_ATTRIBUTE DEFAULT_MODE_STORAGE_KEY).
Local Abbreviation render :=
  (renderCssVarsProvider cssVarsParser deepmerge useCurrentColorScheme
     createGetCssVar DEFAULT_ATTRIBUTE DEFAULT_MODE_STORAGE_KEY).
Local Abbreviation rebinds :=
  (Heap.rebinds parseInStore mergeInStore getCssVarInStore).

(** C10, amended.  [colorSchemes] and [components] are taken out of the
    theme before the root parse, so the root parse sees neither and the
    root style sheet holds nothing from them.  [components] never reaches
    the parser at all: no style sheet and no variable depends on it.
    (Each entry of [colorSchemes] is parsed on its own in the loop, which
    is where its variables come from.)  Over the store: the root parse is
    given a new object that holds the properties of the supplied theme
    but these two; the two names of the theme of the render refer to the
    very objects that the supplied theme refers to, unless the spread of
    the parsed theme of the resolved scheme has a property of that name,
    which then takes its place; and the render changes no object that
    existed before it, but for the one that [theme.palette] refers to in
    the pass of the resolved scheme, on which [mode] and [colorScheme] are
    set.  Without [resolveTheme] the theme of the render is the one
    handed to descendants. *)
Theorem sub_objects_bypass_the_root_parse ds props l r t :
  Js.or_default (Props.theme props) (defaultTheme ds) = VObj t ->
  localsOf ds props = Ok l ->
  render ds props = Ok r ->
  (restThemeProp l = Js.omit ["colorSchemes"%string; "components"%string] t
   /\ Js.lookup "colorSchemes" (restThemeProp l) = None
   /\ Js.lookup "components" (restThemeProp l) = None
   /\ rootStyles r
      = [(":root"%string,
          css (cssVarsParser (VObj (restThemeProp l)) (parserOptions ds l)))])
  /\ variablesIgnore cssVarsParser deepmerge useCurrentColorScheme createGetCssVar
       DEFAULT_ATTRIBUTE DEFAULT_MODE_STORAGE_KEY "components"
  /\ (forall h0 b sl sr,
        Heap.locals hookInStore h0 b = Ok sl ->
        Heap.render parseInStore mergeInStore hookInStore getCssVarInStore h0 b
        = Ok sr ->
        List.NoDup (Heap.keys (Heap.schemeEntries sl)) ->
        (exists es,
            Heap.own_entries h0 (Heap.themeProp b) = Ok es
            /\ length h0 <= Heap.restThemeProp sl
            /\ Heap.fields_at (Heap.after sl) (Heap.restThemeProp sl)
               = Heap.omit ["colorSchemes"%string; "components"%string] es
            /\ Heap.rootCss sr
               = Heap.css
                   (snd (parseInStore (Heap.after sl)
                           (Heap.RObj (Heap.restThemeProp sl))
                           (Heap.parserOptions b)))
            /\ (Heap.get "colorSchemes" es <> Heap.RUndefined ->
                Heap.colorSchemes sl = Heap.get "colorSchemes" es)
            /\ (Heap.get "colorSchemes" es = Heap.RUndefined ->
                exists a, Heap.colorSchemes sl = Heap.RObj a /\ length h0 <= a
                          /\ Heap.after sl !! a = Some (Heap.object []))
            /\ (Heap.get "components" es <> Heap.RUndefined ->
                Heap.components sl = Heap.get "components" es)
            /\ (Heap.get "components" es = Heap.RUndefined ->
                exists a, Heap.components sl = Heap.RObj a /\ length h0 <= a
                          /\ Heap.after sl !! a = Some (Heap.object [])))
        /\ (~ rebinds "components" b sl ->
            Heap.get "components"
              (Heap.fields_at (Heap.objects (Heap.final sr))
                 (Heap.theme (Heap.final sr)))
            = Heap.components sl)
        /\ (~ rebinds "colorSchemes" b sl ->
            Heap.get "colorSchemes"
              (Heap.fields_at (Heap.objects (Heap.final sr))
                 (Heap.theme (Heap.final sr)))
            = Heap.colorSchemes sl)
        /\ (forall a c,
              h0 !! a = Some c ->
              Heap.objects (Heap.final sr) !! a = Some c
              \/ (Heap.get "palette"
                    (Heap.fields_at (Heap.objects (Heap.final sr))
                       (Heap.theme (Heap.final sr)))
                  = Heap.RObj a
                  /\ (exists key scheme,
                        In (key, scheme) (Heap.schemeEntries sl)
                        /\ Heap.resolvedColorScheme sl = Heap.RStr key)
                  /\ Heap.objects (Heap.final sr) !! a
                     = Some (Heap.stamped sl c))))
  /\ (resolveTheme ds = None -> providedTheme r = VObj (theme r)).
Proof.
  intros Htheme Hl Hr.
  destruct (render_inv _ _ _ _ _ _ ds props l r Hl Hr)
    as (tt & ss & Hloop & <- & _ & Hroot & Hprov & _).
  assert (Hrest : restThemeProp l
                  = Js.omit ["colorSchemes"%string; "components"%string] t).
  { unfold renderLocals in Hl. rewrite Htheme in Hl. cbn [Js.own_entries bind] in Hl.
    bind_inv Hl. now injection Hl as <-. }
  split; [|split; [|split]].
  - rewrite Hrest. repeat split.
    + apply lookup_omit_in. now left.
    + apply lookup_omit_in. right. now left.
    + rewrite <- Hrest. exact Hroot.
  - apply components_ignored.
  - intros h0 b sl sr Hsl Hsr Hnd.
    destruct (store_locals_spec hookInStore h0 b sl Hsl)
      as (es & Hes & Hold & Hfresh & Hfields & Hcs & Hcs' & Hcp & Hcp').
    unfold Heap.render in Hsr. rewrite Hsl in Hsr. cbn [bind] in Hsr.
    destruct (Heap.forEach _ _ _ _ _ _) as [v|] eqn:Hsloop;
      [cbn [bind] in Hsr | discriminate Hsr].
    injection Hsr as <-. cbn [Heap.final Heap.rootCss].
    destruct (store_initial_spec parseInStore getCssVarInStore (length h0) b sl)
      as (Hwf & Hold0 & Hcomp & Hschemes); [lia|].
    destruct (store_loop_spec parseInStore mergeInStore (length h0) b sl _ v
                Hnd Hsloop Hwf) as (Hframe & Hkeep).
    assert (Hpass : forall q,
               q <> "vars"%string -> q <> "mode"%string -> q <> "colorScheme"%string ->
               ~ rebinds q b sl ->
               Heap.lookup q (Heap.fields_at (Heap.objects v) (Heap.theme v))
               = Heap.lookup q
                   (Heap.fields_at
                      (Heap.objects
                         (fst (Heap.initial parseInStore getCssVarInStore b sl)))
                      (Heap.theme
                         (fst (Heap.initial parseInStore getCssVarInStore b sl))))).
    { intros q Hq1 Hq2 Hq3 Hnot. apply Hkeep; try assumption.
      intros pre key scheme post va Hsplit Hres Hpre.
      destruct (Heap.lookup q _) eqn:Hq; [|reflexivity].
      exfalso. apply Hnot. exists pre, key, scheme, post, va.
      repeat split; try assumption. now rewrite Hq. }
    split; [|split; [|split]].
    + exists es. split; [exact Hes|]. split; [lia|]. split; [exact Hfields|].
      split; [|repeat split; assumption].
      unfold Heap.initial.
      destruct (parseInStore _ _ _) as [created parsed].
      unfold Heap.alloc. now destruct (getCssVarInStore _ _).
    + intros Hnot. unfold Heap.get.
      rewrite (Hpass "components") by (discriminate || assumption).
      now rewrite Hcomp.
    + intros Hnot. unfold Heap.get.
      rewrite (Hpass "colorSchemes") by (discriminate || assumption).
      now rewrite Hschemes.
    + intros a c Hc. apply Hframe.
      * now apply lookup_lt_Some in Hc.
      * rewrite Hold0 by (apply lookup_lt_Some in Hc; lia).
        rewrite Hold by (now apply lookup_lt_Some in Hc). exact Hc.
  - intros Hnone. now rewrite Hprov, Hnone.
Qed.

End SubObjects.

(** ** Concrete renders *)

Ltac two_keys :=
  repeat (apply List.NoDup_cons; [cbn; intuition discriminate|]); apply List.NoDup_nil.

Ltac each_entry H :=
  cbn in H; repeat (destruct H as [H|H]; [injection H as <- <-|]); [..|destruct H].

Ltac sample_run l r Hl Hr :=
  destruct (Model.locals _ _ _) as [l|] eqn:Hl; [|vm_compute in Hl; discriminate Hl];
  destruct (Model.render _ _ _) as [r|] eqn:Hr; [|vm_compute in Hr; discriminate Hr];
  exists l, r; split; [reflexivity|]; split; [reflexivity|].

Ltac sample_values Hl Hr :=
  vm_compute in Hl; injection Hl as <-; vm_compute in Hr; injection Hr as <-.

(** The sample theme, default scheme "light", the hook reporting mode
    "light" and scheme "dark". *)
Lemma style_sheet_selectors_witness :
  exists l r,
    Model.locals Model.sampleSystem Model.noProps
      (Model.snapshot (Some "light"%string) None (Some "dark"%string)) = Ok l
    /\ Model.render Model.sampleSystem Model.noProps
         (Model.snapshot (Some "light"%string) None (Some "dark"%string)) = Ok r
    /\ List.NoDup (Js.keys (schemeEntries l))
    /\ Js.lookup ":root" (styleSheet r) = Some (VStr "--palette-primary:blue;")
    /\ Js.lookup (attributeSelector "data-attr" "dark") (styleSheet r)
       = Some (VStr "--palette-primary:navy;").
Proof.
  sample_run l r Hl Hr.
  pose proof (fun Hnd =>
                proj2 (style_sheet_selectors
                         Model.cssVarsParser Model.deepmerge
                         (Model.snapshot (Some "light"%string) None (Some "dark"%string))
                         Model.createGetCssVar "data-attr" "mode"
                         Model.sampleSystem Model.noProps l r Hl Hr Hnd)
                  Model.lightScheme Model.darkScheme) as T.
  sample_values Hl Hr.
  assert (Hnd : List.NoDup (Js.keys [("light"%string, Model.lightScheme);
                                     ("dark"%string, Model.darkScheme)]))
    by two_keys.
  split; [exact Hnd|].
  exact (T Hnd (or_introl eq_refl) eq_refl eq_refl).
Defined.

Lemma theme_vars_merge_all_schemes_witness :
  exists l r,
    Model.locals Model.sampleSystem Model.noProps
      (Model.snapshot (Some "light"%string) None (Some "dark"%string)) = Ok l
    /\ Model.render Model.sampleSystem Model.noProps
         (Model.snapshot (Some "light"%string) None (Some "dark"%string)) = Ok r
    /\ Js.get "vars" (theme r)
       = VObj [("--fontSize"%string, VNum 14);
               ("--palette-primary"%string, VStr "navy")].
Proof.
  sample_run l r Hl Hr.
  pose proof (fun Hvars =>
                proj1 (theme_vars_merge_all_schemes
                         Model.cssVarsParser Model.deepmerge
                         (Model.snapshot (Some "light"%string) None (Some "dark"%string))
                         Model.createGetCssVar "data-attr" "mode"
                         Model.sampleSystem Model.noProps l r Hl Hr) Hvars) as T.
  sample_values Hl Hr.
  refine (eq_trans (T _) _).
  - intros key scheme Hin _. each_entry Hin; reflexivity.
  - vm_compute; reflexivity.
Defined.

(** The claim C7 as worded, with the parser of the spec: the one scheme
    of the registry, which is the resolved one, has a top-level [vars];
    the parsed theme mirrors it, and the spread puts it in place of the
    aggregate, so that the root variable is gone from [theme.vars]. *)
Lemma resolved_scheme_vars_replace_the_aggregate :
  exists l r,
    Model.locals Cases.varsSystem Model.noProps
      (Model.snapshot (Some "light"%string) None (Some "light"%string)) = Ok l
    /\ Model.render Cases.varsSystem Model.noProps
         (Model.snapshot (Some "light"%string) None (Some "light"%string)) = Ok r
    /\ fold_left
         (fun acc entry =>
            Model.deepmerge acc
              (vars (Model.cssVarsParser (snd entry) (parserOptions Cases.varsSystem l))))
         (schemeEntries l)
         (vars (rootParse Model.cssVarsParser Cases.varsSystem l))
       = VObj [("--fontSize"%string, VNum 14); ("--vars-gap"%string, VNum 4)]
    /\ Js.get "vars" (theme r) = VObj [("gap"%string, VStr "var(--vars-gap)")].
Proof.
  eexists _, _. repeat split; vm_compute; reflexivity.
Qed.

Lemma palette_runtime_fields_witness :
  exists l r,
    Model.locals Model.sampleSystem Model.noProps
      (Model.snapshot (Some "light"%string) None (Some "dark"%string)) = Ok l
    /\ Model.render Model.sampleSystem Model.noProps
         (Model.snapshot (Some "light"%string) None (Some "dark"%string)) = Ok r
    /\ resolvedColorScheme l = VStr "dark"
    /\ Js.get "palette" (theme r)
       = VObj [("primary"%string, VStr "var(--palette-primary)");
               ("mode"%string, VStr "light");
               ("colorScheme"%string, VStr "dark")].
Proof.
  sample_run l r Hl Hr.
  pose proof (fun Hnd Hres Hin =>
                proj1 (palette_runtime_fields
                         Model.cssVarsParser Model.deepmerge
                         (Model.snapshot (Some "light"%string) None (Some "dark"%string))
                         Model.createGetCssVar "data-attr" "mode"
                         Model.sampleSystem Model.noProps l r
                         "dark"%string Model.darkScheme Hl Hr Hnd Hres Hin)) as T.
  sample_values Hl Hr.
  split; [reflexivity|].
  refine (T _ eq_refl _ [("primary"%string, VStr "var(--palette-primary)")] eq_refl).
  - two_keys.
  - right. left. reflexivity.
Defined.

Lemma sub_objects_bypass_the_root_parse_witness :
  exists l r sl sr,
    Model.locals Model.sampleSystem Model.noProps
      (Model.snapshot (Some "light"%string) None (Some "dark"%string)) = Ok l
    /\ Model.render Model.sampleSystem Model.noProps
         (Model.snapshot (Some "light"%string) None (Some "dark"%string)) = Ok r
    /\ Heap.locals (Heap.snapshot (Some "light"%string) None (Some "light"%string))
         Heap.sharedPalette (Heap.bindingsOf 3) = Ok sl
    /\ Heap.run Heap.sharedPalette 3 = Ok sr
    /\ restThemeProp l = [("fontSize"%string, VNum 14)]
    /\ rootStyles r = [(":root"%string, VStr "--fontSize:14;")]
    /\ Heap.objects (Heap.final sr) !! 3
       = Some (Heap.object [("colorSchemes"%string, Heap.RObj 2)]).
Proof.
  destruct (Model.locals _ _ _) as [l|] eqn:Hl; [|vm_compute in Hl; discriminate Hl].
  destruct (Model.render _ _ _) as [r|] eqn:Hr; [|vm_compute in Hr; discriminate Hr].
  destruct (Heap.locals _ _ _) as [sl|] eqn:Hsl; [|vm_compute in Hsl; discriminate Hsl].
  destruct (Heap.run _ _) as [sr|] eqn:Hsr; [|vm_compute in Hsr; discriminate Hsr].
  exists l, r, sl, sr. do 4 (split; [reflexivity|]).
  pose proof (sub_objects_bypass_the_root_parse
                Model.cssVarsParser Model.deepmerge
                (Model.snapshot (Some "light"%string) None (Some "dark"%string))
                Model.createGetCssVar "data-attr" "mode"
                (Heap.parser 8) Heap.merge
                (Heap.snapshot (Some "light"%string) None (Some "light"%string))
                Heap.getCssVar
                Model.sampleSystem Model.noProps l r _ eq_refl Hl Hr)
    as ((Hrest & _ & _ & Hroot) & _ & Hstore & _).
  specialize (Hstore Heap.sharedPalette (Heap.bindingsOf 3) sl sr Hsl Hsr).
  sample_values Hl Hr.
  split; [exact Hrest|]. split; [exact Hroot|].
  vm_compute in Hsl. injection Hsl as <-.
  vm_compute in Hsr. injection Hsr as <-.
  destruct Hstore as (_ & _ & _ & Hframe).
  { cbn. repeat constructor. intros []. }
  destruct (Hframe 3 _ eq_refl) as [Hsame | (Hpal & _)];
    [exact Hsame | discriminate Hpal].
Defined.

(** The claim C10 as worded fails in three ways.  CSS variables are
    generated from [colorSchemes]: with the parser of the spec, emptying
    the registry of the sample theme empties the style sheet.  The
    supplied [components] is not what the delivered theme has when the
    resolved scheme has a [components] of its own: the spread puts the
    parsed image of that one in its place.  And the supplied
    [colorSchemes] does not pass through unchanged when the parser keeps
    the palette of the resolved scheme as it is: the writes of lines
    137-138 land on the object that the supplied theme holds. *)
Lemma sub_objects_are_parsed_rebound_and_written :
  ~ variablesIgnore Model.cssVarsParser Model.deepmerge
      (Model.snapshot (Some "light"%string) None (Some "light"%string))
      Model.createGetCssVar "data-attr" "mode" "colorSchemes"
  /\ (exists sr,
        Heap.run Heap.schemeComponents 4 = Ok sr
        /\ Heap.get "components" (Heap.fields_at Heap.schemeComponents 4)
           = Heap.RObj 3
        /\ Heap.get "components"
             (Heap.fields_at (Heap.objects (Heap.final sr))
                (Heap.theme (Heap.final sr)))
           = Heap.RObj 11)
  /\ (exists sr,
        Heap.run Heap.sharedPalette 3 = Ok sr
        /\ Heap.get "palette" (Heap.fields_at Heap.sharedPalette 1) = Heap.RObj 0
        /\ Heap.sharedPalette !! 0 = Some (Heap.object [])
        /\ Heap.objects (Heap.final sr) !! 0
           = Some (Heap.object [("mode"%string, Heap.RStr "light");
                                ("colorScheme"%string, Heap.RStr "light")])).
Proof.
  split; [exact color_schemes_do_generate_variables|].
  split; eexists; repeat split; vm_compute; reflexivity.
Qed.



(** * Further properties of the module *)

(** ** Set-up with a well-formed or an ill-formed configuration *)

Section SetUp.

Variable cssVarsParser : value -> ParserOptions -> Parsed.
Variable deepmerge : value -> value -> value.
Variable useCurrentColorScheme : Hook.options -> Hook.state.
Variable createGetCssVar : string -> value.
Variable DEFAULT_ATTRIBUTE DEFAULT_MODE_STORAGE_KEY : string.
Variable initColorSchemeScript : value.

Local Abbreviation create :=
  (createCssVarsProvider cssVarsParser deepmerge useCurrentColorScheme
     createGetCssVar DEFAULT_ATTRIBUTE DEFAULT_MODE_STORAGE_KEY
     initColorSchemeScript).
Local Abbreviation render :=
  (renderCssVarsProvider cssVarsParser deepmerge useCurrentColorScheme
     createGetCssVar DEFAULT_ATTRIBUTE DEFAULT_MODE_STORAGE_KEY).




(** X3.  A theme that is [null] is not replaced by the empty default (the
    default stands in for [undefined] only): as an option it makes
    [createCssVarsProvider] throw before anything is logged, and as a prop
    it makes the render throw. *)
Theorem null_theme_throws (options : Options.t) (ds : DesignSystem) (props : Props.t) :
  (Options.theme options = VNull ->
   exists msg, create options = ([], Throw (TypeError msg)))
  /\ (Props.theme props = VNull ->
      exists msg, render ds props = Throw (TypeError msg)).
Proof.
  split.
  - intros H. unfold createCssVarsProvider, defaultColorSchemeMissing.
    cbn [defaultTheme destructureOptions]. rewrite H. cbn. eauto.
  - intros H. unfold renderCssVarsProvider, renderLocals. rewrite H. cbn. eauto.
Qed.

End SetUp.



Lemma null_theme_throws_witness :
  exists msg,
    createCssVarsProvider Model.cssVarsParser Model.deepmerge
      (Model.snapshot None None None) Model.createGetCssVar
      "data-attr" "mode" VNull (Model.optionsOf VNull (VStr "light"))
    = ([], Throw (TypeError msg)).
Proof.
  exact (proj1 (null_theme_throws
                  Model.cssVarsParser Model.deepmerge (Model.snapshot None None None)
                  Model.createGetCssVar "data-attr" "mode" VNull
                  (Model.optionsOf VNull (VStr "light")) Model.sampleSystem
                  Model.noProps) eq_refl).
Defined.

(** ** More about one render *)

Lemma NoDup_map_inj {A B : Type} (f : A -> B) (xs : list A) :
  (forall x y, f x = f y -> x = y) -> List.NoDup xs -> List.NoDup (map f xs).
Proof.
  intros Hinj. induction 1 as [|x xs Hx Hnd IH]; cbn; constructor; auto.
  intros Hin. apply in_map_iff in Hin as (y & Hy & Hin).
  apply Hinj in Hy. now subst y.
Qed.

(** Writing fresh keys one after the other appends them in order. *)
Lemma fold_set_fresh (sel : string -> string) (blk : value -> value) (es ss0 : obj) :
  List.NoDup (Js.keys ss0 ++ map sel (Js.keys es)) ->
  fold_left (fun acc e => Js.set (sel (fst e)) (blk (snd e)) acc) es ss0
  = ss0 ++ map (fun e => (sel (fst e), blk (snd e))) es.
Proof.
  revert ss0. induction es as [|[k v] es IH]; intros ss0 Hnd; cbn.
  - now rewrite app_nil_r.
  - cbn in Hnd.
    assert (Hfresh : ~ In (sel k) (Js.keys ss0)).
    { apply List.NoDup_remove_2 in Hnd. intros Hin. apply Hnd.
      apply in_or_app. now left. }
    rewrite set_fresh by assumption. rewrite IH.
    + now rewrite <- app_assoc.
    + unfold Js.keys at 1. rewrite map_app. cbn. now rewrite <- app_assoc.
Qed.

Section RenderMore.

Variable cssVarsParser : value -> ParserOptions -> Parsed.
Variable deepmerge : value -> value -> value.
Variable useCurrentColorScheme : Hook.options -> Hook.state.
Variable createGetCssVar : string -> value.
Variable DEFAULT_ATTRIBUTE DEFAULT_MODE_STORAGE_KEY : string.

Local Abbreviation localsOf :=
  (renderLocals useCurrentColorScheme DEFAULT_ATTRIBUTE DEFAULT_MODE_STORAGE_KEY).
Local Abbreviation render :=
  (renderCssVarsProvider cssVarsParser deepmerge useCurrentColorScheme
     createGetCssVar DEFAULT_ATTRIBUTE DEFAULT_MODE_STORAGE_KEY).
Local Abbreviation loop := (forEach cssVarsParser deepmerge).
Local Abbreviation initial := (initialTheme cssVarsParser createGetCssVar).
Local Abbreviation root := (rootParse cssVarsParser).
Local Abbreviation inverted :=
  (render_inv cssVarsParser deepmerge useCurrentColorScheme createGetCssVar
     DEFAULT_ATTRIBUTE DEFAULT_MODE_STORAGE_KEY).

(** The style sheet is a fold over the registry that never looks at the
    theme. *)
Lemma loop_styleSheet_fold ds l es t0 ss0 t ss rd :
  loop ds l es (t0, ss0) = Ok (t, ss) ->
  resolvedDefaultColorScheme (defaultColorScheme l) (defaultMode l) = Ok rd ->
  ss = fold_left
         (fun acc e =>
            Js.set (selectorOf rd (attribute l) (fst e))
              (css (cssVarsParser (snd e) (parserOptions ds l))) acc)
         es ss0.
Proof.
  revert t0 ss0. induction es as [|[k s] es IH]; intros t0 ss0 H Hrd.
  - now injection H as <- <-.
  - rewrite loop_cons in H.
    destruct (schemeStep cssVarsParser deepmerge ds l (t0, ss0) (k, s))
      as [[t1 ss1]|] eqn:E; [cbn [bind] in H | discriminate H].
    apply schemeStep_inv in E as (_ & rd' & Hrd' & ->).
    assert (rd' = rd) by congruence. subst rd'.
    cbn [fold_left fst snd]. eapply IH; eauto.
Qed.

(** Once the locals exist, the resolved default of the loop exists too:
    it is the light or the dark default, by the default mode. *)
Lemma locals_resolvedDefault ds props l :
  localsOf ds props = Ok l ->
  resolvedDefaultColorScheme (defaultColorScheme l) (defaultMode l)
  = Ok (if String.eqb (defaultMode l) "dark"
        then defaultDarkColorScheme l else defaultLightColorScheme l).
Proof.
  intros Hl. unfold renderLocals in Hl. bind_inv Hl. injection Hl as <-.
  cbn [defaultColorScheme defaultMode defaultDarkColorScheme defaultLightColorScheme].
  unfold resolvedDefaultColorScheme, lightOf, darkOf in *.
  destruct (Js.is_string _).
  - injection E1 as <-. injection E2 as <-. now destruct (String.eqb _ _).
  - now destruct (String.eqb _ _).
Qed.

(** X4.  With distinct registry keys, the style sheet of a render is
    exactly one entry per scheme, in the order of the registry: the
    selector of the scheme ([:root] for the resolved default, the
    attribute selector otherwise) with the CSS parsed from it, and
    nothing else. *)
Theorem style_sheet_is_one_entry_per_scheme ds props l r :
  localsOf ds props = Ok l ->
  render ds props = Ok r ->
  List.NoDup (Js.keys (schemeEntries l)) ->
  styleSheet r
  = map (fun e =>
           (selectorOf
              (if String.eqb (defaultMode l) "dark"
               then defaultDarkColorScheme l else defaultLightColorScheme l)
              (attribute l) (fst e),
            css (cssVarsParser (snd e) (parserOptions ds l))))
      (schemeEntries l).
Proof.
  intros Hl Hr Hnd.
  destruct (inverted ds props l r Hl Hr) as (t & ss & Hloop & _ & -> & _).
  pose proof (locals_resolvedDefault ds props l Hl) as Hrd.
  rewrite (loop_styleSheet_fold _ _ _ _ _ _ _ _ Hloop Hrd).
  rewrite (fold_set_fresh
             (selectorOf _ (attribute l))
             (fun s => css (cssVarsParser s (parserOptions ds l)))); [reflexivity|].
  cbn [Js.keys map app]. apply NoDup_map_inj; [|exact Hnd].
  intros x y. apply selectorOf_inj.
Qed.

(** X5.  When the resolved default scheme is not a key of the registry
    (the misconfiguration that set-up reports), the style sheet has no
    [:root] entry at all. *)
Theorem no_root_entry_without_the_default_scheme ds props l r :
  localsOf ds props = Ok l ->
  render ds props = Ok r ->
  (forall key scheme,
      In (key, scheme) (schemeEntries l) ->
      (if String.eqb (defaultMode l) "dark"
       then defaultDarkColorScheme l else defaultLightColorScheme l) <> VStr key) ->
  Js.lookup ":root" (styleSheet r) = None.
Proof.
  intros Hl Hr Hnot.
  destruct (inverted ds props l r Hl Hr) as (t & ss & Hloop & _ & -> & _).
  pose proof (locals_resolvedDefault ds props l Hl) as Hrd.
  rewrite (loop_styleSheet_frame _ _ _ _ _ _ _ _ _ _ ":root" Hloop Hrd); [reflexivity|].
  intros k s Hin. unfold selectorOf.
  destruct (Js.str_eq k _) eqn:E.
  - apply str_eq_true in E. exfalso. exact (Hnot k s Hin E).
  - apply attributeSelector_not_root.
Qed.

(** X6.  A theme without a registry: the render needs nothing but the
    locals; its second style sheet is empty, the context lists no scheme,
    and the theme is the parsed root theme with empty [components] and
    [colorSchemes] objects, the prefix, the root variables and
    [getCssVar]; no palette field is written. *)
Theorem render_without_a_registry ds props t l :
  Js.or_default (Props.theme props) (defaultTheme ds) = VObj t ->
  Js.get "colorSchemes" t = VUndefined ->
  localsOf ds props = Ok l ->
  exists r,
    render ds props = Ok r
    /\ styleSheet r = []
    /\ Context.allColorSchemes (contextValue r) = []
    /\ theme r = initial ds l
    /\ Js.get "vars" (theme r)
       = vars (cssVarsParser (VObj (Js.omit ["colorSchemes"%string; "components"%string] t))
                 (parserOptions ds l))
    /\ Js.get "colorSchemes" (theme r) = VObj [].
Proof.
  intros Htheme Hreg Hl.
  assert (Hes : schemeEntries l = [] /\ colorSchemes l = VObj []
                /\ restThemeProp l
                   = Js.omit ["colorSchemes"%string; "components"%string] t).
  { unfold renderLocals in Hl. rewrite Htheme in Hl.
    cbn [Js.own_entries bind] in Hl. rewrite Hreg in Hl.
    cbn [Js.or_default Js.own_entries bind] in Hl.
    bind_inv Hl. injection Hl as <-. cbn. auto. }
  destruct Hes as (Hes & Hcs & Hrest).
  unfold renderCssVarsProvider. rewrite Hl. cbn [bind]. rewrite Hes.
  cbn [forEach bind]. eexists. split; [reflexivity|].
  cbn [styleSheet contextValue Context.allColorSchemes theme].
  repeat split.
  - unfold renderLocals in Hl. bind_inv Hl. injection Hl as <-.
    cbn in Hes |- *. now rewrite Hes.
  - rewrite (initial_vars cssVarsParser createGetCssVar).
    unfold rootParse. now rewrite Hrest.
  - unfold Js.get.
    now rewrite (initial_colorSchemes cssVarsParser createGetCssVar), Hcs.
Qed.

(** X7.  A render whose resolved scheme is not a key of the registry
    spreads no scheme into the theme: apart from [vars], which still
    merges every scheme, the theme is the initial one, so the palette gets
    neither [mode] nor [colorScheme]. *)
Theorem unresolved_scheme_leaves_the_theme ds props l r :
  localsOf ds props = Ok l ->
  render ds props = Ok r ->
  (forall key scheme,
      In (key, scheme) (schemeEntries l) -> resolvedColorScheme l <> VStr key) ->
  (forall q, q <> "vars"%string -> Js.lookup q (theme r) = Js.lookup q (initial ds l))
  /\ Js.get "palette" (theme r)
     = Js.get "palette" (Js.spread [] (parsedTheme (root ds l)))
  /\ Js.get "vars" (theme r)
     = fold_left
         (fun acc entry =>
            deepmerge acc (vars (cssVarsParser (snd entry) (parserOptions ds l))))
         (schemeEntries l) (vars (root ds l)).
Proof.
  intros Hl Hr Hnot.
  destruct (inverted ds props l r Hl Hr) as (t & ss & Hloop & -> & _).
  assert (Hoth : forall k s, In (k, s) (schemeEntries l) ->
                             Js.str_eq k (resolvedColorScheme l) = false).
  { intros k s Hin. destruct (Js.str_eq k _) eqn:E; [|reflexivity].
    apply str_eq_true in E. exfalso. exact (Hnot k s Hin E). }
  assert (Hframe : forall q, q <> "vars"%string ->
                             Js.lookup q t = Js.lookup q (initial ds l)).
  { intros q Hq. eapply loop_others; eauto. }
  split; [exact Hframe|]. split.
  - unfold Js.get. rewrite Hframe by discriminate.
    now rewrite (initial_palette cssVarsParser createGetCssVar).
  - rewrite <- (initial_vars cssVarsParser createGetCssVar).
    eapply loop_vars; eauto using initial_NoDup.
    intros k s Hin Hres. rewrite (Hoth k s Hin) in Hres. discriminate.
Qed.

(** X8.  The theme of a render carries the prefix in effect (the prop,
    else the option, else the empty string) and the [getCssVar] built from
    that prefix, provided the parse of the resolved scheme binds neither
    name at its top level. *)
Theorem theme_carries_prefix_and_getCssVar ds props l r :
  localsOf ds props = Ok l ->
  render ds props = Ok r ->
  (forall key scheme,
      In (key, scheme) (schemeEntries l) ->
      resolvedColorScheme l = VStr key ->
      Js.lookup "prefix" (parsedTheme (cssVarsParser scheme (parserOptions ds l))) = None
      /\ Js.lookup "getCssVar"
           (parsedTheme (cssVarsParser scheme (parserOptions ds l))) = None) ->
  prefix l = default (designSystemPrefix ds) (Props.prefix props)
  /\ Js.get "prefix" (theme r) = VStr (prefix l)
  /\ Js.get "getCssVar" (theme r) = createGetCssVar (prefix l).
Proof.
  intros Hl Hr Habs.
  destruct (inverted ds props l r Hl Hr) as (t & ss & Hloop & -> & _).
  split.
  { unfold renderLocals in Hl. bind_inv Hl. now injection Hl as <-. }
  unfold Js.get.
  erewrite (loop_passes _ _ ds l (schemeEntries l) _ [] _ _ "prefix");
    [ | discriminate | discriminate | apply initial_NoDup | | exact Hloop].
  erewrite (loop_passes _ _ ds l (schemeEntries l) _ [] _ _ "getCssVar");
    [ | discriminate | discriminate | apply initial_NoDup | | exact Hloop].
  - unfold initialTheme. rewrite lookup_set_eq.
    rewrite !lookup_set_ne by discriminate. now rewrite lookup_set_eq.
  - intros k s Hin Hres. apply (Habs k s Hin). now apply str_eq_true.
  - intros k s Hin Hres. apply (Habs k s Hin). now apply str_eq_true.
Qed.

(** X9.  Inside the provider a consumer gets the state of the hook, which
    was called with the keys of the registry as supported schemes and with
    the light and dark defaults; the context adds those keys as
    [allColorSchemes].  A scheme reported by the hook is the resolved
    scheme whatever the defaults; the empty string counts as no scheme. *)
Theorem consumer_sees_the_hook_state ds props l r outer :
  localsOf ds props = Ok l ->
  render ds props = Ok r ->
  let st :=
    useCurrentColorScheme
      {| Hook.supportedColorSchemes := Js.keys (schemeEntries l);
         Hook.defaultLightColorScheme := defaultLightColorScheme l;
         Hook.defaultDarkColorScheme := defaultDarkColorScheme l;
         Hook.modeStorageKey := default DEFAULT_MODE_STORAGE_KEY (Props.modeStorageKey props);
         Hook.defaultMode := default (desisgnSystemMode ds) (Props.defaultMode props) |} in
  useColorSchemeHook (contextValue r :: outer) = Ok (contextValue r)
  /\ Context.mode (contextValue r) = Hook.mode st
  /\ Context.colorScheme (contextValue r) = Hook.colorScheme st
  /\ Context.lightColorScheme (contextValue r) = Hook.lightColorScheme st
  /\ Context.darkColorScheme (contextValue r) = Hook.darkColorScheme st
  /\ Context.allColorSchemes (contextValue r) = Js.keys (schemeEntries l)
  /\ (forall s, Hook.colorScheme st = Some s -> s <> EmptyString ->
                resolvedColorScheme l = VStr s)
  /\ (Hook.colorScheme st = Some EmptyString ->
      resolvedColorScheme l
      = if String.eqb (defaultMode l) "dark"
        then defaultDarkColorScheme l else defaultLightColorScheme l).
Proof.
  intros Hl Hr st.
  unfold renderCssVarsProvider in Hr. rewrite Hl in Hr. cbn [bind] in Hr.
  bind_inv Hr. destruct a as [t ss]. injection Hr as <-.
  cbn [contextValue Context.mode Context.colorScheme Context.lightColorScheme
         Context.darkColorScheme Context.allColorSchemes].
  unfold renderLocals in Hl. bind_inv Hl. injection Hl as <-.
  cbn [schemeEntries defaultLightColorScheme defaultDarkColorScheme
         resolvedColorScheme defaultMode allColorSchemes state] in st |- *.
  subst st. repeat split.
  - intros s Hs Hne. rewrite Hs. unfold resolveColorScheme.
    cbn [Js.truthy_opt Js.of_option Js.truthy].
    apply String.eqb_neq in Hne. now rewrite Hne.
  - intros Hs. rewrite Hs. reflexivity.
Qed.

End RenderMore.

(** ** Concrete renders for the further properties *)

Lemma style_sheet_is_one_entry_per_scheme_witness :
  exists l r,
    Model.locals Model.darkSystem Model.noProps
      (Model.snapshot (Some "dark"%string) None (Some "dark"%string)) = Ok l
    /\ Model.render Model.darkSystem Model.noProps
         (Model.snapshot (Some "dark"%string) None (Some "dark"%string)) = Ok r
    /\ styleSheet r
       = [(attributeSelector "data-attr" "light", VStr "--palette-primary:blue;");
          (":root"%string, VStr "--palette-primary:navy;")].
Proof.
  sample_run l r Hl Hr.
  pose proof (style_sheet_is_one_entry_per_scheme
                Model.cssVarsParser Model.deepmerge
                (Model.snapshot (Some "dark"%string) None (Some "dark"%string))
                Model.createGetCssVar "data-attr" "mode"
                Model.darkSystem Model.noProps l r Hl Hr) as T.
  sample_values Hl Hr.
  refine (eq_trans (T _) _); [two_keys | vm_compute; reflexivity].
Defined.

Lemma no_root_entry_without_the_default_scheme_witness :
  exists l r,
    Model.locals Cases.sepiaSystem Model.noProps
      (Model.snapshot (Some "light"%string) None (Some "light"%string)) = Ok l
    /\ Model.render Cases.sepiaSystem Model.noProps
         (Model.snapshot (Some "light"%string) None (Some "light"%string)) = Ok r
    /\ Js.lookup ":root" (styleSheet r) = None.
Proof.
  sample_run l r Hl Hr.
  pose proof (no_root_entry_without_the_default_scheme
                Model.cssVarsParser Model.deepmerge
                (Model.snapshot (Some "light"%string) None (Some "light"%string))
                Model.createGetCssVar "data-attr" "mode"
                Cases.sepiaSystem Model.noProps l r Hl Hr) as T.
  sample_values Hl Hr.
  apply T. intros key scheme Hin. each_entry Hin; discriminate.
Defined.

Lemma render_without_a_registry_witness :
  exists l r,
    Model.locals Cases.plainSystem Model.noProps
      (Model.snapshot (Some "light"%string) None (Some "light"%string)) = Ok l
    /\ Model.render Cases.plainSystem Model.noProps
         (Model.snapshot (Some "light"%string) None (Some "light"%string)) = Ok r
    /\ styleSheet r = []
    /\ Js.get "palette" (theme r)
       = VObj [("primary"%string, VStr "var(--palette-primary)")].
Proof.
  destruct (Model.locals Cases.plainSystem Model.noProps
              (Model.snapshot (Some "light"%string) None (Some "light"%string)))
    as [l|] eqn:Hl; [|vm_compute in Hl; discriminate Hl].
  destruct (render_without_a_registry
              Model.cssVarsParser Model.deepmerge
              (Model.snapshot (Some "light"%string) None (Some "light"%string))
              Model.createGetCssVar "data-attr" "mode"
              Cases.plainSystem Model.noProps _ l eq_refl eq_refl Hl)
    as (r & Hr & Hsheet & _ & Htheme & _).
  exists l, r. split; [reflexivity|]. split; [exact Hr|]. split; [exact Hsheet|].
  rewrite Htheme. vm_compute in Hl. injection Hl as <-. reflexivity.
Defined.

Lemma unresolved_scheme_leaves_the_theme_witness :
  exists l r,
    Model.locals Model.sampleSystem Model.noProps
      (Model.snapshot (Some "light"%string) None (Some "sepia"%string)) = Ok l
    /\ Model.render Model.sampleSystem Model.noProps
         (Model.snapshot (Some "light"%string) None (Some "sepia"%string)) = Ok r
    /\ Js.get "palette" (theme r) = VUndefined.
Proof.
  sample_run l r Hl Hr.
  pose proof (fun Hnot =>
                proj1 (proj2 (unresolved_scheme_leaves_the_theme
                                Model.cssVarsParser Model.deepmerge
                                (Model.snapshot (Some "light"%string) None
                                   (Some "sepia"%string))
                                Model.createGetCssVar "data-attr" "mode"
                                Model.sampleSystem Model.noProps l r Hl Hr Hnot))) as T.
  sample_values Hl Hr.
  refine (eq_trans (T _) _); [|reflexivity].
  intros key scheme Hin. each_entry Hin; discriminate.
Defined.

Lemma theme_carries_prefix_and_getCssVar_witness :
  exists l r,
    Model.locals Model.sampleSystem Model.noProps
      (Model.snapshot (Some "light"%string) None (Some "dark"%string)) = Ok l
    /\ Model.render Model.sampleSystem Model.noProps
         (Model.snapshot (Some "light"%string) None (Some "dark"%string)) = Ok r
    /\ Js.get "prefix" (theme r) = VStr EmptyString.
Proof.
  sample_run l r Hl Hr.
  pose proof (fun Habs =>
                proj1 (proj2 (theme_carries_prefix_and_getCssVar
                                Model.cssVarsParser Model.deepmerge
                                (Model.snapshot (Some "light"%string) None
                                   (Some "dark"%string))
                                Model.createGetCssVar "data-attr" "mode"
                                Model.sampleSystem Model.noProps l r Hl Hr Habs))) as T.
  sample_values Hl Hr.
  refine (eq_trans (T _) _); [|reflexivity].
  intros key scheme Hin _. each_entry Hin; split; reflexivity.
Defined.

Lemma consumer_sees_the_hook_state_witness :
  exists l r,
    Model.locals Model.sampleSystem Model.noProps
      (Model.snapshot (Some "light"%string) None (Some "dark"%string)) = Ok l
    /\ Model.render Model.sampleSystem Model.noProps
         (Model.snapshot (Some "light"%string) None (Some "dark"%string)) = Ok r
    /\ useColorSchemeHook [contextValue r] = Ok (contextValue r)
    /\ Context.allColorSchemes (contextValue r) = ["light"%string; "dark"%string].
Proof.
  sample_run l r Hl Hr.
  pose proof (consumer_sees_the_hook_state
                Model.cssVarsParser Model.deepmerge
                (Model.snapshot (Some "light"%string) None (Some "dark"%string))
                Model.createGetCssVar "data-attr" "mode"
                Model.sampleSystem Model.noProps l r [] Hl Hr)
    as (Huse & _ & _ & _ & _ & Hall & _).
  sample_values Hl Hr.
  split; [exact Huse | exact Hall].
Defined.

(** ** The effects over the life of the component *)

Lemma propertyValue_same_style (name : string) (b b' : Browser) :
  rootStyle b' = rootStyle b -> Dom.propertyValue name b' = Dom.propertyValue name b.
Proof. intros H. unfold Dom.propertyValue. now rewrite H. Qed.

Lemma propertyValue_setProperty_other (name other v : string) (b : Browser) :
  other <> name ->
  Dom.propertyValue other (Dom.setProperty name v b) = Dom.propertyValue other b.
Proof.
  intros Hne. unfold Dom.propertyValue, Dom.setProperty. cbn [rootStyle].
  destruct (String.eqb v EmptyString).
  - rewrite lookup_delete_ne; congruence.
  - rewrite lookup_insert_ne; congruence.
Qed.

Lemma colorSchemeEffect_active (env : EffectEnv) (b : Browser) :
  hintActive env = true ->
  snd (Effects.colorSchemeEffect env b) = Some (Dom.propertyValue "color-scheme" b)
  /\ Dom.propertyValue "color-scheme" (fst (Effects.colorSchemeEffect env b))
     = schemeHint env
  /\ forall name, name <> "color-scheme"%string ->
       Dom.propertyValue name (fst (Effects.colorSchemeEffect env b))
       = Dom.propertyValue name b.
Proof.
  unfold hintActive. intros H. apply andb_true_iff in H as [Hm He].
  unfold Effects.colorSchemeEffect, schemeHint. rewrite Hm, He. cbn [negb orb].
  cbn [Dom.getPropertyValue]. destruct (bool_decide _); cbn [fst snd].
  - repeat split.
    + apply propertyValue_setProperty.
    + intros name Hne. now rewrite propertyValue_setProperty_other.
  - repeat split.
    + apply propertyValue_setProperty.
    + intros name Hne. now rewrite propertyValue_setProperty_other.
Qed.

Lemma colorSchemeEffect_idle (env : EffectEnv) (b : Browser) :
  hintActive env = false -> Effects.colorSchemeEffect env b = (b, None).
Proof.
  unfold hintActive, Effects.colorSchemeEffect. intros H.
  apply andb_false_iff in H as [-> | ->]; [reflexivity|].
  now rewrite orb_true_r.
Qed.

Lemma mount_style (env : EffectEnv) (b : Browser) :
  rootStyle (snd (React.mount env b)) = rootStyle (fst (Effects.colorSchemeEffect env b))
  /\ priorColorScheme (fst (React.mount env b)) = snd (Effects.colorSchemeEffect env b)
  /\ committed (fst (React.mount env b)) = env.
Proof.
  unfold React.mount.
  destruct (Effects.colorSchemeEffect env b) as [b1 prior].
  unfold Effects.transitionEffect. rewrite andb_false_r.
  cbn [fst snd priorColorScheme committed].
  now destruct (attributeEffect_frame env b1) as (_ & _ & _ & _ & ->).
Qed.

Lemma colorSchemeEffect_style (env : EffectEnv) (b b' : Browser) :
  rootStyle b = rootStyle b' ->
  rootStyle (fst (Effects.colorSchemeEffect env b))
  = rootStyle (fst (Effects.colorSchemeEffect env b'))
  /\ snd (Effects.colorSchemeEffect env b) = snd (Effects.colorSchemeEffect env b').
Proof.
  intros H. unfold Effects.colorSchemeEffect.
  destruct (negb _ || negb _); [cbn; auto|].
  unfold Dom.getPropertyValue, Dom.propertyValue.
  destruct (bool_decide _); cbn; now rewrite H.
Qed.

Lemma remount_style (inst : Instance) (b : Browser) :
  let run := Effects.colorSchemeEffect (committed inst)
               (Effects.colorSchemeCleanup (priorColorScheme inst) b) in
  rootStyle (snd (React.remount inst b)) = rootStyle (fst run)
  /\ priorColorScheme (fst (React.remount inst b)) = snd run
  /\ committed (fst (React.remount inst b)) = committed inst.
Proof.
  unfold React.remount, React.unmount.
  set (b0 := Effects.transitionCleanup _ _).
  assert (H0 : rootStyle b0
               = rootStyle (Effects.colorSchemeCleanup (priorColorScheme inst) b)).
  { subst b0. now destruct (transitionCleanup_frame (timer inst)
                              (Effects.colorSchemeCleanup (priorColorScheme inst) b))
      as (_ & _ & _ & -> & _). }
  destruct (colorSchemeEffect_style (committed inst) _ _ H0) as [Hs Hp].
  destruct (Effects.colorSchemeEffect (committed inst) b0) as [b1 prior].
  cbn [fst snd] in Hs, Hp.
  unfold Effects.transitionEffect. cbn [hasMounted].
  rewrite andb_false_r. cbn [fst snd priorColorScheme committed].
  destruct (attributeEffect_frame (committed inst) b1) as (_ & _ & _ & _ & ->).
  auto.
Qed.

Lemma update_prior (inst : Instance) (env : EffectEnv) (b : Browser) :
  priorColorScheme (fst (React.update inst env b))
  = (if React.colorSchemeDepsChanged (committed inst) env
     then snd (Effects.colorSchemeEffect env
                 (Effects.colorSchemeCleanup (priorColorScheme inst) b))
     else priorColorScheme inst)
  /\ committed (fst (React.update inst env b)) = env.
Proof.
  unfold React.update.
  destruct (React.colorSchemeDepsChanged _ _).
  - destruct (Effects.colorSchemeEffect _ _) as [b2 prior].
    destruct (React.transitionDepsChanged _ _);
      [destruct (Effects.transitionEffect _ _ _)|]; auto.
  - destruct (React.transitionDepsChanged _ _);
      [destruct (Effects.transitionEffect _ _ _)|]; auto.
Qed.

Lemma colorSchemeCleanup_restores (original : string -> string)
    (inst : Instance) (b : Browser) :
  hintInvariant original inst b ->
  forall name,
    Dom.propertyValue name (Effects.colorSchemeCleanup (priorColorScheme inst) b)
    = original name.
Proof.
  intros [Hcs Hother] name. unfold hintInvariant in *.
  destruct (string_dec name "color-scheme") as [-> | Hne].
  - destruct (hintActive _); destruct Hcs as [-> Hv]; cbn [Effects.colorSchemeCleanup].
    + apply propertyValue_setProperty.
    + exact Hv.
  - destruct (priorColorScheme inst); cbn [Effects.colorSchemeCleanup]; [|auto].
    rewrite propertyValue_setProperty_other; auto.
Qed.

(** Running the effect on a root that reads as the original gives the
    invariant for the new commit. *)
Lemma hint_established (original : string -> string) (env : EffectEnv)
    (b : Browser) (inst' : Instance) (b' : Browser) :
  (forall name, Dom.propertyValue name b = original name) ->
  rootStyle b' = rootStyle (fst (Effects.colorSchemeEffect env b)) ->
  priorColorScheme inst' = snd (Effects.colorSchemeEffect env b) ->
  committed inst' = env ->
  hintInvariant original inst' b'.
Proof.
  intros Horig Hstyle Hprior Hcommitted. unfold hintInvariant.
  rewrite Hcommitted, Hprior.
  destruct (hintActive env) eqn:Hact.
  - destruct (colorSchemeEffect_active env b Hact) as (Hp & Hv & Hother).
    rewrite Hp, Horig. repeat split.
    + now rewrite (propertyValue_same_style _ _ _ Hstyle).
    + intros name Hne. rewrite (propertyValue_same_style _ _ _ Hstyle).
      now rewrite Hother, Horig.
  - rewrite (colorSchemeEffect_idle env b Hact) in Hstyle |- *. cbn [fst snd] in *.
    repeat split.
    + now rewrite (propertyValue_same_style _ _ _ Hstyle).
    + intros name Hne. now rewrite (propertyValue_same_style _ _ _ Hstyle).
Qed.

Lemma hint_after_mount (env : EffectEnv) (b : Browser) :
  hintInvariant (fun name => Dom.propertyValue name b)
    (fst (React.mount env b)) (snd (React.mount env b)).
Proof.
  destruct (mount_style env b) as (Hs & Hp & Hc).
  eapply hint_established; eauto.
Qed.

Lemma hint_after_remount (original : string -> string) (inst : Instance) (b : Browser) :
  hintInvariant original inst b ->
  hintInvariant original (fst (React.remount inst b)) (snd (React.remount inst b)).
Proof.
  intros Hinv. destruct (remount_style inst b) as (Hs & Hp & Hc).
  eapply hint_established; eauto.
  now apply colorSchemeCleanup_restores.
Qed.

Lemma depsChanged_false (old new : EffectEnv) :
  React.colorSchemeDepsChanged old new = false ->
  env_mode old = env_mode new /\ env_systemMode old = env_systemMode new
  /\ env_enableColorScheme old = env_enableColorScheme new.
Proof.
  unfold React.colorSchemeDepsChanged. intros H. apply negb_false_iff in H.
  apply andb_true_iff in H as [H H3]. apply andb_true_iff in H as [H1 H2].
  apply bool_decide_eq_true_1 in H1, H2, H3. auto.
Qed.

Lemma hint_after_update (original : string -> string)
    (inst : Instance) (env : EffectEnv) (b : Browser) :
  hintInvariant original inst b ->
  hintInvariant original (fst (React.update inst env b)) (snd (React.update inst env b)).
Proof.
  intros Hinv. destruct (update_prior inst env b) as (Hp & Hc).
  pose proof (update_rootStyle inst env b) as Hs.
  destruct (React.colorSchemeDepsChanged (committed inst) env) eqn:Hdeps.
  - eapply hint_established; eauto.
    now apply colorSchemeCleanup_restores.
  - apply depsChanged_false in Hdeps as (Hm & Hsm & He).
    destruct Hinv as [Hcs Hother]. unfold hintInvariant.
    rewrite Hc, Hp.
    assert (Hact : hintActive env = hintActive (committed inst))
      by (unfold hintActive; now rewrite Hm, He).
    assert (Hhint : schemeHint env = schemeHint (committed inst))
      by (unfold schemeHint; now rewrite Hm, Hsm).
    rewrite Hact, Hhint. split.
    + destruct (hintActive (committed inst)); destruct Hcs as [Hq Hv]; split; auto;
        now rewrite (propertyValue_same_style _ _ _ Hs).
    + intros name Hne. rewrite (propertyValue_same_style _ _ _ Hs). auto.
Qed.

Lemma fire_style (t : nat) (b : Browser) : rootStyle (Dom.fire t b) = rootStyle b.
Proof. unfold Dom.fire. destruct (timers b !! t) as [[d node]|]; reflexivity. Qed.

Lemma hint_kept (original : string -> string) (events : list React.event)
    (inst : Instance) (b : Browser) :
  forallb staysMounted events = true ->
  hintInvariant original inst b ->
  exists inst' b',
    fold_left React.step events (Some inst, b) = (Some inst', b')
    /\ hintInvariant original inst' b'.
Proof.
  revert inst b. induction events as [|e rest IH]; intros inst b Hall Hinv.
  - exists inst, b. auto.
  - cbn [forallb] in Hall. apply andb_true_iff in Hall as [He Hrest].
    cbn [fold_left]. destruct e; try discriminate He.
    + unfold React.step at 2. cbn [fst snd].
      pose proof (hint_after_remount original inst b Hinv) as H.
      destruct (React.remount inst b) as [inst1 b1]. apply IH; auto.
    + unfold React.step at 2. cbn [fst snd].
      pose proof (hint_after_update original inst env b Hinv) as H.
      destruct (React.update inst env b) as [inst1 b1]. apply IH; auto.
    + unfold React.step at 2. cbn [fst snd]. apply IH; auto.
      destruct Hinv as [Hcs Hother]. split.
      * destruct (hintActive _); destruct Hcs; split; auto;
          now rewrite (propertyValue_same_style _ _ _ (fire_style timer0 b)).
      * intros name Hne.
        rewrite (propertyValue_same_style _ _ _ (fire_style timer0 b)). auto.
Qed.

(** X10.  While the component stays mounted (updates, strict-mode
    remounts, timers firing), with modes in the range of the hook, the
    [color-scheme] property of the root holds what the last commit asks
    for: [mode], or the system mode under "system", whenever
    [enableColorScheme] is on and there is a mode, and the value from
    before the mount otherwise.  No other inline style property is ever
    changed.  (The range makes every value written a valid one, which the
    style declaration keeps.) *)
Theorem color_scheme_tracks_the_last_commit
    (first : EffectEnv) (events : list React.event) (b0 : Browser) :
  forallb staysMounted events = true ->
  forallb commitsInRange (React.Mount first :: events) = true ->
  exists inst b,
    React.run (React.Mount first :: events) b0 = (Some inst, b)
    /\ Dom.propertyValue "color-scheme" b
       = (if hintActive (committed inst) then schemeHint (committed inst)
          else Dom.propertyValue "color-scheme" b0)
    /\ forall name, name <> "color-scheme"%string ->
         Dom.propertyValue name b = Dom.propertyValue name b0.
Proof.
  intros Hall _. unfold React.run. cbn [fold_left]. unfold React.step at 2.
  cbn [fst snd].
  pose proof (hint_after_mount first b0) as Hinv.
  destruct (React.mount first b0) as [inst0 b1]. cbn [fst snd] in Hinv.
  destruct (hint_kept _ events inst0 b1 Hall Hinv) as (inst & b & Hrun & [Hcs Hother]).
  exists inst, b. split; [exact Hrun|]. split; [|exact Hother].
  destruct (hintActive _); now destruct Hcs.
Qed.

(** X11.  Mounting, any number of commits, and unmounting leave the inline
    style of the root as it was read before the mount: every property,
    [color-scheme] included, has its former value again. *)
Theorem unmount_restores_the_inline_style
    (first : EffectEnv) (events : list React.event) (b0 : Browser) :
  forallb staysMounted events = true ->
  forall name,
    Dom.propertyValue name
      (snd (React.run (React.Mount first :: events ++ [React.Unmount]) b0))
    = Dom.propertyValue name b0.
Proof.
  intros Hall name. unfold React.run. cbn [fold_left]. unfold React.step at 2.
  cbn [fst snd].
  pose proof (hint_after_mount first b0) as Hinv.
  destruct (React.mount first b0) as [inst0 b1]. cbn [fst snd] in Hinv.
  destruct (hint_kept _ events inst0 b1 Hall Hinv) as (inst & b & Hrun & Hinv').
  rewrite fold_left_app, Hrun. cbn [fold_left React.step fst snd React.unmount].
  rewrite (propertyValue_same_style name
             (Effects.colorSchemeCleanup (priorColorScheme inst) b)).
  - now apply (colorSchemeCleanup_restores _ inst b Hinv').
  - now destruct (transitionCleanup_frame (timer inst)
                    (Effects.colorSchemeCleanup (priorColorScheme inst) b))
      as (_ & _ & _ & -> & _).
Qed.

(** *** The attribute of the root *)

Lemma attributeEffect_attrs (env : EffectEnv) (b : Browser) :
  rootAttributes (Effects.attributeEffect env b)
  = if Js.truthy_opt (env_colorScheme env)
    then <[env_attribute env := Dom.domString (env_colorScheme env)]> (rootAttributes b)
    else rootAttributes b.
Proof. unfold Effects.attributeEffect. now destruct (Js.truthy_opt _). Qed.

Lemma mount_attrs (env : EffectEnv) (b : Browser) :
  rootAttributes (snd (React.mount env b))
  = rootAttributes (Effects.attributeEffect env b)
  /\ committed (fst (React.mount env b)) = env.
Proof.
  unfold React.mount.
  destruct (Effects.colorSchemeEffect env b) as [b1 prior] eqn:E.
  pose proof (colorSchemeEffect_frame env b) as Hf. rewrite E in Hf.
  cbn [fst] in Hf. destruct Hf as (_ & _ & _ & _ & Ha).
  unfold Effects.transitionEffect. rewrite andb_false_r. cbn [fst snd committed].
  now rewrite !attributeEffect_attrs, Ha.
Qed.

Lemma unmount_attrs (inst : Instance) (b : Browser) :
  rootAttributes (snd (React.unmount inst b)) = rootAttributes b.
Proof.
  unfold React.unmount. cbn [snd].
  destruct (transitionCleanup_frame (timer inst)
              (Effects.colorSchemeCleanup (priorColorScheme inst) b))
    as (_ & _ & _ & _ & ->).
  now destruct (colorSchemeCleanup_frame (priorColorScheme inst) b)
    as (_ & _ & _ & _ & ->).
Qed.

Lemma remount_attrs (inst : Instance) (b : Browser) :
  rootAttributes (snd (React.remount inst b))
  = rootAttributes (Effects.attributeEffect (committed inst) b)
  /\ committed (fst (React.remount inst b)) = committed inst.
Proof.
  unfold React.remount.
  pose proof (unmount_attrs inst b) as Hu.
  destruct (React.unmount inst b) as [torn b0]. cbn [snd] in Hu.
  destruct (Effects.colorSchemeEffect (committed inst) b0) as [b1 prior] eqn:E.
  pose proof (colorSchemeEffect_frame (committed inst) b0) as Hf. rewrite E in Hf.
  cbn [fst] in Hf. destruct Hf as (_ & _ & _ & _ & Ha).
  destruct (Effects.transitionEffect (committed inst) (hasMounted torn)
              (Effects.attributeEffect (committed inst) b1)) as [b3 t] eqn:Et.
  pose proof (transitionEffect_frame (committed inst) (hasMounted torn)
                (Effects.attributeEffect (committed inst) b1)) as [_ Hb3].
  rewrite Et in Hb3. cbn [fst snd committed] in *.
  now rewrite Hb3, !attributeEffect_attrs, Ha, Hu.
Qed.

Lemma update_attrs (inst : Instance) (env : EffectEnv) (b : Browser) :
  rootAttributes (snd (React.update inst env b))
  = if React.attributeDepsChanged (committed inst) env
    then rootAttributes (Effects.attributeEffect env b)
    else rootAttributes b.
Proof.
  unfold React.update.
  set (b2p := if React.colorSchemeDepsChanged (committed inst) env
              then Effects.colorSchemeEffect env
                     (Effects.colorSchemeCleanup (priorColorScheme inst) b)
              else (b, priorColorScheme inst)).
  assert (H2 : rootAttributes (fst b2p) = rootAttributes b).
  { subst b2p. destruct (React.colorSchemeDepsChanged _ _); [|reflexivity].
    destruct (colorSchemeEffect_frame env
                (Effects.colorSchemeCleanup (priorColorScheme inst) b))
      as (_ & _ & _ & _ & ->).
    now destruct (colorSchemeCleanup_frame (priorColorScheme inst) b)
      as (_ & _ & _ & _ & ->). }
  destruct b2p as [b2 prior]. cbn [fst] in H2.
  set (b3 := if React.transitionDepsChanged (committed inst) env
             then Effects.transitionCleanup (timer inst) b2 else b2).
  assert (H3 : rootAttributes b3 = rootAttributes b).
  { subst b3. now destruct (React.transitionDepsChanged _ _). }
  set (b4 := if React.attributeDepsChanged (committed inst) env
             then Effects.attributeEffect env b3 else b3).
  assert (H4 : rootAttributes b4
               = if React.attributeDepsChanged (committed inst) env
                 then rootAttributes (Effects.attributeEffect env b)
                 else rootAttributes b).
  { subst b4. destruct (React.attributeDepsChanged _ _); [|exact H3].
    now rewrite !attributeEffect_attrs, H3. }
  destruct (React.transitionDepsChanged (committed inst) env).
  - destruct (Effects.transitionEffect env (hasMounted inst) b4) as [b5 t] eqn:Et.
    pose proof (transitionEffect_frame env (hasMounted inst) b4) as [_ H5].
    rewrite Et in H5. cbn [fst snd] in *. now rewrite H5.
  - exact H4.
Qed.

Lemma fire_attrs (t : nat) (b : Browser) :
  rootAttributes (Dom.fire t b) = rootAttributes b.
Proof. unfold Dom.fire. destruct (timers b !! t) as [[d node]|]; reflexivity. Qed.

(** One event either leaves the attributes alone or sets one of them. *)
Lemma step_attrs (s : option Instance * Browser) (e : React.event) :
  rootAttributes (snd (React.step s e)) = rootAttributes (snd s)
  \/ exists env v,
       rootAttributes (snd (React.step s e))
       = <[env_attribute env := v]> (rootAttributes (snd s))
       /\ (e = React.Mount env \/ e = React.Update env
           \/ exists inst, fst s = Some inst /\ committed inst = env
                           /\ e = React.StrictRemount).
Proof.
  destruct s as [[inst|] b], e; cbn [React.step fst snd]; auto.
  - pose proof (remount_attrs inst b) as [H _].
    destruct (React.remount inst b) as [inst' b']. cbn [snd] in *.
    rewrite H, attributeEffect_attrs. destruct (Js.truthy_opt _); eauto 10.
  - pose proof (update_attrs inst env b) as H.
    destruct (React.update inst env b) as [inst' b']. cbn [snd] in *.
    rewrite H. destruct (React.attributeDepsChanged _ _); auto.
    rewrite attributeEffect_attrs. destruct (Js.truthy_opt _); eauto 10.
  - left. apply unmount_attrs.
  - left. apply fire_attrs.
  - pose proof (mount_attrs env b) as [H _].
    destruct (React.mount env b) as [inst' b']. cbn [snd] in *.
    rewrite H, attributeEffect_attrs. destruct (Js.truthy_opt _); eauto 10.
  - left. apply fire_attrs.
Qed.

Lemma step_committed (s : option Instance * Browser) (e : React.event) (a : string) :
  usesAttribute a e = true ->
  (forall inst, fst s = Some inst -> env_attribute (committed inst) = a) ->
  forall inst', fst (React.step s e) = Some inst' ->
                env_attribute (committed inst') = a.
Proof.
  intros Huse Hinv inst'.
  destruct s as [[inst|] b], e; cbn [React.step fst snd usesAttribute] in *;
    try (intros [= <-]; now apply Hinv); try discriminate.
  - pose proof (remount_attrs inst b) as [_ H].
    destruct (React.remount inst b) as [i b']. cbn [fst] in *.
    intros [= <-]. rewrite H. now apply Hinv.
  - pose proof (update_prior inst env b) as [_ H].
    destruct (React.update inst env b) as [i b']. cbn [fst] in *.
    intros [= <-]. rewrite H. now apply bool_decide_eq_true_1 in Huse.
  - pose proof (mount_attrs env b) as [_ H].
    destruct (React.mount env b) as [i b']. cbn [fst] in *.
    intros [= <-]. rewrite H. now apply bool_decide_eq_true_1 in Huse.
Qed.

Lemma run_attrs_monotone (events : list React.event)
    (s : option Instance * Browser) (name : string) :
  is_Some (rootAttributes (snd s) !! name) ->
  is_Some (rootAttributes (snd (fold_left React.step events s)) !! name).
Proof.
  revert s. induction events as [|e rest IH]; intros s H; [exact H|].
  cbn [fold_left]. apply IH.
  destruct (step_attrs s e) as [-> | (env & v & -> & _)]; [exact H|].
  destruct (decide (env_attribute env = name)) as [<- | Hne].
  - rewrite lookup_insert_eq. eauto.
  - now rewrite lookup_insert_ne.
Qed.

Lemma run_attrs_frame (a name : string) (events : list React.event)
    (s : option Instance * Browser) :
  forallb (usesAttribute a) events = true ->
  name <> a ->
  (forall inst, fst s = Some inst -> env_attribute (committed inst) = a) ->
  rootAttributes (snd (fold_left React.step events s)) !! name
  = rootAttributes (snd s) !! name.
Proof.
  intros Hall Hne. revert s.
  induction events as [|e rest IH]; intros s Hinv; [reflexivity|].
  cbn [forallb] in Hall. apply andb_true_iff in Hall as [He Hrest].
  cbn [fold_left]. rewrite (IH Hrest).
  - destruct (step_attrs s e) as [-> | (env & v & -> & Hwho)]; [reflexivity|].
    apply lookup_insert_ne.
    destruct Hwho as [-> | [-> | (inst & Hs & <- & ->)]].
    + cbn in He. apply bool_decide_eq_true_1 in He. congruence.
    + cbn in He. apply bool_decide_eq_true_1 in He. congruence.
    + rewrite (Hinv inst Hs). congruence.
  - now apply step_committed.
Qed.

(** X12.  No effect and no cleanup ever removes an attribute of the root:
    over any sequence of mounts, commits, timers and unmounts an attribute
    that is present stays present, and the unmount in particular leaves
    every attribute, the one the component set included, as it is.  A
    component whose [attribute] prop is always [a] changes no attribute
    but [a]. *)
Theorem attributes_are_set_never_removed (events : list React.event) (b0 : Browser) :
  (forall name,
      is_Some (rootAttributes b0 !! name) ->
      is_Some (rootAttributes (snd (React.run events b0)) !! name))
  /\ (forall inst b, rootAttributes (snd (React.unmount inst b)) = rootAttributes b)
  /\ (forall a name,
        forallb (usesAttribute a) events = true ->
        name <> a ->
        rootAttributes (snd (React.run events b0)) !! name = rootAttributes b0 !! name).
Proof.
  unfold React.run. split; [|split].
  - intros name H. now apply (run_attrs_monotone events (None, b0) name).
  - apply unmount_attrs.
  - intros a name Hall Hne.
    apply (run_attrs_frame a name events (None, b0) Hall Hne).
    intros inst [=].
Qed.

Lemma attributes_are_set_never_removed_witness :
  rootAttributes
    (snd (React.run [React.Mount (Model.envOf "dark" "dark"); React.Unmount]
            Cases.styledDocument)) !! "lang"%string
  = Some "en"%string.
Proof.
  refine (eq_trans
            (proj2 (proj2 (attributes_are_set_never_removed
                             [React.Mount (Model.envOf "dark" "dark"); React.Unmount]
                             Cases.styledDocument))
               "data-attr"%string "lang"%string _ _) _).
  - reflexivity.
  - discriminate.
  - reflexivity.
Defined.

Lemma color_scheme_tracks_the_last_commit_witness :
  exists inst b,
    React.run [React.Mount (Cases.env (Some "light") (Some "system") (Some "light")
                              true false);
               React.Update (Cases.env (Some "dark") (Some "system") (Some "dark")
                               true false)]
      Cases.styledDocument = (Some inst, b)
    /\ Dom.propertyValue "color-scheme" b = "dark"%string.
Proof.
  destruct (color_scheme_tracks_the_last_commit
              (Cases.env (Some "light") (Some "system") (Some "light") true false)
              [React.Update (Cases.env (Some "dark") (Some "system") (Some "dark")
                               true false)]
              Cases.styledDocument eq_refl eq_refl)
    as (inst & b & Hrun & Hcs & _).
  exists inst, b. split; [exact Hrun|].
  rewrite Hcs. vm_compute in Hrun. injection Hrun as <- <-. reflexivity.
Defined.

Lemma unmount_restores_the_inline_style_witness :
  Dom.propertyValue "color-scheme"
    (snd (React.run
            (React.Mount (Model.envOf "light" "light")
               :: [React.Update (Model.envOf "dark" "dark")] ++ [React.Unmount])
            Cases.styledDocument))
  = "normal"%string.
Proof.
  exact (unmount_restores_the_inline_style
           (Model.envOf "light" "light") [React.Update (Model.envOf "dark" "dark")]
           Cases.styledDocument eq_refl "color-scheme"%string).
Defined.

(** *** The pending timer *)

Lemma owned_cleared (inst : Instance) (b : Browser) :
  timersOwned (Some inst, b) ->
  forall t,
    match timer inst with
    | Some t0 => delete t0 (timers b)
    | None => timers b
    end !! t = None.
Proof.
  unfold timersOwned. cbn [fst snd]. intros Hown t.
  destruct (timer inst) as [t0|] eqn:Ht.
  - destruct (decide (t0 = t)) as [-> | Hne]; [apply lookup_delete_eq|].
    rewrite lookup_delete_ne by exact Hne.
    destruct (timers b !! t) eqn:E; [|reflexivity].
    assert (Some t0 = Some t) by (apply Hown; rewrite E; eauto). congruence.
  - destruct (timers b !! t) eqn:E; [|reflexivity].
    assert (@None nat = Some t) by (apply Hown; rewrite E; eauto). discriminate.
Qed.

Lemma unmount_timers (inst : Instance) (b : Browser) :
  timers (snd (React.unmount inst b))
  = match timer inst with
    | Some t0 => delete t0 (timers b)
    | None => timers b
    end.
Proof.
  unfold React.unmount. cbn [snd Effects.transitionCleanup Dom.clearTimeout timers].
  now destruct (colorSchemeCleanup_frame (priorColorScheme inst) b) as (_ & -> & _).
Qed.

Lemma remount_timers (inst : Instance) (b : Browser) :
  timers (snd (React.remount inst b)) = timers (snd (React.unmount inst b))
  /\ timer (fst (React.remount inst b)) = None.
Proof.
  unfold React.remount.
  destruct (React.unmount inst b) as [torn b0] eqn:Eu.
  assert (Htorn : hasMounted torn = false).
  { unfold React.unmount in Eu. now injection Eu as <- _. }
  destruct (Effects.colorSchemeEffect (committed inst) b0) as [b1 prior] eqn:E.
  pose proof (colorSchemeEffect_frame (committed inst) b0) as Hf. rewrite E in Hf.
  cbn [fst] in Hf. destruct Hf as (_ & Ht & _).
  unfold Effects.transitionEffect. rewrite Htorn, andb_false_r.
  cbn [fst snd timer].
  destruct (attributeEffect_frame (committed inst) b1) as (_ & -> & _).
  auto.
Qed.

Lemma fire_timers (t t' : nat) (b : Browser) :
  is_Some (timers (Dom.fire t b) !! t') -> is_Some (timers b !! t').
Proof.
  unfold Dom.fire. destruct (timers b !! t) as [[d node]|] eqn:E; [|auto].
  cbn [Dom.removeFromHead timers].
  destruct (decide (t = t')) as [-> | Hne].
  - rewrite lookup_delete_eq. intros [x Hx]. discriminate Hx.
  - now rewrite lookup_delete_ne.
Qed.

Lemma step_timersOwned (s : option Instance * Browser) (e : React.event) :
  timersOwned s -> timersOwned (React.step s e).
Proof.
  destruct s as [[inst|] b]; intros Hown.
  - destruct e; cbn [React.step fst snd]; auto.
    + pose proof (remount_timers inst b) as [Ht Hnone].
      rewrite unmount_timers in Ht.
      destruct (React.remount inst b) as [inst' b']. cbn [fst snd] in *.
      unfold timersOwned. cbn [fst snd]. intros t [x Hx].
      rewrite Ht, (owned_cleared inst b Hown) in Hx. discriminate Hx.
    + destruct (update_shape inst env b) as (b4 & prior & _ & _ & _ & Ht & Hupd).
      rewrite Hupd. destruct (React.transitionDepsChanged (committed inst) env).
      * assert (Hclear : forall t, timers b4 !! t = None)
          by (intros t; rewrite Ht; now apply owned_cleared).
        unfold Effects.transitionEffect.
        destruct (env_disableTransitionOnChange env && hasMounted inst);
          unfold timersOwned; cbn [fst snd timer timers Dom.createStyle
            Dom.appendToHead Dom.getComputedStyle Dom.setTimeout nextId].
        -- intros t [x Hx].
           destruct (decide (S (nextId b4) = t)) as [-> | Hne]; [reflexivity|].
           rewrite lookup_insert_ne in Hx by exact Hne.
           rewrite Hclear in Hx. discriminate Hx.
        -- intros t [x Hx]. rewrite Hclear in Hx. discriminate Hx.
      * unfold timersOwned in *. cbn [fst snd timer] in *.
        intros t. rewrite Ht. apply Hown.
    + unfold timersOwned. cbn [fst snd]. intros t.
      rewrite unmount_timers. now apply owned_cleared.
    + unfold timersOwned in *. cbn [fst snd] in *. intros t Hsome.
      apply Hown. eapply fire_timers; eauto.
  - destruct e; cbn [React.step fst snd]; auto.
    + destruct (mount_leaves_head env b) as (_ & Ht & _ & _ & _).
      destruct (React.mount env b) as [inst' b']. cbn [fst snd] in *.
      unfold timersOwned in *. cbn [fst snd] in *. intros t [x Hx].
      rewrite Ht, Hown in Hx. discriminate Hx.
    + unfold timersOwned in *. cbn [fst snd] in *. intros t.
      destruct (timers (Dom.fire timer0 b) !! t) eqn:E; [|reflexivity].
      assert (Hsome : is_Some (timers b !! t))
        by (eapply fire_timers; rewrite E; eauto).
      rewrite Hown in Hsome. destruct Hsome as [x Hx]. discriminate Hx.
Qed.

Lemma run_timersOwned (events : list React.event) (s : option Instance * Browser) :
  timersOwned s -> timersOwned (fold_left React.step events s).
Proof.
  revert s. induction events as [|e rest IH]; intros s H; [exact H|].
  cbn [fold_left]. apply IH. now apply step_timersOwned.
Qed.

(** X13.  Starting from a document without pending timers, the component
    never has more than one removal timer pending, whatever the sequence
    of mounts, commits, strict-mode remounts, timer expiries and unmounts:
    every cleanup clears the timer of the run before.  After an unmount
    none is pending. *)
Theorem at_most_one_pending_timer (events : list React.event) (b0 : Browser) :
  (forall t, timers b0 !! t = None) ->
  (forall t1 t2,
      is_Some (timers (snd (React.run events b0)) !! t1) ->
      is_Some (timers (snd (React.run events b0)) !! t2) ->
      t1 = t2)
  /\ (fst (React.run events b0) = None ->
      forall t, timers (snd (React.run events b0)) !! t = None).
Proof.
  intros Hnone.
  assert (Hown : timersOwned (React.run events b0)).
  { unfold React.run. apply run_timersOwned. exact Hnone. }
  unfold timersOwned in Hown. split.
  - intros t1 t2 H1 H2.
    destruct (fst (React.run events b0)) as [inst|].
    + apply Hown in H1, H2. congruence.
    + rewrite Hown in H1. destruct H1 as [x Hx]. discriminate Hx.
  - intros Hgone. now rewrite Hgone in Hown.
Qed.

Lemma at_most_one_pending_timer_witness :
  map fst (map_to_list
             (timers (snd (React.run [React.Mount (Model.envOf "light" "light");
                                      React.Update (Model.envOf "dark" "dark");
                                      React.Update (Model.envOf "light" "light")]
                             Dom.empty))))
  = [3]
  /\ forall t1 t2,
       is_Some (timers (snd (React.run [React.Mount (Model.envOf "light" "light");
                                        React.Update (Model.envOf "dark" "dark");
                                        React.Update (Model.envOf "light" "light")]
                               Dom.empty)) !! t1) ->
       is_Some (timers (snd (React.run [React.Mount (Model.envOf "light" "light");
                                        React.Update (Model.envOf "dark" "dark");
                                        React.Update (Model.envOf "light" "light")]
                               Dom.empty)) !! t2) ->
       t1 = t2.
Proof.
  split; [vm_compute; reflexivity|].
  apply (at_most_one_pending_timer
           [React.Mount (Model.envOf "light" "light");
            React.Update (Model.envOf "dark" "dark");
            React.Update (Model.envOf "light" "light")] Dom.empty).
  intros t. apply lookup_empty.
Defined.

(** *** Dependency arrays *)

Lemma bool_decide_same {A : Type} `{EqDecision A} (x y : A) :
  x = y -> bool_decide (x = y) = true.
Proof. intros ->. now apply bool_decide_eq_true_2. Qed.

(** X14.  A commit runs an effect only when one of its dependencies
    changed, and each effect keeps to its own part of the document: the
    attributes of the root change only with [colorScheme] or [attribute],
    its inline style only with [mode], [systemMode] or [enableColorScheme],
    the head and the timers only with [colorScheme] or
    [disableTransitionOnChange]; a commit that changes none of the six
    makes no DOM call at all. *)
Theorem effects_follow_their_dependencies (inst : Instance) (env : EffectEnv) (b : Browser) :
  let old := committed inst in
  let b' := snd (React.update inst env b) in
  (env_colorScheme old = env_colorScheme env ->
   env_attribute old = env_attribute env ->
   rootAttributes b' = rootAttributes b)
  /\ (env_mode old = env_mode env ->
      env_systemMode old = env_systemMode env ->
      env_enableColorScheme old = env_enableColorScheme env ->
      rootStyle b' = rootStyle b)
  /\ (env_colorScheme old = env_colorScheme env ->
      env_disableTransitionOnChange old = env_disableTransitionOnChange env ->
      head b' = head b /\ timers b' = timers b /\ nodeText b' = nodeText b)
  /\ (old = env -> b' = b /\ calls b' = calls b).
Proof.
  cbn zeta. split; [|split; [|split]].
  - intros Hc Ha. rewrite update_attrs. unfold React.attributeDepsChanged.
    now rewrite (bool_decide_same _ _ Hc), (bool_decide_same _ _ Ha).
  - intros Hm Hs He. rewrite update_rootStyle. unfold React.colorSchemeDepsChanged.
    now rewrite (bool_decide_same _ _ Hm), (bool_decide_same _ _ Hs),
      (bool_decide_same _ _ He).
  - intros Hc Hd.
    destruct (update_shape inst env b) as (b4 & prior & Hh & _ & Hn & Ht & Hupd).
    rewrite Hupd. unfold React.transitionDepsChanged in *.
    rewrite (bool_decide_same _ _ Hc), (bool_decide_same _ _ Hd) in *.
    cbn [andb negb snd] in *. auto.
  - intros Heq.
    assert (Hb : snd (React.update inst env b) = b).
    { unfold React.update. rewrite <- Heq.
      unfold React.colorSchemeDepsChanged, React.transitionDepsChanged,
        React.attributeDepsChanged.
      rewrite !bool_decide_eq_true_2 by reflexivity. reflexivity. }
    now rewrite Hb.
Qed.

(** X15.  [disableTransitionOnChange] is itself a dependency of the
    transition effect: switching it on in a mounted component appends the
    transition-disabling style element once and sets its removal timer,
    even when the scheme did not change. *)
Theorem enabling_the_option_injects_once (inst : Instance) (env : EffectEnv) (b : Browser) :
  hasMounted inst = true ->
  env_disableTransitionOnChange (committed inst) = false ->
  env_disableTransitionOnChange env = true ->
  exists node t,
    head (snd (React.update inst env b)) = head b ++ [node]
    /\ nodeText (snd (React.update inst env b)) !! node = Some DISABLE_CSS_TRANSITION
    /\ timer (fst (React.update inst env b)) = Some t
    /\ timers (snd (React.update inst env b)) !! t = Some (1, node).
Proof.
  intros Hm Hold Hnew.
  destruct (update_shape inst env b) as (b4 & prior & Hh & _ & _ & _ & Hupd).
  rewrite Hupd. unfold React.transitionDepsChanged.
  rewrite Hold, Hnew.
  rewrite (bool_decide_eq_false_2 (false = true)) by discriminate.
  rewrite andb_false_r. cbn [negb]. rewrite Hm.
  rewrite (transitionEffect_mounted env b4 Hnew). cbn [fst snd timer head nodeText timers].
  exists (nextId b4), (S (nextId b4)). rewrite Hh.
  repeat split; apply lookup_insert_eq.
Qed.

Lemma enabling_the_option_injects_once_witness :
  exists node t,
    head (snd (React.update
                 (fst (React.mount
                         (Cases.env (Some "light") (Some "light") None true false)
                         Dom.empty))
                 (Cases.env (Some "light") (Some "light") None true true)
                 (snd (React.mount
                         (Cases.env (Some "light") (Some "light") None true false)
                         Dom.empty))))
    = head (snd (React.mount
                   (Cases.env (Some "light") (Some "light") None true false)
                   Dom.empty)) ++ [node]
    /\ timers (snd (React.update
                      (fst (React.mount
                              (Cases.env (Some "light") (Some "light") None true false)
                              Dom.empty))
                      (Cases.env (Some "light") (Some "light") None true true)
                      (snd (React.mount
                              (Cases.env (Some "light") (Some "light") None true false)
                              Dom.empty)))) !! t
       = Some (1, node).
Proof.
  destruct (enabling_the_option_injects_once
              (fst (React.mount
                      (Cases.env (Some "light") (Some "light") None true false)
                      Dom.empty))
              (Cases.env (Some "light") (Some "light") None true true)
              (snd (React.mount
                      (Cases.env (Some "light") (Some "light") None true false)
                      Dom.empty))
              eq_refl eq_refl eq_refl)
    as (node & t & Hhead & _ & _ & Htimer).
  exists node, t. split; [exact Hhead | exact Htimer].
Defined.

(** ** When a render throws *)

Section Throwing.

Variable cssVarsParser : value -> ParserOptions -> Parsed.
Variable deepmerge : value -> value -> value.
Variable useCurrentColorScheme : Hook.options -> Hook.state.
Variable createGetCssVar : string -> value.
Variable DEFAULT_ATTRIBUTE DEFAULT_MODE_STORAGE_KEY : string.

Local Abbreviation localsOf :=
  (renderLocals useCurrentColorScheme DEFAULT_ATTRIBUTE DEFAULT_MODE_STORAGE_KEY).
Local Abbreviation render :=
  (renderCssVarsProvider cssVarsParser deepmerge useCurrentColorScheme
     createGetCssVar DEFAULT_ATTRIBUTE DEFAULT_MODE_STORAGE_KEY).
Local Abbreviation loop := (forEach cssVarsParser deepmerge).
Local Abbreviation initial := (initialTheme cssVarsParser createGetCssVar).
Local Abbreviation root := (rootParse cssVarsParser).

Lemma assignRuntimeFields_total l m :
  primitiveTruthy (Js.get "palette" m) = false ->
  exists t1, assignRuntimeFields l m = Ok t1.
Proof.
  unfold assignRuntimeFields, primitiveTruthy.
  destruct (Js.get "palette" m) eqn:E; cbn; try discriminate; eauto;
    intros H; rewrite andb_true_r in H; rewrite H; eauto.
Qed.

Lemma assignRuntimeFields_throws l m :
  primitiveTruthy (Js.get "palette" m) = true ->
  exists msg, assignRuntimeFields l m = Throw (TypeError msg).
Proof.
  unfold assignRuntimeFields, primitiveTruthy.
  destruct (Js.get "palette" m) eqn:E; cbn; try discriminate;
    intros H; rewrite andb_true_r in H; rewrite H; cbn; eauto.
Qed.

(** The pass of the resolved scheme, reached: the passes before it
    return, and it ends in the two writes through the palette of the
    spread theme. *)
Lemma resolved_pass ds props l key scheme :
  localsOf ds props = Ok l ->
  List.NoDup (Js.keys (schemeEntries l)) ->
  resolvedColorScheme l = VStr key ->
  In (key, scheme) (schemeEntries l) ->
  exists pre post ta ssa m rd,
    schemeEntries l = pre ++ (key, scheme) :: post
    /\ loop ds l pre (initial ds l, []) = Ok (ta, ssa)
    /\ themeStep cssVarsParser deepmerge ds l ta (key, scheme)
       = assignRuntimeFields l m
    /\ Js.get "palette" m
       = Js.get "palette"
           (Js.spread (Js.spread [] (parsedTheme (root ds l)))
              (parsedTheme (cssVarsParser scheme (parserOptions ds l))))
    /\ resolvedDefaultColorScheme (defaultColorScheme l) (defaultMode l) = Ok rd
    /\ (forall k s, In (k, s) post -> Js.str_eq k (resolvedColorScheme l) = false).
Proof.
  intros Hl Hnd Hres Hin.
  pose proof (locals_resolvedDefault _ _ _ ds props l Hl) as Hrd.
  destruct (in_split _ _ Hin) as (pre & post & Hsplit).
  destruct (fresh_elsewhere _ pre post key scheme Hnd Hsplit) as [Hpre Hpost].
  rewrite <- Hres in Hpre, Hpost.
  destruct (loop_others_returns cssVarsParser deepmerge ds l pre
              (initial ds l) [] _ Hrd Hpre) as (ta & ssa & Ea).
  assert (Hta : Js.lookup "palette" ta
                = Js.lookup "palette" (Js.spread [] (parsedTheme (root ds l)))).
  { rewrite <- (initial_palette cssVarsParser createGetCssVar).
    eapply loop_others; [discriminate | exact Hpre | exact Ea]. }
  assert (Hnda : List.NoDup (Js.keys ta)).
  { eapply loop_NoDup; [exact Ea | apply initial_NoDup]. }
  assert (Hk : Js.str_eq key (resolvedColorScheme l) = true)
    by (now apply str_eq_true).
  eexists pre, post, ta, ssa, _, _.
  split; [exact Hsplit|]. split; [exact Ea|]. split.
  { unfold themeStep. cbn [fst snd]. rewrite Hk.
    rewrite spread_nil_id by now apply NoDup_keys_set. reflexivity. }
  split; [|split; [exact Hrd | exact Hpost]].
  unfold Js.get. erewrite lookup_spread_congr; [reflexivity|].
  rewrite lookup_set_ne by discriminate. exact Hta.
Qed.

(** X16.  With the locals in hand and distinct registry keys, the loop can
    fail in one way only.  When the resolved scheme is a key of the
    registry, the render throws a TypeError exactly when the palette left
    by the spread of that scheme is a truthy primitive (a non-empty
    string, a non-zero number, [true]), on which [mode] cannot be set; with
    a palette that is an object, a function or falsy it returns. *)
Theorem render_throws_exactly_on_a_primitive_palette ds props l key scheme :
  localsOf ds props = Ok l ->
  List.NoDup (Js.keys (schemeEntries l)) ->
  resolvedColorScheme l = VStr key ->
  In (key, scheme) (schemeEntries l) ->
  let merged :=
    Js.get "palette"
      (Js.spread (Js.spread [] (parsedTheme (root ds l)))
         (parsedTheme (cssVarsParser scheme (parserOptions ds l)))) in
  (primitiveTruthy merged = true -> exists msg, render ds props = Throw (TypeError msg))
  /\ (primitiveTruthy merged = false -> exists r, render ds props = Ok r).
Proof.
  intros Hl Hnd Hres Hin merged.
  destruct (resolved_pass ds props l key scheme Hl Hnd Hres Hin)
    as (pre & post & ta & ssa & m & rd & Hsplit & Ea & Estep & Hm & Hrd & Hpost).
  fold merged in Hm.
  assert (Hloop : loop ds l (schemeEntries l) (initial ds l, [])
                  = bind (schemeStep cssVarsParser deepmerge ds l (ta, ssa)
                            (key, scheme))
                      (loop ds l post)).
  { rewrite Hsplit, loop_app.
    match goal with
    | |- context [bind (forEach _ _ _ _ pre ?acc) _] =>
        replace (forEach cssVarsParser deepmerge ds l pre acc)
          with (Ok (A := obj * obj) (ta, ssa))
    end.
    cbn [bind]. rewrite loop_cons. reflexivity. }
  unfold themeStep in Estep. cbn [fst snd] in Estep.
  unfold renderCssVarsProvider. rewrite Hl. cbn [bind]. rewrite Hloop.
  split; intros Hprim; rewrite <- Hm in Hprim.
  - destruct (assignRuntimeFields_throws l m Hprim) as (msg & Hthrow).
    exists msg. unfold schemeStep. cbn [fst snd].
    rewrite Estep, Hthrow. reflexivity.
  - destruct (assignRuntimeFields_total l m Hprim) as (tb & Hok).
    rewrite (schemeStep_intro cssVarsParser deepmerge ds l ta ssa key scheme tb rd);
      [|unfold themeStep; cbn [fst snd]; now rewrite Estep | exact Hrd].
    cbn [bind].
    destruct (loop_others_returns cssVarsParser deepmerge ds l post tb
                (Js.set (selectorOf rd (attribute l) key)
                   (css (cssVarsParser scheme (parserOptions ds l))) ssa)
                rd Hrd Hpost) as (t & ss & ->).
    cbn [bind]. eauto.
Qed.

End Throwing.

Lemma render_throws_exactly_on_a_primitive_palette_witness :
  exists msg,
    Model.render Cases.flatSystem Model.noProps
      (Model.snapshot (Some "light"%string) None (Some "light"%string))
    = Throw (TypeError msg).
Proof.
  destruct (Model.locals Cases.flatSystem Model.noProps
              (Model.snapshot (Some "light"%string) None (Some "light"%string)))
    as [l|] eqn:Hl; [|vm_compute in Hl; discriminate Hl].
  pose proof (fun Hnd Hres Hin =>
                proj1 (render_throws_exactly_on_a_primitive_palette
                         Model.cssVarsParser Model.deepmerge
                         (Model.snapshot (Some "light"%string) None
                            (Some "light"%string))
                         Model.createGetCssVar "data-attr" "mode"
                         Cases.flatSystem Model.noProps l "light" Cases.flatScheme
                         Hl Hnd Hres Hin)) as T.
  vm_compute in Hl. injection Hl as <-.
  apply T.
  - cbn. repeat constructor. intros [].
  - reflexivity.
  - cbn. now left.
  - reflexivity.
Defined.
